(** * animo-disconnect-tg: the update-detection pipeline

    A shallow embedding of the cache ([services/cache.py], [models/cache.py]),
    the fetcher ([services/scraper.py]), the diff engine and the update
    composer ([bot/formatter.py]), the message sender and the per-item
    update step ([services/notifier.py]) and the broadcast loop
    ([bot/scheduler.py]), with the properties the specification states
    about them.  The status report ([compose_status_lines],
    [send_course_status], [notify_cloudflare_block]), the subscriber
    store ([services/storage.py]) and the handlers of [/start], [/stop]
    and [/check] ([bot/commands.py]) are embedded as well, for the
    further properties of the last part.

    Conventions of the embedding.
    - A Python [str] is the list of its code points, so that [len] is
      [length].  [py "abc"] writes an ASCII literal.
    - A section record is the Python [dict] the scraper's JSON holds: a
      finite map from field names to values.  The values are the JSON
      scalars ([None], booleans, integers, strings).  Arrays, objects
      (the [meetings] list) and non-integral numbers are not represented:
      of the code embedded here only [format_section] reads them.  It is
      a field of the environment, a function that returns the text of a
      record or raises, as the source does on a [meetings] field it
      cannot iterate; [Formatter.format_section] is what the source
      computes on the records represented here.  As a class number the
      values not represented are outside the data model, whose class
      numbers are integers.
    - The age of a cache entry is the float [total_seconds] returns, the
      quotient of the microseconds by a million rounded to binary64, and
      it is compared with the integer TTL as Python compares a float
      with an [int], exactly.
    - A Python [dict] whose iteration order the code relies on is an
      association list in insertion order ([PyDict]); the others are
      [gmap]s.
    - Effects (the cache, the clock, the scraper's HTTP endpoint, the
      Telegram bot, the subscriber store) are threaded through a state and
      exception monad over a [world]. *)

From Stdlib Require Import ZArith NArith String Ascii List Bool Lia DecimalString.
From Stdlib Require Import Sorting.Sorted Sorting.Permutation.
From stdpp Require Import base option list gmap.

Local Open Scope Z_scope.

(** ** Python strings *)

Abbreviation str := (list N).

Definition py (s : string) : str := map N_of_ascii (list_ascii_of_string s).

(** ** JSON values and section records *)

Inductive value : Type :=
| VNone
| VBool (b : bool)
| VInt (z : Z)
| VStr (s : str).

#[global] Instance value_eq_dec : EqDecision value.
Proof. solve_decision. Defined.

Abbreviation section := (gmap str value).
Abbreviation snapshot := (list (gmap str value)).

Definition k_classNbr : str := py "classNbr".
Definition k_enrolled : str := py "enrolled".
Definition k_course : str := py "course".
Definition k_section : str := py "section".

(** [s.get(field)]: the value, [None] when the field is absent. *)
Definition get_field (s : section) (field : str) : value :=
  default VNone (s !! field).

(** [s.get(field, dflt)] *)
Definition get_field_or (s : section) (field : str) (dflt : value) : value :=
  default dflt (s !! field).

(** [isinstance(v, int)]: Python's [bool] is a subclass of [int]. *)
Definition isinstance_int (v : value) : bool :=
  match v with
  | VInt _ | VBool _ => true
  | _ => false
  end.

(** The integer a value denotes when [isinstance_int] holds. *)
Definition int_of (v : value) : option Z :=
  match v with
  | VInt z => Some z
  | VBool b => Some (Z.b2z b)
  | _ => None
  end.

(** [a == b] on JSON scalars: numbers (booleans included) compare by
    value, strings by content, [None] is equal to itself only. *)
Definition py_eq (a b : value) : bool :=
  match int_of a, int_of b with
  | Some x, Some y => bool_decide (x = y)
  | None, None => bool_decide (a = b)
  | _, _ => false
  end.

(** The key under which a value is found in a [dict]: [True] and [1]
    ([False] and [0]) hash and compare equal, so they are one key. *)
Definition dict_key (v : value) : value :=
  match v with
  | VBool b => VInt (Z.b2z b)
  | _ => v
  end.

(** ** Python dictionaries in insertion order *)

Module PyDict.
Section Dict.
Context {K V : Type} `{EqDecision K}.

(** [d.get(k)] *)
Fixpoint get (k : K) (d : list (K * V)) : option V :=
  match d with
  | [] => None
  | (k', v) :: d' => if decide (k' = k) then Some v else get k d'
  end.

(** [k in d] *)
Definition mem (k : K) (d : list (K * V)) : bool :=
  match get k d with Some _ => true | None => false end.

(** [d[k] = v]: an existing key keeps its place and takes the new
    value, a new key goes last. *)
Fixpoint set (k : K) (v : V) (d : list (K * V)) : list (K * V) :=
  match d with
  | [] => [(k, v)]
  | (k', v') :: d' =>
      if decide (k' = k) then (k', v) :: d' else (k', v') :: set k v d'
  end.

(** [d.keys()] and [d.values()] *)
Definition keys (d : list (K * V)) : list K := map fst d.
Definition values (d : list (K * V)) : list V := map snd d.
End Dict.
End PyDict.

(** ** bot/formatter.py: the diff engine *)

Record change : Type := Change {
  ch_section : section;
  old_enrolled : value;
  new_enrolled : value
}.

Record changes : Type := Changes {
  added : list section;
  removed : list section;
  enrollment : list change
}.

(** One turn of the comprehension that builds an index: a record with
    the field [classNbr] is set under its class number. *)
Definition index_step (d : list (value * section)) (s : section)
    : list (value * section) :=
  match s !! k_classNbr with
  | Some n => PyDict.set (dict_key n) s d
  | None => d
  end.

(** [{s["classNbr"]: s for s in snap if "classNbr" in s}] *)
Definition by_number (snap : snapshot) : list (value * section) :=
  fold_left index_step snap [].

(** [[s for k, s in a.items() if k not in b]] *)
Definition not_in (a b : list (value * section)) : list section :=
  map snd (List.filter (fun p => negb (PyDict.mem (fst p) b)) a).

(** One turn of the loop over [new_by_number.items()]. *)
Definition enrollment_change (old_by_number : list (value * section))
    (p : value * section) : option change :=
  let '(class_number, new_section) := p in
  match PyDict.get class_number old_by_number with
  | Some old_section =>
      let old_enr := get_field old_section k_enrolled in
      let new_enr := get_field new_section k_enrolled in
      if isinstance_int old_enr && isinstance_int new_enr
         && negb (py_eq old_enr new_enr)
      then Some (Change new_section old_enr new_enr)
      else None
  | None => None
  end.

Definition diff_courses (old new : snapshot) : changes :=
  let old_by_number := by_number old in
  let new_by_number := by_number new in
  {| added := not_in new_by_number old_by_number;
     removed := not_in old_by_number new_by_number;
     enrollment := omap (enrollment_change old_by_number) new_by_number |}.

(** *** Notions the statements about the diff use *)

(** The dictionary key of a record's class number, when it has one. *)
Definition class_key (s : section) : option value :=
  dict_key <$> (s !! k_classNbr).

(** The last record of a snapshot that carries the class number [k]. *)
Definition latest (snap : snapshot) (k : value) : option section :=
  last (filter (fun s => class_key s = Some k) snap).

(** The distinct elements of a list, each at its first occurrence. *)
Fixpoint first_occurrences (l : list value) : list value :=
  match l with
  | [] => []
  | x :: l' => x :: filter (fun y => y ≠ x) (first_occurrences l')
  end.

(** A record that carries the class-number field. *)
Definition has_class_number (s : section) : Prop := is_Some (s !! k_classNbr).

#[global] Instance has_class_number_dec s : Decision (has_class_number s).
Proof. unfold has_class_number. apply _. Defined.

(** The diff that reports nothing. *)
Definition no_changes : changes :=
  {| added := []; removed := []; enrollment := [] |}.

(** [any(changes.values())] *)
Definition any_changes (c : changes) : bool :=
  match added c, removed c, enrollment c with
  | [], [], [] => false
  | _, _, _ => true
  end.

(** ** Text helpers *)

(** [str(n)] for an [int]. *)
Definition str_of_Z (z : Z) : str := py (NilZero.string_of_int (Z.to_int z)).
Definition str_of_nat (n : nat) : str := str_of_Z (Z.of_nat n).

(** [str(v)] as an f-string renders it. *)
Definition str_of_value (v : value) : str :=
  match v with
  | VNone => py "None"
  | VBool true => py "True"
  | VBool false => py "False"
  | VInt z => str_of_Z z
  | VStr s => s
  end.

(** [sep.join(parts)] *)
Fixpoint join (sep : str) (parts : list str) : str :=
  match parts with
  | [] => []
  | [p] => p
  | p :: rest => p ++ sep ++ join sep rest
  end.

(** The characters [str.strip()] removes: those with [str.isspace()]. *)
Definition is_space (c : N) : bool :=
  ((9 <=? c) && (c <=? 13) || (28 <=? c) && (c <=? 32)
   || (c =? 133) || (c =? 160) || (c =? 5760)
   || (8192 <=? c) && (c <=? 8202)
   || (c =? 8232) || (c =? 8233) || (c =? 8239) || (c =? 8287)
   || (c =? 12288))%N.

Fixpoint lstrip (s : str) : str :=
  match s with
  | c :: s' => if is_space c then lstrip s' else s
  | [] => []
  end.

Definition rstrip (s : str) : str := rev (lstrip (rev s)).
Definition strip (s : str) : str := rstrip (lstrip s).

Definition is_empty {A} (l : list A) : bool :=
  match l with [] => true | _ => false end.

(** The blank line between two blocks. *)
Definition blank_line : str := [10; 10]%N.

(** ** Exceptions *)

(** The exceptions the embedded code raises, and the outcome of a call:
    a value or an exception. *)
Inductive exn : Type :=
| CloudflareBlockedError
| ClientError
| JSONDecodeError
| TelegramError
| TypeError
| KeyError
| AttributeError.

Inductive outcome (A : Type) : Type :=
| Ret (a : A)
| Raise (e : exn).
Arguments Ret {A} a.
Arguments Raise {A} e.

(** [[f(x) for x in l]] for an [f] that may raise: the texts, or the
    exception of the first element on which [f] raises. *)
Fixpoint format_all (f : section -> outcome str) (l : list section)
    : outcome (list str) :=
  match l with
  | [] => Ret []
  | s :: l' =>
      match f s with
      | Ret text =>
          match format_all f l' with
          | Ret texts => Ret (text :: texts)
          | Raise e => Raise e
          end
      | Raise e => Raise e
      end
  end.

(** ** bot/formatter.py: composing the update text *)

(** [a < b] on code-point strings. *)
Fixpoint str_lt (a b : str) : bool :=
  match a, b with
  | _, [] => false
  | [], _ :: _ => true
  | x :: a', y :: b' => (x <? y)%N || ((x =? y)%N && str_lt a' b')
  end.

(** [a < b] on values; [None] stands for the [TypeError] Python raises
    on operands it cannot order. *)
Definition py_lt (a b : value) : option bool :=
  match int_of a, int_of b with
  | Some x, Some y => Some (x <? y)
  | _, _ =>
      match a, b with
      | VStr s, VStr t => Some (str_lt s t)
      | _, _ => None
      end
  end.

(** [a < b] on pairs: the first components that differ decide. *)
Definition pair_lt (a b : value * value) : option bool :=
  if negb (py_eq (fst a) (fst b)) then py_lt (fst a) (fst b)
  else if negb (py_eq (snd a) (snd b)) then py_lt (snd a) (snd b)
  else Some false.

(** The key of [sorted(changes["enrollment"], key=...)]. *)
Definition sort_key (c : change) : value * value :=
  (get_field_or (ch_section c) k_course (VStr []),
   get_field_or (ch_section c) k_section (VStr [])).

(** [sorted(l, key=sort_key)]: a stable sort that only asks [<].  Each
    element goes in front of the first one that is not below it.  When
    two keys cannot be ordered Python raises from whichever comparison
    its own merge strategy performs; here the sort raises when the
    insertion meets such a pair.  Both agree on every list whose keys
    are pairwise ordered. *)
Fixpoint insert_change (c : change) (l : list change) : option (list change) :=
  match l with
  | [] => Some [c]
  | d :: l' =>
      match pair_lt (sort_key d) (sort_key c) with
      | Some true => option_map (cons d) (insert_change c l')
      | Some false => Some (c :: d :: l')
      | None => None
      end
  end.

Fixpoint sorted_changes (l : list change) : option (list change) :=
  match l with
  | [] => Some []
  | c :: l' =>
      match sorted_changes l' with
      | Some s => insert_change c s
      | None => None
      end
  end.

(** One line of the "Enrollment changes" part. *)
Definition change_line (c : change) : str :=
  let section := ch_section c in
  let old_enrl := old_enrolled c in
  let new_enrl := new_enrolled c in
  let cap := get_field_or section (py "enrlCap") (VStr (py "?")) in
  let delta := default 0 (int_of new_enrl) - default 0 (int_of old_enrl) in
  let emoji : str := if 0 <? delta then [128200%N] else [128201%N] in
  emoji ++ py " " ++ str_of_value (get_field_or section k_course (VStr (py "?")))
  ++ py " " ++ str_of_value (get_field_or section k_section (VStr (py "?")))
  ++ py " (Class "
  ++ str_of_value (get_field_or section k_classNbr (VStr (py "?")))
  ++ py ") `" ++ str_of_value old_enrl ++ py " " ++ [10145; 65039]%N
  ++ py " " ++ str_of_value new_enrl ++ py "` / " ++ str_of_value cap.

(** [compose_update_lines].  It raises what [format_section] raises on
    the first section it cannot render, the added sections coming before
    the removed ones, and then the [TypeError] of the sort.
    [format_section] is a parameter: it renders one section or raises,
    and reads the meeting list this development does not represent. *)
Definition compose_update_lines (format_section : section -> outcome str)
    (course : str) (c : changes) (title_suffix : str) : outcome (list str) :=
  let lines := [py "*Updates for " ++ course ++ title_suffix ++ py "* " ++ [128226%N]] in
  match
    (if is_empty (added c) then Ret lines
     else
       match format_all format_section (added c) with
       | Ret texts =>
           Ret (lines ++ [[10%N] ++ py "*" ++ [127381%N] ++ py " New sections added*"]
                      ++ texts)
       | Raise e => Raise e
       end)
  with
  | Raise e => Raise e
  | Ret lines =>
      match
        (if is_empty (removed c) then Ret lines
         else
           match format_all format_section (removed c) with
           | Ret texts =>
               Ret (lines ++ [[10%N] ++ py "*" ++ [128465; 65039]%N ++ py " Sections removed*"]
                          ++ texts)
           | Raise e => Raise e
           end)
      with
      | Raise e => Raise e
      | Ret lines =>
          if is_empty (enrollment c) then Ret lines
          else
            match sorted_changes (enrollment c) with
            | Some sorted =>
                Ret (lines ++ [[10%N] ++ py "*" ++ [128202%N] ++ py " Enrollment changes*"]
                           ++ map change_line sorted)
            | None => Raise TypeError
            end
      end
  end.

(** ** bot/formatter.py: rendering a record *)

Module Formatter.
(** [format_section] on the records of this development.  Their
    [meetings] field, when it is present, holds a scalar and not a list:
    [None], a boolean or a number cannot be iterated ([TypeError]), a
    string that is not empty is iterated by its characters, which have
    no [get] ([AttributeError]), and the empty string, like a missing
    field, gives no meeting and the text "No schedule information". *)
Definition format_section (s : section) : outcome str :=
  match s !! py "meetings" with
  | Some VNone | Some (VBool _) | Some (VInt _) => Raise TypeError
  | Some (VStr (_ :: _)) => Raise AttributeError
  | Some (VStr []) | None =>
      Ret (py "*" ++ str_of_value (get_field_or s k_course (VStr (py "N/A")))
           ++ py " "
           ++ str_of_value (get_field_or s k_section (VStr (py "N/A")))
           ++ py "* (Class "
           ++ str_of_value (get_field_or s k_classNbr (VStr (py "N/A")))
           ++ py ")" ++ [10%N]
           ++ py "Enrolled: "
           ++ str_of_value (get_field_or s k_enrolled (VStr (py "?")))
           ++ py "/"
           ++ str_of_value (get_field_or s (py "enrlCap") (VStr (py "?")))
           ++ py " | "
           ++ str_of_value (get_field_or s (py "remarks") (VStr []))
           ++ [10%N]
           ++ py "Instructor: "
           ++ str_of_value (get_field_or s (py "instructor") (VStr (py "TBA")))
           ++ [10%N]
           ++ py "Schedule: " ++ py "No schedule information" ++ [10%N])
  end.
End Formatter.

(** ** services/notifier.py: splitting a long text into chunks *)

(** One turn of the loop over [text_lines]; the state is
    [(chunks, current_chunk)]. *)
Definition chunk_step (msg_limit : nat) (st : list str * str) (line : str)
    : list str * str :=
  let '(chunks, current_chunk) := st in
  let line_with_separators :=
    (if is_empty current_chunk then [] else blank_line) ++ line in
  if (msg_limit <? length current_chunk + length line_with_separators)%nat
  then (chunks ++ [strip current_chunk], line)
  else (chunks, current_chunk ++ line_with_separators).

(** The list [chunks] when the sending loop starts. *)
Definition split_chunks (msg_limit : nat) (text_lines : list str) : list str :=
  let '(chunks, current_chunk) :=
    fold_left (chunk_step msg_limit) text_lines ([], []) in
  if is_empty current_chunk then chunks
  else chunks ++ [strip current_chunk].

(** The header of chunk [idx] out of [n]. *)
Definition part_header (title : str) (idx n : nat) : str :=
  if (1 <? n)%nat && negb (is_empty title)
  then py "*" ++ title ++ py "* (part " ++ str_of_nat idx ++ py "/"
       ++ str_of_nat n ++ py ")" ++ blank_line
  else [].

Definition full_message (title : str) (n idx : nat) (chunk : str) : str :=
  part_header title idx n ++ chunk.

(** The texts the sending loop hands to the bot when every send
    succeeds. *)
Definition messages (msg_limit : nat) (text_lines : list str) (title : str)
    : list str :=
  let chunks := split_chunks msg_limit text_lines in
  imap (fun i chunk => full_message title (length chunks) (S i) chunk) chunks.

(** ** models/cache.py and services/cache.py *)

(** A [datetime] is its number of microseconds since the epoch. *)
Record CacheEntry : Type := mkCacheEntry {
  ce_course : str;
  ce_student_id : str;
  ce_data : snapshot;
  ce_timestamp : Z
}.

(** *** The age of an entry, as a float

    [timedelta.total_seconds()] divides the microseconds of the
    difference by [10**6] with Python's true division of integers, which
    gives the binary64 number nearest to the quotient, the one with an
    even mantissa of two that are equally near.  [age < max_age_seconds]
    then compares that float with the integer TTL by their exact values.
    A float is kept by its value; the quotients of two instants of a
    [datetime] lie between [10**-6] and [10**12] in magnitude, far from
    the ends of the exponent range of binary64, which is left out. *)

(** [2 ** e] for an exponent that is not negative, and [1] otherwise:
    the number [2 ** e] is the fraction [pow2 e / pow2 (- e)]. *)
Definition pow2 (e : Z) : Z := 2 ^ Z.max 0 e.

(** A finite binary64 number, by its value [mantissa * 2 ** exponent]. *)
Record float : Type := Float { mantissa : Z; exponent : Z }.

(** The integer nearest to [n / d], the even one of two that are equally
    near; [n] is not negative and [d] is positive. *)
Definition round_half_even (n d : Z) : Z :=
  let m := n / d in
  let r := n mod d in
  if 2 * r <? d then m
  else if d <? 2 * r then m + 1
  else if Z.even m then m else m + 1.

(** [floor(log2(p / q))] for positive [p] and [q]. *)
Definition binade (p q : Z) : Z :=
  let k := Z.log2 p - Z.log2 q in
  if q * pow2 k <=? p * pow2 (- k) then k else k - 1.

(** [p / q] on positive integers: the quotient rounded to 53 significant
    bits. *)
Definition true_divide_pos (p q : Z) : float :=
  let s := binade p q - 52 in
  Float (round_half_even (p * pow2 (- s)) (q * pow2 s)) s.

(** [p / q] on integers, [q] positive: Python's true division. *)
Definition true_divide (p q : Z) : float :=
  if p =? 0 then Float 0 0
  else if 0 <? p then true_divide_pos p q
  else let f := true_divide_pos (- p) q in Float (- mantissa f) (exponent f).

(** [f < n] for a float and an integer. *)
Definition float_lt_int (f : float) (n : Z) : bool :=
  mantissa f * pow2 (exponent f) <? n * pow2 (- exponent f).

(** [timedelta.total_seconds()] of a difference of [us] microseconds. *)
Definition total_seconds (us : Z) : float := true_divide us 1000000.

(** [CacheEntry.is_valid]:
    [(datetime.now() - self.timestamp).total_seconds() < max_age_seconds] *)
Definition is_valid (e : CacheEntry) (max_age_seconds now : Z) : bool :=
  let age := total_seconds (now - ce_timestamp e) in
  float_lt_int age max_age_seconds.

Record CacheService : Type := mkCacheService {
  cache : gmap str CacheEntry;
  max_age_seconds : Z;
  hits : nat;
  misses : nat
}.

(** [CacheService(max_age_seconds)] *)
Definition new_cache (max_age : Z) : CacheService :=
  mkCacheService ∅ max_age 0 0.

Definition get_cache_key (course student_id : str) : str :=
  course ++ py ":" ++ student_id.

(** [CacheService.get] at the instant [now]. *)
Definition cache_get (c : CacheService) (now : Z) (course student_id : str)
    : option snapshot * CacheService :=
  let cache_key := get_cache_key course student_id in
  match cache c !! cache_key with
  | Some entry =>
      if is_valid entry (max_age_seconds c) now
      then (Some (ce_data entry),
            mkCacheService (cache c) (max_age_seconds c) (S (hits c)) (misses c))
      else (None,
            mkCacheService (cache c) (max_age_seconds c) (hits c) (S (misses c)))
  | None =>
      (None, mkCacheService (cache c) (max_age_seconds c) (hits c) (S (misses c)))
  end.

(** [CacheService.set] at the instant [now]. *)
Definition cache_set (c : CacheService) (now : Z) (course student_id : str)
    (data : snapshot) : CacheService :=
  let cache_key := get_cache_key course student_id in
  mkCacheService
    (<[cache_key := mkCacheEntry course student_id data now]> (cache c))
    (max_age_seconds c) (hits c) (misses c).

(** [get_stats()["total_entries"]] *)
Definition total_entries (c : CacheService) : nat := size (cache c).

(** A use of the cache by a client. *)
Inductive cache_op : Type :=
| OpGet (now : Z) (course student_id : str)
| OpSet (now : Z) (course student_id : str) (data : snapshot).

Definition run_op (c : CacheService) (op : cache_op) : CacheService :=
  match op with
  | OpGet now course sid => snd (cache_get c now course sid)
  | OpSet now course sid data => cache_set c now course sid data
  end.

Definition run_ops (c : CacheService) (ops : list cache_op) : CacheService :=
  fold_left run_op ops c.

(** The keys the [set] calls of a history have written. *)
Definition keys_put (ops : list cache_op) : list str :=
  omap (fun op =>
          match op with
          | OpSet _ course sid _ => Some (get_cache_key course sid)
          | OpGet _ _ _ => None
          end) ops.

(** ** models/tracking.py *)

Record UserPreferences : Type := mkPrefs {
  id_no : str;
  courses : list str;
  sections : list (str * list Z);
  previous_data : gmap str snapshot
}.

Record TrackingInfo : Type := mkTrackingInfo {
  chat_id : Z;
  student_id : str;
  ti_course : str;
  track_all : bool;
  class_numbers : list Z
}.

Definition get_data_key (info : TrackingInfo) : str :=
  if track_all info then ti_course info
  else ti_course info ++ py ":sections".

(** ** The world around the pipeline *)

(** What one request to the scraper endpoint comes back with: a
    response with a status and, when its body parses, the JSON list; or
    one of the failures of the HTTP client. *)
Inductive http_reply : Type :=
| HttpResponse (status : Z) (body : option snapshot)
| HttpTimeout
| HttpConnectorError
| HttpClientError.

(** The collaborators and the configuration.  The oracles take the
    number of earlier calls, so that any deterministic behaviour over a
    run is expressible.  [format_section] renders a record or raises, as
    the function of [bot/formatter.py] does on the whole record, its
    list of meetings included. *)
Record env : Type := mkEnv {
  CACHE_ENABLED : bool;
  MAX_TEXT_LENGTH : nat;
  clock : nat -> Z;
  scraper_api : nat -> str -> str -> http_reply;
  telegram : nat -> Z -> str -> bool;
  format_section : section -> outcome str
}.

Record world : Type := mkWorld {
  w_cache : CacheService;
  w_clock_reads : nat;
  w_requests : list (str * str);
  w_sends : list (Z * str * bool);
  w_subscriptions : list (Z * UserPreferences);
  w_saves : nat
}.

Definition M (A : Type) : Type := world -> outcome A * world.

Definition ret {A} (a : A) : M A := fun w => (Ret a, w).
Definition raise {A} (e : exn) : M A := fun w => (Raise e, w).
Definition bind {A B} (m : M A) (k : A -> M B) : M B :=
  fun w =>
    match m w with
    | (Ret a, w') => k a w'
    | (Raise e, w') => (Raise e, w')
    end.
(** [try: m  except Exception as e: ...]: the outcome of [m] as a value
    the handlers inspect. *)
Definition catch {A} (m : M A) : M (outcome A) :=
  fun w => let '(r, w') := m w in (Ret r, w').

#[global] Instance M_ret : MRet M := @ret.
#[global] Instance M_bind : MBind M := fun A B k m => bind m k.

Section Pipeline.
Context (E : env).

(** *** Primitive effects *)

(** [datetime.now()] *)
Definition datetime_now : M Z := fun w =>
  (Ret (clock E (w_clock_reads w)),
   mkWorld (w_cache w) (S (w_clock_reads w)) (w_requests w) (w_sends w)
           (w_subscriptions w) (w_saves w)).

(** [session.get(url)] for the URL of [(course, id_no)] *)
Definition http_get (course id_no : str) : M http_reply := fun w =>
  (Ret (scraper_api E (length (w_requests w)) course id_no),
   mkWorld (w_cache w) (w_clock_reads w) (w_requests w ++ [(course, id_no)])
           (w_sends w) (w_subscriptions w) (w_saves w)).

(** [ctx.bot.send_message(chat_id, text)] *)
Definition send_message (chat : Z) (text : str) : M unit := fun w =>
  let ok := telegram E (length (w_sends w)) chat text in
  ((if ok then Ret tt else Raise TelegramError),
   mkWorld (w_cache w) (w_clock_reads w) (w_requests w)
           (w_sends w ++ [(chat, text, ok)]) (w_subscriptions w) (w_saves w)).

Definition set_cache (c : CacheService) : M unit := fun w =>
  (Ret tt,
   mkWorld c (w_clock_reads w) (w_requests w) (w_sends w)
           (w_subscriptions w) (w_saves w)).

Definition set_subscriptions (s : list (Z * UserPreferences)) : M unit :=
  fun w =>
    (Ret tt,
     mkWorld (w_cache w) (w_clock_reads w) (w_requests w) (w_sends w) s
             (w_saves w)).

(** [StorageService.save()]: it catches and logs its own failures. *)
Definition storage_save : M unit := fun w =>
  (Ret tt,
   mkWorld (w_cache w) (w_clock_reads w) (w_requests w) (w_sends w)
           (w_subscriptions w) (S (w_saves w))).

Definition get_world : M world := fun w => (Ret w, w).

(** [self.cache.get(course, id_no)]: the clock is read by [is_valid],
    that is, when the key has an entry. *)
Definition cache_get_m (course id_no : str) : M (option snapshot) :=
  w ← get_world;
  now ← match cache (w_cache w) !! get_cache_key course id_no with
        | Some _ => datetime_now
        | None => mret 0
        end;
  let '(r, c) := cache_get (w_cache w) now course id_no in
  set_cache c;; mret r.

(** [self.cache.set(course, id_no, data)] *)
Definition cache_set_m (course id_no : str) (data : snapshot) : M unit :=
  w ← get_world;
  now ← datetime_now;
  set_cache (cache_set (w_cache w) now course id_no data).

(** *** services/scraper.py *)

(** The part of [fetch_course_data] after the cache lookup. *)
Definition fetch_from_scraper (course id_no : str) : M snapshot :=
  reply ← http_get course id_no;
  match reply with
  | HttpResponse status body =>
      if status =? 503 then raise CloudflareBlockedError
      else if negb (status =? 200) then raise ClientError
      else
        match body with
        | None => raise JSONDecodeError
        | Some data =>
            (if CACHE_ENABLED E then cache_set_m course id_no data
             else mret tt);;
            mret data
        end
  | HttpTimeout => raise ClientError
  | HttpConnectorError => raise ClientError
  | HttpClientError => raise ClientError
  end.

Definition fetch_course_data (course id_no : str) (use_cache : bool)
    : M snapshot :=
  if use_cache && CACHE_ENABLED E then
    cached_data ← cache_get_m course id_no;
    match cached_data with
    | Some data => mret data
    | None => fetch_from_scraper course id_no
    end
  else fetch_from_scraper course id_no.

(** [s.get("classNbr") in class_numbers] *)
Definition in_class_numbers (class_numbers : list Z) (s : section) : bool :=
  existsb (fun n => py_eq (get_field s k_classNbr) (VInt n)) class_numbers.

(** [if class_numbers: sections = [s for s in sections if ...]]: an
    empty list is no filter, as [None] is. *)
Definition filter_sections (class_numbers : option (list Z))
    (sections : snapshot) : snapshot :=
  match class_numbers with
  | Some (n :: ns) => List.filter (in_class_numbers (n :: ns)) sections
  | _ => sections
  end.

Definition fetch_and_filter_data (course id_no : str)
    (class_numbers : option (list Z)) (use_cache : bool)
    : M (option snapshot) :=
  r ← catch (fetch_course_data course id_no use_cache);
  match r with
  | Ret sections => mret (Some (filter_sections class_numbers sections))
  | Raise CloudflareBlockedError => raise CloudflareBlockedError
  | Raise _ => mret None
  end.

(** *** services/notifier.py *)

Definition error_text (title : str) : str :=
  [10060%N] ++ py " Error sending status update for " ++ title
  ++ py ". Please try again later.".

(** The loop [for idx, chunk in enumerate(chunks, 1)], [n] being
    [len(chunks)].  A failed send is logged, answered with the error
    text when it was the first chunk, and ends the loop. *)
Fixpoint send_chunks (chat : Z) (title : str) (n idx : nat)
    (chunks : list str) : M unit :=
  match chunks with
  | [] => mret tt
  | chunk :: rest =>
      r ← catch (send_message chat (full_message title n idx chunk));
      match r with
      | Ret _ => send_chunks chat title n (S idx) rest
      | Raise _ =>
          if (idx =? 1)%nat then send_message chat (error_text title)
          else mret tt
      end
  end.

Definition send_long_message (chat : Z) (text_lines : list str)
    (title : str) : M unit :=
  let chunks := split_chunks (MAX_TEXT_LENGTH E) text_lines in
  send_chunks chat title (length chunks) 1 chunks.

(** [f" (Sections: {', '.join(map(str, class_numbers))})"], empty when
    the whole course is tracked. *)
Definition title_suffix (info : TrackingInfo) : str :=
  if track_all info then []
  else py " (Sections: " ++ join (py ", ") (map str_of_Z (class_numbers info))
       ++ py ")".

(** [tracking_info.class_numbers if not tracking_info.track_all else None] *)
Definition item_filter (info : TrackingInfo) : option (list Z) :=
  if track_all info then None else Some (class_numbers info).

(** [f"Updates for {tracking_info.course}{suffix}"] *)
Definition update_title (info : TrackingInfo) : str :=
  py "Updates for " ++ ti_course info ++ title_suffix info.

Definition process_course_updates (info : TrackingInfo)
    (previous_data : gmap str snapshot) : M (option snapshot) :=
  let data_key := get_data_key info in
  let previous_sections := default [] (previous_data !! data_key) in
  r ← catch (fetch_and_filter_data (ti_course info) (student_id info)
             (item_filter info) true);
  match r with
  | Raise _ => mret None
  | Ret None => mret None
  | Ret (Some current_sections) =>
      let changes := diff_courses previous_sections current_sections in
      (if any_changes changes then
         let suffix := title_suffix info in
         match compose_update_lines (format_section E) (ti_course info)
                 changes suffix with
         | Ret lines =>
             send_long_message (chat_id info) lines (update_title info)
         | Raise e => raise e
         end
       else mret tt);;
      mret (Some current_sections)
  end.

(** *** bot/scheduler.py *)

(** The tracking items of one subscriber: none without a student id,
    else the whole courses, then the courses with chosen sections. *)
Definition tracking_infos_of (chat : Z) (prefs : UserPreferences)
    : list TrackingInfo :=
  if is_empty (id_no prefs) then []
  else
    map (fun course => mkTrackingInfo chat (id_no prefs) course true [])
        (courses prefs)
    ++ omap (fun p : str * list Z =>
               if is_empty (snd p) then None
               else Some (mkTrackingInfo chat (id_no prefs) (fst p) false
                            (snd p)))
            (sections prefs).

Definition all_tracking_infos (subscriptions : list (Z * UserPreferences))
    : list TrackingInfo :=
  flat_map (fun p => tracking_infos_of (fst p) (snd p)) subscriptions.

(** [prefs.previous_data[key] = data] *)
Definition store_previous (prefs : UserPreferences) (key : str)
    (data : snapshot) : UserPreferences :=
  mkPrefs (id_no prefs) (courses prefs) (sections prefs)
          (<[key := data]> (previous_data prefs)).

(** The body of the loop over [all_tracking_infos]. *)
Definition process_item (info : TrackingInfo) : M unit :=
  w ← get_world;
  match PyDict.get (chat_id info) (w_subscriptions w) with
  | None => raise KeyError
  | Some prefs =>
      current_data ← process_course_updates info (previous_data prefs);
      match current_data with
      | Some data =>
          w' ← get_world;
          set_subscriptions
            (PyDict.set (chat_id info)
               (store_previous prefs (get_data_key info) data)
               (w_subscriptions w'))
      | None => mret tt
      end
  end.

Fixpoint process_items (infos : list TrackingInfo) : M unit :=
  match infos with
  | [] => mret tt
  | info :: rest => process_item info;; process_items rest
  end.

Definition broadcast_updates : M unit :=
  w ← get_world;
  let subscriptions := w_subscriptions w in
  if is_empty subscriptions then mret tt
  else
    let infos := all_tracking_infos subscriptions in
    if is_empty infos then mret tt
    else process_items infos;; storage_save.
End Pipeline.

(** ** The status report and the commands *)

(** *** bot/formatter.py: composing the status text *)

Section Sorting.
Context {A : Type}.

(** [sorted(l, key=...)] under a [<] on the keys that may raise: the
    stable insertion sort of [sorted_changes], for any element type. *)
Fixpoint insert_by (lt : A -> A -> option bool) (x : A) (l : list A)
    : option (list A) :=
  match l with
  | [] => Some [x]
  | y :: l' =>
      match lt y x with
      | Some true => option_map (cons y) (insert_by lt x l')
      | Some false => Some (x :: y :: l')
      | None => None
      end
  end.

Fixpoint sorted_by (lt : A -> A -> option bool) (l : list A)
    : option (list A) :=
  match l with
  | [] => Some []
  | x :: l' =>
      match sorted_by lt l' with
      | Some s => insert_by lt x s
      | None => None
      end
  end.

(** [[x for x in l if p(x)]] under a test that may raise. *)
Fixpoint filter_by (p : A -> option bool) (l : list A) : option (list A) :=
  match l with
  | [] => Some []
  | x :: l' =>
      match p x with
      | Some b => option_map (fun r => if b then x :: r else r) (filter_by p l')
      | None => None
      end
  end.
End Sorting.

(** [a >= b] on values. *)
Definition py_ge (a b : value) : option bool := option_map negb (py_lt a b).

(** [s.get("section", "")], the key of the sort. *)
Definition section_label (s : section) : value :=
  get_field_or s k_section (VStr []).

(** [s.get("enrolled", 0) < s.get("enrlCap", 0)] and
    [s.get("enrolled", 0) >= s.get("enrlCap", 0)] *)
Definition is_open (s : section) : option bool :=
  py_lt (get_field_or s k_enrolled (VInt 0))
        (get_field_or s (py "enrlCap") (VInt 0)).
Definition is_full (s : section) : option bool :=
  py_ge (get_field_or s k_enrolled (VInt 0))
        (get_field_or s (py "enrlCap") (VInt 0)).

(** The second line of the status text. *)
Definition totals_line (total open full : nat) : str :=
  py "Total: " ++ str_of_nat total ++ py " | Open: " ++ str_of_nat open
  ++ py " | Full: " ++ str_of_nat full.

(** [compose_status_lines].  It raises the [TypeError] of the sort or of
    a comparison of the two counts, and then what [format_section]
    raises on the first section it cannot render, the open sections
    coming before the full ones. *)
Definition compose_status_lines (format_section : section -> outcome str)
    (course : str) (sections : snapshot) (title_suffix : str)
    : outcome (list str) :=
  match sorted_by (fun a b => py_lt (section_label a) (section_label b))
          sections with
  | None => Raise TypeError
  | Some sections =>
      match filter_by is_open sections with
      | None => Raise TypeError
      | Some open_sections =>
          match filter_by is_full sections with
          | None => Raise TypeError
          | Some full_sections =>
              let lines :=
                [py "*" ++ course ++ title_suffix ++ py "*";
                 totals_line (length sections) (length open_sections)
                   (length full_sections);
                 []] in
              match
                (if is_empty open_sections then Ret lines
                 else
                   match format_all format_section open_sections with
                   | Ret texts =>
                       Ret (lines ++ [py "*Open sections*"] ++ texts ++ [[]])
                   | Raise e => Raise e
                   end)
              with
              | Raise e => Raise e
              | Ret lines =>
                  if is_empty full_sections then Ret lines
                  else
                    match format_all format_section full_sections with
                    | Ret texts =>
                        Ret (lines ++ [py "*Full sections*"] ++ texts)
                    | Raise e => Raise e
                    end
              end
          end
      end
  end.

(** *** The update a handler is called with *)

(** An update as the code reads it: the chat it comes from, and whether
    it carries a message ([update.message] is [None] for an edited
    message, for one). *)
Record Update : Type := mkUpdate {
  effective_chat : Z;
  has_message : bool
}.

(** ** services/storage.py *)

(** [UserPreferences.default()] *)
Definition default_prefs : UserPreferences := mkPrefs [] [] [] ∅.

(** [del d[k]] for a key the dictionary has. *)
Fixpoint dict_del {K V : Type} `{EqDecision K} (k : K) (d : list (K * V))
    : list (K * V) :=
  match d with
  | [] => []
  | (k', v) :: d' => if decide (k' = k) then d' else (k', v) :: dict_del k d'
  end.

(** [sorted(set(l))] on integers: the distinct elements, ascending. *)
Fixpoint add_number (n : Z) (l : list Z) : list Z :=
  match l with
  | [] => [n]
  | m :: l' =>
      if n <? m then n :: l
      else if n =? m then l
      else m :: add_number n l'
  end.
Definition sorted_set (l : list Z) : list Z := foldr add_number [] l.

Section Commands.
Context (E : env).

(** [update.message.reply_text(text)]: the bot sends the text to the
    chat of the message. *)
Definition reply_text (update : Update) (text : str) : M unit :=
  send_message E (effective_chat update) text.

(** *** services/storage.py *)

(** [StorageService.get] *)
Definition storage_get (chat : Z) : M UserPreferences :=
  w ← get_world;
  match PyDict.get chat (w_subscriptions w) with
  | Some prefs => mret prefs
  | None =>
      set_subscriptions (PyDict.set chat default_prefs (w_subscriptions w));;
      mret default_prefs
  end.

(** [StorageService.update] *)
Definition storage_update (chat : Z) (preferences : UserPreferences)
    : M unit :=
  w ← get_world;
  set_subscriptions (PyDict.set chat preferences (w_subscriptions w));;
  storage_save.

(** [StorageService.delete] *)
Definition storage_delete (chat : Z) : M bool :=
  w ← get_world;
  if PyDict.mem chat (w_subscriptions w) then
    set_subscriptions (dict_del chat (w_subscriptions w));;
    storage_save;;
    mret true
  else mret false.

(** *** services/notifier.py: the status of one tracked item *)

Definition block_text : str :=
  [10060%N] ++ py " The course checker is temporarily blocked by Cloudflare."
  ++ [10%N]
  ++ py "Please visit the enrollment site and solve the Cloudflare CAPTCHA/checkbox to unblock access."
  ++ [10%N]
  ++ py "After checking the Cloudflare checkbox, I'll be able to continue monitoring. I'll keep trying in the background.".

(** [notify_cloudflare_block]: the notice goes out as a reply when the
    update carries a message and as a message to the chat otherwise; a
    failure to send it is logged and goes no further. *)
Definition notify_cloudflare_block (chat : Z) (update : option Update)
    : M unit :=
  catch (match update with
         | Some u =>
             if has_message u then reply_text u block_text
             else send_message E chat block_text
         | None => send_message E chat block_text
         end);;
  mret tt.

Definition fetch_error_text (course : str) : str :=
  [10060%N] ++ py " Error fetching data for " ++ course
  ++ py ". Could not check status.".

(** [n in found_numbers], for
    [found_numbers = {s["classNbr"] for s in sections if "classNbr" in s}] *)
Definition found_number (sections : snapshot) (n : Z) : bool :=
  existsb (fun s => match s !! k_classNbr with
                    | Some v => py_eq (VInt n) v
                    | None => false
                    end) sections.

(** [sorted(set(tracking_info.class_numbers) - found_numbers)] *)
Definition not_found (class_numbers : list Z) (sections : snapshot)
    : list Z :=
  sorted_set (List.filter (fun n => negb (found_number sections n))
                class_numbers).

Definition not_found_text (missing : list Z) (course : str) : str :=
  [10060%N] ++ py " Note: Section(s) " ++ join (py ", ") (map str_of_Z missing)
  ++ py " for " ++ course ++ py " were not found in the latest data.".

Definition no_sections_text (info : TrackingInfo) : str :=
  py "No sections found matching your criteria for " ++ ti_course info
  ++ py ". " ++ [129335; 8205; 9794; 65039]%N ++ title_suffix info.

Definition send_course_status (info : TrackingInfo) (update : option Update)
    : M unit :=
  r ← catch (fetch_and_filter_data E (ti_course info) (student_id info)
             (item_filter info) true);
  match r with
  | Raise CloudflareBlockedError =>
      notify_cloudflare_block (chat_id info) update;;
      raise CloudflareBlockedError
  | Raise e => raise e
  | Ret None =>
      send_message E (chat_id info) (fetch_error_text (ti_course info))
  | Ret (Some sections) =>
      (if track_all info then mret tt
       else
         let missing := not_found (class_numbers info) sections in
         if is_empty missing then mret tt
         else send_message E (chat_id info)
                (not_found_text missing (ti_course info)));;
      if is_empty sections then
        send_message E (chat_id info) (no_sections_text info)
      else
        let suffix := title_suffix info in
        match compose_status_lines (format_section E) (ti_course info)
                sections suffix with
        | Ret text_lines =>
            send_long_message E (chat_id info) text_lines
              (ti_course info ++ suffix)
        | Raise e => raise e
        end
  end.

(** *** bot/commands.py

    The handlers are modelled for an update that carries a message, in
    the chat [chat]: every handler starts by replying to that message. *)

Definition welcome_text : str :=
  py "Welcome! " ++ [129302%N] ++ py " I can help you track DLSU course slots."
  ++ [10%N] ++ py "1. Set your ID: `/setid <YOUR_ID_NUMBER>`" ++ [10%N]
  ++ py "2. Add courses: `/addcourse <COURSE_CODE>` (e.g., `/addcourse CSOPESY`)"
  ++ [10%N]
  ++ py "   Or specific sections: `/addcourse <COURSE_CODE>:<CLASS_NBR>` (e.g., `/addcourse CSOPESY:1234`)"
  ++ [10%N] ++ py "Use /help for all commands.".

Definition already_subscribed_text : str :=
  py "You are already subscribed. Use /help to see commands. " ++ [128077%N].

Definition unsubscribed_text : str :=
  py "Unsubscribed successfully. I will no longer send you updates. Bye! "
  ++ [128075%N].

Definition not_subscribed_text : str :=
  py "You were not subscribed. " ++ [128581%N].

(** [CommandHandlers.start] *)
Definition start (chat : Z) : M unit :=
  let update := mkUpdate chat true in
  w ← get_world;
  if negb (PyDict.mem chat (w_subscriptions w)) then
    storage_get chat;;
    reply_text update welcome_text
  else reply_text update already_subscribed_text.

(** [CommandHandlers.stop] *)
Definition stop (chat : Z) : M unit :=
  let update := mkUpdate chat true in
  deleted ← storage_delete chat;
  if deleted : bool then reply_text update unsubscribed_text
  else reply_text update not_subscribed_text.

Definition subscribe_first_text : str :=
  py "You need to subscribe first. Use /start. " ++ [128075%N].

Definition set_id_first_text : str :=
  py "Please set your student ID first using `/setid <ID_NUMBER>`. "
  ++ [128278%N].

Definition nothing_tracked_text : str :=
  py "You are not tracking any courses or sections yet. Use /addcourse to add some. "
  ++ [10133%N].

Definition checking_text : str :=
  py "Checking status for your tracked items now... " ++ [128260%N].

Definition finished_text : str :=
  py "Finished checking all tracked items. " ++ [9989%N].

(** The loop over [courses_to_check]; the result is
    [cloudflare_blocked]. *)
Fixpoint check_courses (chat : Z) (sid : str) (update : Update)
    (courses_to_check : list str) : M bool :=
  match courses_to_check with
  | [] => mret false
  | course :: rest =>
      r ← catch (send_course_status (mkTrackingInfo chat sid course true [])
                 (Some update));
      match r with
      | Ret _ => check_courses chat sid update rest
      | Raise CloudflareBlockedError => mret true
      | Raise e => raise e
      end
  end.

(** The loop over [sections_to_check.items()]. *)
Fixpoint check_sections (chat : Z) (sid : str) (update : Update)
    (sections_to_check : list (str * list Z)) : M bool :=
  match sections_to_check with
  | [] => mret false
  | (course, numbers) :: rest =>
      if is_empty numbers then check_sections chat sid update rest
      else
        r ← catch (send_course_status
                     (mkTrackingInfo chat sid course false numbers)
                     (Some update));
        match r with
        | Ret _ => check_sections chat sid update rest
        | Raise CloudflareBlockedError => mret true
        | Raise e => raise e
        end
  end.

(** [CommandHandlers.check] *)
Definition check (chat : Z) : M unit :=
  let update := mkUpdate chat true in
  w ← get_world;
  match PyDict.get chat (w_subscriptions w) with
  | None => reply_text update subscribe_first_text
  | Some prefs =>
      let sid := id_no prefs in
      if is_empty sid then reply_text update set_id_first_text
      else if is_empty (courses prefs) && is_empty (sections prefs) then
        reply_text update nothing_tracked_text
      else
        reply_text update checking_text;;
        cloudflare_blocked ← check_courses chat sid update (courses prefs);
        cloudflare_blocked ←
          (if cloudflare_blocked : bool then mret true
           else check_sections chat sid update (sections prefs));
        if cloudflare_blocked : bool then mret tt
        else reply_text update finished_text
  end.
End Commands.

(** ** Notions the statements use *)

(** *** About the composer *)

(** [a] may stand before [b] in a list ascending by
    [(course, section)]: [b] is not below [a]. *)
Definition labels_le (a b : change) : Prop :=
  pair_lt (sort_key b) (sort_key a) = Some false.

(** A value that is a string. *)
Definition is_str (v : value) : Prop :=
  match v with VStr _ => True | _ => False end.

(** The [course] and [section] labels of a record are strings where
    they are present. *)
Definition str_labels (s : section) : Prop :=
  is_str (get_field_or s k_course (VStr []))
  ∧ is_str (get_field_or s k_section (VStr [])).

(** *** About the fetcher *)

(** The class number of a record is one of the integers of the filter. *)
Definition class_number_in (class_numbers : list Z) (s : section) : Prop :=
  Exists (fun n => int_of (get_field s k_classNbr) = Some n) class_numbers.

#[global] Instance class_number_in_dec cn s : Decision (class_number_in cn s).
Proof. unfold class_number_in. apply _. Defined.

(** The entry of the key, when the cache holds one that [is_valid]
    accepts at [now]. *)
Definition valid_entry (c : CacheService) (now : Z) (course student_id : str)
    : option CacheEntry :=
  match cache c !! get_cache_key course student_id with
  | Some e => if is_valid e (max_age_seconds c) now then Some e else None
  | None => None
  end.

(** The age of an entry at [now], in microseconds, is under the TTL. *)
Definition under_ttl (e : CacheEntry) (max_age_seconds now : Z) : Prop :=
  now - ce_timestamp e < max_age_seconds * 1000000.

#[global] Instance under_ttl_dec e ttl now : Decision (under_ttl e ttl now).
Proof. unfold under_ttl. apply _. Defined.

(** A TTL for which the float of an age decides as the age does: up to
    [2 ** 34] seconds, which is 544 years. *)
Definition exact_ttl (max_age_seconds : Z) : Prop :=
  0 ≤ max_age_seconds ≤ 2 ^ 34.

(** *** About the chunks *)

(** [current_chunk + line_with_separators]: a blank line goes between
    the text so far and the next block, unless there is no text yet. *)
Definition glue (current_chunk line : str) : str :=
  current_chunk ++ (if is_empty current_chunk then [] else blank_line) ++ line.

(** A run of blocks glued in order. *)
Definition join_blocks (blocks : list str) : str := fold_left glue blocks [].

(** The chunk a run of blocks makes. *)
Definition chunk_of (blocks : list str) : str := strip (join_blocks blocks).

(** The label of part [idx] of [n] under a title. *)
Definition part_label (title : str) (idx n : nat) : str :=
  py "*" ++ title ++ py "* (part " ++ str_of_nat idx ++ py "/" ++ str_of_nat n
  ++ py ")" ++ blank_line.

(** Each run of blocks but the last would exceed the limit with the
    first block of the next run glued to it. *)
Definition greedy (msg_limit : nat) (runs : list (list str)) : Prop :=
  ∀ i run next block,
    runs !! i = Some run → runs !! S i = Some next → head next = Some block →
    (msg_limit < length (join_blocks (run ++ [block])))%nat.

(** *** About the update step *)

(** The diff of a first fetch: every indexed section is new. *)
Definition all_added (current : snapshot) : changes :=
  {| added := PyDict.values (by_number current); removed := [];
     enrollment := [] |}.

(** *** About the subscriber store *)

(** What a subscriber has chosen: the chat, the student id, the tracked
    courses and the tracked sections; the previous snapshots left out. *)
Definition settings (p : Z * UserPreferences)
    : Z * str * list str * list (str * list Z) :=
  (p.1, id_no p.2, courses p.2, sections p.2).

(** A reply of the scraper that carries the status of a block. *)
Definition is_block (r : http_reply) : bool :=
  match r with
  | HttpResponse status _ => status =? 503
  | _ => false
  end.

(** *** About the requests of a run *)

(** None of the requests [new], made from the request count [base] on,
    is answered with a block. *)
Definition block_free (E : env) (base : nat) (new : list (str * str))
    : Prop :=
  ∀ i c id, new !! i = Some (c, id) →
            is_block (scraper_api E (base + i) c id) = false.

(** No request of [new] but the last is answered with a block. *)
Definition blocks_only_last (E : env) (base : nat) (new : list (str * str))
    : Prop :=
  ∀ i c id, new !! i = Some (c, id) → (S i < length new)%nat →
            is_block (scraper_api E (base + i) c id) = false.

(** The chat a block notice goes to. *)
Definition notice_chat (chat : Z) (update : option Update) : Z :=
  match update with
  | Some u => if has_message u then effective_chat u else chat
  | None => chat
  end.

(** A section whose label is a string and whose two counts are
    integers, where they are present. *)
Definition status_fields (s : section) : Prop :=
  is_str (section_label s)
  ∧ isinstance_int (get_field_or s k_enrolled (VInt 0)) = true
  ∧ isinstance_int (get_field_or s (py "enrlCap") (VInt 0)) = true.

(** What a loop of [/check] has done when it ends with the flag
    [cloudflare_blocked], from the world [w]: the store is as it was;
    when the flag is not set, or the loop raises, no request was
    answered with a block; when the flag is set, no request but the
    last was, and when the last was, the block notice is the last
    message attempted (the flag is also set when the rendering of a
    section raises the exception of a block). *)
Definition check_trace (E : env) (chat : Z) (w : world)
    (out : outcome bool * world) : Prop :=
  w_subscriptions out.2 = w_subscriptions w
  ∧ w_saves out.2 = w_saves w
  ∧ (∃ rest, w_sends out.2 = w_sends w ++ rest)
  ∧ ∃ new,
      w_requests out.2 = w_requests w ++ new
      ∧ match out.1 with
        | Ret false => block_free E (length (w_requests w)) new
        | Ret true =>
            blocks_only_last E (length (w_requests w)) new
            ∧ (¬ block_free E (length (w_requests w)) new →
               ∃ earlier ok,
                 w_sends out.2
                 = w_sends w ++ earlier ++ [(chat, block_text, ok)])
        | Raise e =>
            block_free E (length (w_requests w)) new
            ∧ e ≠ CloudflareBlockedError
        end.

(** *** About the rendering of records *)

(** [f] renders the record: it returns a text and does not raise. *)
Definition renders (f : section -> outcome str) (s : section) : Prop :=
  ∃ text, f s = Ret text.

(** What the update step of an item can raise: the failure of a send,
    the [TypeError] of a sort, or what [format_section] raises on a
    record. *)
Definition update_failure (E : env) (e : exn) : Prop :=
  e = TelegramError ∨ e = TypeError ∨ ∃ s, format_section E s = Raise e.

(** ** Sample data *)

(** A record with the five scalar fields the pipeline reads. *)
Definition mk_section (course label : string) (class_nbr enrolled cap : Z)
    : section :=
  <[k_course := VStr (py course)]>
    (<[k_section := VStr (py label)]>
       (<[k_classNbr := VInt class_nbr]>
          (<[k_enrolled := VInt enrolled]>
             (<[py "enrlCap" := VInt cap]> ∅)))).

(** Two sections listed with the later label first, before and after
    both gained students. *)
Definition labels_old : snapshot :=
  [mk_section "CSOPESY" "S12" 1111 20 30; mk_section "CSOPESY" "S11" 2222 10 30].
Definition labels_new : snapshot :=
  [mk_section "CSOPESY" "S12" 1111 25 30; mk_section "CSOPESY" "S11" 2222 12 30].

(** A snapshot of one record that has no class number. *)
Definition unnumbered : snapshot := [ {[ k_section := VStr (py "S11") ]} ].

(** A cache with one entry, written at time 0, that lives 60 seconds. *)
Definition sample_cache : CacheService :=
  cache_set (new_cache 60) 0 (py "CSOPESY") (py "12345678") labels_new.

(** A cache with the same entry that lives [10**11] seconds. *)
Definition long_lived_cache : CacheService :=
  cache_set (new_cache (10 ^ 11)) 0 (py "CSOPESY") (py "12345678") labels_new.

(** A block of [n] letters [a], and one of [n] letters [b]. *)
Definition block_a (n : nat) : str := replicate n 97%N.
Definition block_b (n : nat) : str := replicate n 98%N.

(** A bot that delivers every message, and one that delivers none. *)
Definition bot_up : nat -> Z -> str -> bool := fun _ _ _ => true.
Definition bot_down : nat -> Z -> str -> bool := fun _ _ _ => false.

(** A scraper that answers every request with [data], and one that
    answers every request with the status of a block. *)
Definition scraper_up (data : snapshot) : nat -> str -> str -> http_reply :=
  fun _ _ _ => HttpResponse 200 (Some data).
Definition scraper_blocked : nat -> str -> str -> http_reply :=
  fun _ _ _ => HttpResponse 503 None.

(** An environment whose clock counts its readings, with the limit of
    4096 characters Telegram sets on a message, and the rendering of
    [Formatter.format_section]. *)
Definition sample_env (enabled : bool) (api : nat -> str -> str -> http_reply)
    (bot : nat -> Z -> str -> bool) : env :=
  mkEnv enabled 4096 (fun n => Z.of_nat n) api bot Formatter.format_section.

(** A scraper that is up and a bot that delivers. *)
Definition env_up : env := sample_env true (scraper_up labels_new) bot_up.

(** A scraper that is up and a bot that fails every send. *)
Definition env_bot_down : env :=
  sample_env true (scraper_up labels_new) bot_down.

(** A scraper that answers its second request with the status of a
    block and every other request with [labels_new]. *)
Definition env_blocked_once : env :=
  sample_env true
    (fun n _ _ =>
       if (n =? 1)%nat then HttpResponse 503 None
       else HttpResponse 200 (Some labels_new))
    bot_up.

(** A scraper that is up, a bot that delivers, and a clock that shows
    [t] at every reading. *)
Definition env_at (t : Z) : env :=
  mkEnv true 4096 (fun _ => t) (scraper_up labels_new) bot_up
    Formatter.format_section.

(** A world at the start of a run. *)
Definition world_of (c : CacheService) (subs : list (Z * UserPreferences))
    : world :=
  mkWorld c 0 [] [] subs 0.

(** One subscriber who tracks all sections of CSOPESY and has no
    previous snapshot, and the item of that subscriber. *)
Definition new_subscriber : list (Z * UserPreferences) :=
  [(7, mkPrefs (py "12345678") [py "CSOPESY"] [] ∅)].
Definition csopesy_item : TrackingInfo :=
  mkTrackingInfo 7 (py "12345678") (py "CSOPESY") true [].

(** The same subscriber with [labels_old] as previous snapshot. *)
Definition old_subscriber : list (Z * UserPreferences) :=
  [(7, mkPrefs (py "12345678") [py "CSOPESY"] []
         {[ py "CSOPESY" := labels_old ]})].

(** A subscriber who tracks three courses, and one who tracks one. *)
Definition two_subscribers : list (Z * UserPreferences) :=
  [(7, mkPrefs (py "12345678") [py "CCPROG1"; py "CSOPESY"; py "STALGCM"] [] ∅);
   (8, mkPrefs (py "87654321") [py "CSARCH2"] [] ∅)].

(** The subscriber whose previous snapshot is what the scraper
    returns. *)
Definition settled_subscriber : list (Z * UserPreferences) :=
  [(7, mkPrefs (py "12345678") [py "CSOPESY"] []
         {[ py "CSOPESY" := labels_new ]})].

(** A subscriber who tracks three courses. *)
Definition three_courses : list (Z * UserPreferences) :=
  [(7, mkPrefs (py "12345678") [py "CCPROG1"; py "CSOPESY"; py "STALGCM"] [] ∅)].

(** A snapshot of one record whose [meetings] field is [null]. *)
Definition unrenderable : snapshot :=
  [<[py "meetings" := VNone]> (mk_section "CSOPESY" "S11" 2222 12 30)].

(** A scraper that returns [unrenderable] and a bot that delivers. *)
Definition env_unrenderable : env :=
  sample_env true (scraper_up unrenderable) bot_up.

(** ** Proof support *)

(** Unfolds the operations of the monad. *)
Ltac unfold_M :=
  unfold catch, get_world, datetime_now, http_get, send_message, set_cache,
    set_subscriptions, storage_save, mbind, M_bind, bind, mret, M_ret, ret,
    raise in *.

(** * Properties *)

(** ** Dictionaries in insertion order *)

Module PyDictFacts.
Section Facts.
Context {K V : Type} `{EqDecision K}.
Implicit Types (d : list (K * V)) (k : K) (v : V).

Lemma get_set_eq d k v : PyDict.get k (PyDict.set k v d) = Some v.
Proof.
  induction d as [|[k' v'] d IH]; simpl.
  - by rewrite decide_True.
  - destruct (decide (k' = k)) as [->|Hne]; simpl.
    + by rewrite decide_True.
    + by rewrite decide_False.
Qed.

Lemma get_set_ne d k k' v :
  k ≠ k' → PyDict.get k' (PyDict.set k v d) = PyDict.get k' d.
Proof.
  intros Hne. induction d as [|[k0 v0] d IH]; simpl.
  - by rewrite decide_False.
  - destruct (decide (k0 = k)) as [->|Hk0]; simpl.
    + by rewrite !decide_False.
    + destruct (decide (k0 = k')); [done | apply IH].
Qed.

Lemma get_None d k : PyDict.get k d = None ↔ k ∉ PyDict.keys d.
Proof.
  induction d as [|[k' v'] d IH]; simpl.
  - split; [intros _; apply not_elem_of_nil | done].
  - destruct (decide (k' = k)) as [->|Hne].
    + split; [done | intros []; left].
    + rewrite IH, not_elem_of_cons. split; [|by intros [_ ?]].
      intros Hk. split; [congruence | done].
Qed.

Lemma mem_keys d k : PyDict.mem k d = true ↔ k ∈ PyDict.keys d.
Proof.
  unfold PyDict.mem. destruct (PyDict.get k d) eqn:Hg.
  - split; [intros _ | done].
    destruct (decide (k ∈ PyDict.keys d)) as [|Hn]; [done|].
    apply get_None in Hn. congruence.
  - apply get_None in Hg. split; [done | intros; contradiction].
Qed.

Lemma get_Some_elem d k v : PyDict.get k d = Some v → (k, v) ∈ d.
Proof.
  induction d as [|[k' v'] d IH]; simpl; [done|].
  destruct (decide (k' = k)) as [->|Hne].
  - intros [= ->]. left.
  - intros Hg. right. by apply IH.
Qed.

Lemma elem_get_Some d k v :
  NoDup (PyDict.keys d) → (k, v) ∈ d → PyDict.get k d = Some v.
Proof.
  induction d as [|[k' v'] d IH]; simpl.
  - intros _ Hin. by apply elem_of_nil in Hin.
  - intros Hnd Hin. apply NoDup_cons in Hnd as [Hk' Hnd].
    apply elem_of_cons in Hin as [[= -> ->]|Hin].
    + by rewrite decide_True.
    + destruct (decide (k' = k)) as [->|Hne]; [|by apply IH].
      exfalso. apply Hk'. apply list_elem_of_fmap. by exists (k, v).
Qed.

Lemma keys_set d k v :
  PyDict.keys (PyDict.set k v d)
  = if PyDict.mem k d then PyDict.keys d else PyDict.keys d ++ [k].
Proof.
  induction d as [|[k' v'] d IH]; simpl; [done|].
  unfold PyDict.mem in *. simpl.
  destruct (decide (k' = k)) as [->|Hne]; simpl; [done|].
  rewrite IH. by destruct (PyDict.get k d).
Qed.

Lemma keys_set_NoDup d k v :
  NoDup (PyDict.keys d) → NoDup (PyDict.keys (PyDict.set k v d)).
Proof.
  intros Hnd. rewrite keys_set.
  destruct (PyDict.mem k d) eqn:Hm; [done|].
  apply NoDup_app. split_and!; [done| |apply NoDup_singleton].
  intros x Hx Hx'. apply list_elem_of_singleton in Hx' as ->.
  apply mem_keys in Hx. congruence.
Qed.

(** Setting a new key appends the binding. *)
Lemma set_fresh d k v :
  k ∉ PyDict.keys d → PyDict.set k v d = d ++ [(k, v)].
Proof.
  induction d as [|[k' v'] d IH]; simpl; [done|].
  intros Hn. apply not_elem_of_cons in Hn as [Hne Hn].
  rewrite decide_False by done. by rewrite IH.
Qed.
End Facts.
End PyDictFacts.

(** ** The class-number index *)

Lemma by_number_snoc snap s :
  by_number (snap ++ [s]) = index_step (by_number snap) s.
Proof. unfold by_number. by rewrite fold_left_app. Qed.

Lemma by_number_NoDup snap : NoDup (PyDict.keys (by_number snap)).
Proof.
  induction snap as [|s snap IH] using rev_ind; [apply NoDup_nil_2|].
  rewrite by_number_snoc. unfold index_step.
  destruct (s !! k_classNbr); [|done].
  by apply PyDictFacts.keys_set_NoDup.
Qed.

Lemma by_number_get snap k : PyDict.get k (by_number snap) = latest snap k.
Proof.
  induction snap as [|s snap IH] using rev_ind; [done|].
  rewrite by_number_snoc. unfold latest, index_step, class_key in *.
  rewrite filter_app, filter_cons, filter_nil.
  destruct (s !! k_classNbr) as [n|] eqn:Hn; simpl.
  - case_decide as Hd.
    + injection Hd as <-. by rewrite PyDictFacts.get_set_eq, last_snoc.
    + rewrite PyDictFacts.get_set_ne by congruence. by rewrite app_nil_r.
  - by rewrite app_nil_r.
Qed.

Lemma by_number_elem snap k s :
  (k, s) ∈ by_number snap ↔ latest snap k = Some s.
Proof.
  rewrite <- by_number_get. split.
  - apply PyDictFacts.elem_get_Some, by_number_NoDup.
  - apply PyDictFacts.get_Some_elem.
Qed.

Lemma latest_Some snap k s :
  latest snap k = Some s → s ∈ snap ∧ class_key s = Some k.
Proof.
  unfold latest. intros Hl. apply last_Some_elem_of in Hl.
  by apply list_elem_of_filter in Hl as [? ?].
Qed.

(** Records without a class number never enter the index. *)
Lemma by_number_filter snap :
  by_number snap = by_number (filter has_class_number snap).
Proof.
  induction snap as [|s snap IH] using rev_ind; [done|].
  rewrite filter_app, filter_cons, filter_nil, by_number_snoc.
  unfold index_step.
  destruct (decide (has_class_number s)) as [[n Hn]|Hno].
  - rewrite by_number_snoc. unfold index_step. by rewrite Hn, IH.
  - rewrite app_nil_r. destruct (s !! k_classNbr) eqn:Hn; [|done].
    exfalso. apply Hno. by eexists.
Qed.

(** With a class number on every record and no class number twice, the
    index lists the snapshot as it is. *)
Lemma by_number_distinct snap :
  Forall has_class_number snap →
  NoDup (omap class_key snap) →
  PyDict.values (by_number snap) = snap
  ∧ PyDict.keys (by_number snap) = omap class_key snap.
Proof.
  induction snap as [|s snap IH] using rev_ind; [done|].
  intros Hall Hnd. apply Forall_app in Hall as [Hall Hs].
  apply Forall_singleton in Hs as [n Hn].
  rewrite omap_app in Hnd. apply NoDup_app in Hnd as (Hnd & Hfresh & _).
  destruct (IH Hall Hnd) as [IHv IHk].
  rewrite by_number_snoc, omap_app. unfold index_step. rewrite Hn.
  assert (class_key s = Some (dict_key n)) as Hck
    by (unfold class_key; by rewrite Hn).
  simpl. rewrite Hck. simpl.
  rewrite PyDictFacts.set_fresh.
  - unfold PyDict.values, PyDict.keys in *.
    rewrite !map_app. simpl. by rewrite IHv, IHk.
  - rewrite IHk. intros Hin. apply (Hfresh _ Hin). simpl. rewrite Hck. left.
Qed.

Lemma not_in_nil_r a : not_in a [] = PyDict.values a.
Proof.
  unfold not_in, PyDict.values. f_equal.
  induction a as [|p a IH]; [done | simpl; f_equal; exact IH].
Qed.

Lemma filter_none {A} (f : A → bool) (l : list A) :
  (∀ x, x ∈ l → f x = false) → List.filter f l = [].
Proof.
  induction l as [|x l IH]; [done|]. intros Hf. simpl.
  rewrite (Hf x) by left. apply IH. intros y Hy. apply Hf. by right.
Qed.

Lemma not_in_self a : not_in a a = [].
Proof.
  unfold not_in. rewrite filter_none; [done|].
  intros [k s] Hin. simpl.
  apply negb_false_iff, PyDictFacts.mem_keys.
  apply list_elem_of_fmap. by exists (k, s).
Qed.

Lemma py_eq_refl v : py_eq v v = true.
Proof.
  unfold py_eq. destruct (int_of v); by rewrite bool_decide_eq_true.
Qed.

Lemma omap_none {A B} (f : A → option B) (l : list A) :
  (∀ x, x ∈ l → f x = None) → omap f l = [].
Proof.
  induction l as [|x l IH]; [done|]. intros Hf. simpl.
  rewrite (Hf x) by left. apply IH. intros y Hy. apply Hf. by right.
Qed.

Lemma enrollment_change_self d p : p ∈ d → NoDup (PyDict.keys d) →
  enrollment_change d p = None.
Proof.
  destruct p as [k s]. intros Hin Hnd. unfold enrollment_change.
  rewrite (PyDictFacts.elem_get_Some d k s Hnd Hin).
  by rewrite py_eq_refl, andb_false_r.
Qed.

Lemma by_number_has_class_number snap k s :
  (k, s) ∈ by_number snap → has_class_number s.
Proof.
  intros Hin. apply by_number_elem, latest_Some in Hin as [_ Hk].
  unfold class_key, has_class_number in *.
  destruct (s !! k_classNbr); [by eexists | done].
Qed.

Lemma not_in_has_class_number a b :
  Forall has_class_number (not_in (by_number a) b).
Proof.
  apply Forall_forall. intros s Hs. unfold not_in in Hs.
  apply list_elem_of_fmap in Hs as ([k s'] & -> & Hin).
  apply list_elem_of_In, List.filter_In in Hin as [Hin _].
  apply list_elem_of_In in Hin. by eapply by_number_has_class_number.
Qed.

(** ** The diff engine *)

(** C7: for every snapshot X, the diff of X against itself has an empty
    [added] list, an empty [removed] list and an empty list of enrollment
    changes. *)
Theorem diff_courses_reflexive (X : snapshot) :
  diff_courses X X = no_changes.
Proof.
  unfold diff_courses, no_changes. rewrite not_in_self. f_equal.
  apply omap_none. intros p Hp.
  apply enrollment_change_self; [done | apply by_number_NoDup].
Qed.

(** C10: a record without the class-number field, in either snapshot,
    contributes to no field of the diff: the diff is the diff of the two
    snapshots with those records left out, and every section it reports
    (added, removed, or with an enrollment change) carries a class
    number. *)
Theorem diff_courses_ignores_unnumbered (old new : snapshot) :
  diff_courses old new
  = diff_courses (filter has_class_number old) (filter has_class_number new)
  ∧ Forall has_class_number (added (diff_courses old new))
  ∧ Forall has_class_number (removed (diff_courses old new))
  ∧ Forall (fun c => has_class_number (ch_section c))
           (enrollment (diff_courses old new)).
Proof.
  split_and!.
  - unfold diff_courses.
    by rewrite <- (by_number_filter old), <- (by_number_filter new).
  - apply not_in_has_class_number.
  - apply not_in_has_class_number.
  - apply Forall_forall. intros c Hc. simpl in Hc.
    apply list_elem_of_omap in Hc as ([k s] & Hin & Hc).
    unfold enrollment_change in Hc.
    destruct (PyDict.get k (by_number old)); [|done].
    destruct (_ && _); [|done]. injection Hc as <-. simpl.
    by eapply by_number_has_class_number.
Qed.

(** C8, as the claim states it, fails: a snapshot of one record without
    a class number, diffed against the empty snapshot in either
    direction, gives neither [added] nor [removed] equal to it. *)
Lemma diff_from_empty_drops_unnumbered :
  added (diff_courses [] unnumbered) ≠ unnumbered
  ∧ removed (diff_courses unnumbered []) ≠ unnumbered.
Proof. split; vm_compute; discriminate. Qed.

(** C8, as the code has it: for every snapshot S whose records all carry
    a class number, no class number occurring twice, the diff of the
    empty snapshot against S has [added] equal to S and nothing else, and
    the diff of S against the empty snapshot has [removed] equal to S and
    nothing else. *)
Theorem diff_courses_empty (S : snapshot)
    (Hall : Forall has_class_number S)
    (Hdistinct : NoDup (omap class_key S)) :
  diff_courses [] S = {| added := S; removed := []; enrollment := [] |}
  ∧ diff_courses S [] = {| added := []; removed := S; enrollment := [] |}.
Proof.
  destruct (by_number_distinct S Hall Hdistinct) as [Hvalues _].
  unfold diff_courses. change (by_number []) with (@nil (value * section)).
  rewrite not_in_nil_r, Hvalues. split.
  - f_equal. by apply omap_none; intros [k s] _.
  - done.
Qed.

(** The statement of [diff_courses_empty] on the sample data. *)
Lemma diff_courses_empty_witness :
  diff_courses [] labels_new
  = {| added := labels_new; removed := []; enrollment := [] |}
  ∧ diff_courses labels_new []
    = {| added := []; removed := labels_new; enrollment := [] |}.
Proof.
  apply diff_courses_empty.
  - repeat constructor; by eexists.
  - vm_compute. repeat constructor; set_solver.
Defined.

(** *** The order of the index *)

Lemma index_keys snap : ∀ d,
  NoDup (PyDict.keys d) →
  PyDict.keys (fold_left index_step snap d)
  = PyDict.keys d
    ++ filter (fun k => k ∉ PyDict.keys d) (first_occurrences (omap class_key snap)).
Proof.
  induction snap as [|s snap IH]; intros d Hnd; simpl.
  { by rewrite filter_nil, app_nil_r. }
  destruct (s !! k_classNbr) as [n|] eqn:Hn.
  2:{ replace (index_step d s) with d by (unfold index_step; by rewrite Hn).
      replace (class_key s) with (@None value)
        by (unfold class_key; by rewrite Hn).
      by apply IH. }
  replace (index_step d s) with (PyDict.set (dict_key n) s d)
    by (unfold index_step; by rewrite Hn).
  replace (class_key s) with (Some (dict_key n))
    by (unfold class_key; by rewrite Hn).
  simpl. rewrite IH by (by apply PyDictFacts.keys_set_NoDup).
  rewrite PyDictFacts.keys_set.
  destruct (PyDict.mem (dict_key n) d) eqn:Hmem.
  - apply PyDictFacts.mem_keys in Hmem.
    rewrite filter_cons_False by (intros Hx; by apply Hx).
    rewrite list_filter_filter_l; [done|]. intros x Hx ->. by apply Hx.
  - assert (dict_key n ∉ PyDict.keys d) as Hfresh.
    { intros Hin. apply PyDictFacts.mem_keys in Hin. congruence. }
    rewrite filter_cons_True by done.
    rewrite <- app_assoc. simpl. do 2 f_equal.
    rewrite list_filter_filter. apply list_filter_iff.
    intros x. rewrite not_elem_of_app, list_elem_of_singleton. naive_solver.
Qed.

Lemma filter_all {A} (P : A → Prop) `{!∀ x, Decision (P x)} (l : list A) :
  (∀ x, P x) → filter P l = l.
Proof.
  intros HP. induction l as [|x l IH]; [done|].
  by rewrite filter_cons_True, IH.
Qed.

(** The index lists the class numbers in the order of their first
    occurrence in the snapshot. *)
Lemma by_number_keys snap :
  PyDict.keys (by_number snap) = first_occurrences (omap class_key snap).
Proof.
  change (by_number snap) with (fold_left index_step snap []).
  rewrite index_keys by apply NoDup_nil_2. simpl.
  apply filter_all. intros x. apply not_elem_of_nil.
Qed.

Lemma omap_sublist {A B C} (f : A → option B) (g : B → C) (h : A → C) l :
  (∀ x y, x ∈ l → f x = Some y → g y = h x) →
  map g (omap f l) `sublist_of` map h l.
Proof.
  induction l as [|x l IH]; intros Hgh; simpl; [constructor|].
  destruct (f x) as [y|] eqn:Hfx; simpl.
  - rewrite (Hgh x y) by (done || left). apply sublist_skip, IH.
    intros x' y' Hin. apply Hgh. by right.
  - apply sublist_cons, IH. intros x' y' Hin. apply Hgh. by right.
Qed.

Lemma enrollment_change_Some d k s c :
  enrollment_change d (k, s) = Some c ↔
  ∃ old_section,
    PyDict.get k d = Some old_section
    ∧ ch_section c = s
    ∧ old_enrolled c = get_field old_section k_enrolled
    ∧ new_enrolled c = get_field s k_enrolled
    ∧ isinstance_int (old_enrolled c) = true
    ∧ isinstance_int (new_enrolled c) = true
    ∧ py_eq (old_enrolled c) (new_enrolled c) = false.
Proof.
  unfold enrollment_change. split.
  - destruct (PyDict.get k d) as [so|]; [|done].
    destruct (_ && _) eqn:Hcond; [|done]. intros [= <-]. simpl.
    apply andb_true_iff in Hcond as [Hcond Hne].
    apply andb_true_iff in Hcond as [Ho Hn].
    apply negb_true_iff in Hne. by exists so.
  - intros (so & -> & Hs & Ho & Hn & Hio & Hin & Hne).
    rewrite <- Ho, <- Hn, Hio, Hin, Hne. simpl.
    destruct c; simpl in *. by subst.
Qed.

(** *** The sort of the composer *)

Lemma py_eq_sym a b : py_eq a b = py_eq b a.
Proof.
  unfold py_eq. destruct (int_of a), (int_of b); try done;
    apply bool_decide_ext; naive_solver.
Qed.

Lemma str_lt_asym a : ∀ b, str_lt a b = true → str_lt b a = false.
Proof.
  induction a as [|x a IH]; intros [|y b]; simpl; try done.
  intros H. apply orb_true_iff in H as [H|H].
  - apply N.ltb_lt in H.
    rewrite (proj2 (N.ltb_ge y x)) by lia.
    rewrite (proj2 (N.eqb_neq y x)) by lia. done.
  - apply andb_true_iff in H as [Hxy H]. apply N.eqb_eq in Hxy as ->.
    rewrite N.ltb_irrefl, N.eqb_refl. simpl. by apply IH.
Qed.

Lemma py_lt_asym a b : py_lt a b = Some true → py_lt b a = Some false.
Proof.
  unfold py_lt. destruct a, b; simpl; try done; intros [= H]; f_equal;
    try (apply Z.ltb_ge; apply Z.ltb_lt in H; lia).
  by apply str_lt_asym.
Qed.

Lemma pair_lt_asym a b : pair_lt a b = Some true → pair_lt b a = Some false.
Proof.
  unfold pair_lt. rewrite (py_eq_sym b.1 a.1), (py_eq_sym b.2 a.2).
  destruct (py_eq a.1 b.1); simpl; [|apply py_lt_asym].
  destruct (py_eq a.2 b.2); simpl; [done | apply py_lt_asym].
Qed.

Lemma pair_lt_str a b :
  is_str a.1 → is_str a.2 → is_str b.1 → is_str b.2 →
  is_Some (pair_lt a b).
Proof.
  destruct a as [[] []], b as [[] []]; simpl; try done. intros _ _ _ _.
  unfold pair_lt. simpl. destruct (negb _); [by eexists|].
  destruct (negb _); by eexists.
Qed.

Lemma insert_change_perm c l l' :
  insert_change c l = Some l' → c :: l ≡ₚ l'.
Proof.
  revert l'. induction l as [|d l IH]; intros l'; simpl.
  - by intros [= <-].
  - destruct (pair_lt (sort_key d) (sort_key c)) as [[]|]; [| |done].
    + destruct (insert_change c l) as [r|]; [|done]. intros [= <-].
      rewrite Permutation_swap. by rewrite (IH r).
    + by intros [= <-].
Qed.

Lemma insert_change_sorted c l l' :
  insert_change c l = Some l' → Sorted labels_le l → Sorted labels_le l'.
Proof.
  revert l'. induction l as [|d l IH]; intros l'; simpl.
  - intros [= <-] _. by repeat constructor.
  - destruct (pair_lt (sort_key d) (sort_key c)) as [[]|] eqn:Hdc; [| |done].
    + destruct (insert_change c l) as [r|] eqn:Hr; [|done].
      intros [= <-] Hs. apply Sorted_inv in Hs as [Hs Hhd].
      constructor; [by apply IH|].
      destruct l as [|e l]; simpl in Hr.
      * injection Hr as <-. constructor. by apply pair_lt_asym.
      * apply HdRel_inv in Hhd.
        destruct (pair_lt (sort_key e) (sort_key c)) as [[]|]; [| |done].
        -- destruct (insert_change c l); [|done]. injection Hr as <-.
           by constructor.
        -- injection Hr as <-. constructor. by apply pair_lt_asym.
    + intros [= <-] Hs. constructor; [done|]. by constructor.
Qed.

Lemma insert_change_total c l :
  str_labels (ch_section c) →
  Forall (fun d => str_labels (ch_section d)) l →
  is_Some (insert_change c l).
Proof.
  intros [Hc1 Hc2]. induction 1 as [|d l [Hd1 Hd2] _ IH]; simpl; [by eexists|].
  destruct (pair_lt_str (sort_key d) (sort_key c)) as [[] ->]; try done.
  destruct IH as [r ->]. by eexists.
Qed.

Lemma sorted_changes_perm l l' : sorted_changes l = Some l' → l ≡ₚ l'.
Proof.
  revert l'. induction l as [|c l IH]; intros l'; simpl.
  - by intros [= <-].
  - destruct (sorted_changes l) as [s|]; [|done]. intros Hins.
    apply insert_change_perm in Hins. by rewrite (IH s).
Qed.

Lemma sorted_changes_sorted l l' :
  sorted_changes l = Some l' → Sorted labels_le l'.
Proof.
  revert l'. induction l as [|c l IH]; intros l'; simpl.
  - intros [= <-]. constructor.
  - destruct (sorted_changes l) as [s|]; [|done]. intros Hins.
    eapply insert_change_sorted; [done | by apply IH].
Qed.

Lemma sorted_changes_total l :
  Forall (fun d => str_labels (ch_section d)) l → is_Some (sorted_changes l).
Proof.
  induction 1 as [|c l Hc Hl IH]; simpl; [by eexists|].
  destruct IH as [s Hs]. rewrite Hs. apply insert_change_total; [done|].
  apply sorted_changes_perm in Hs. by rewrite <- Hs.
Qed.

(** C3, as the claim states it, fails: the two sections of [labels_new]
    both changed their enrollment, and the diff lists the change of S12
    before the change of S11. *)
Lemma enrollment_not_sorted :
  ¬ Sorted labels_le (enrollment (diff_courses labels_old labels_new)).
Proof.
  assert (enrollment (diff_courses labels_old labels_new)
          = [Change (mk_section "CSOPESY" "S12" 1111 25 30) (VInt 20) (VInt 25);
             Change (mk_section "CSOPESY" "S11" 2222 12 30) (VInt 10) (VInt 12)])
    as -> by (vm_compute; reflexivity).
  intros Hs. apply Sorted_inv in Hs as [_ Hhd]. apply HdRel_inv in Hhd.
  vm_compute in Hhd. discriminate.
Qed.

(** C3, as the code has it: the [enrollment] list of the diff holds
    exactly one entry for each class number whose latest record in the
    old snapshot and latest record in the new one both have an integer
    [enrolled] and the two differ (no entry when either is missing or
    not an integer); the entries stand in the order in which their class
    numbers first occur in the new snapshot.  The order by
    [(course, section)] is made by [compose_update_lines], whose sort
    returns a permutation of the list, ascending, and succeeds whenever
    the labels are strings. *)
Theorem diff_courses_enrollment (old new : snapshot) :
  let enr := enrollment (diff_courses old new) in
  (∀ c, c ∈ enr ↔
        ∃ k old_section,
          latest old k = Some old_section
          ∧ latest new k = Some (ch_section c)
          ∧ old_enrolled c = get_field old_section k_enrolled
          ∧ new_enrolled c = get_field (ch_section c) k_enrolled
          ∧ isinstance_int (old_enrolled c) = true
          ∧ isinstance_int (new_enrolled c) = true
          ∧ py_eq (old_enrolled c) (new_enrolled c) = false)
  ∧ NoDup (map (fun c => class_key (ch_section c)) enr)
  ∧ map (fun c => class_key (ch_section c)) enr
      `sublist_of` map Some (first_occurrences (omap class_key new))
  ∧ (∀ sorted, sorted_changes enr = Some sorted →
               enr ≡ₚ sorted ∧ Sorted labels_le sorted)
  ∧ (Forall str_labels new → is_Some (sorted_changes enr)).
Proof.
  intros enr.
  assert (map (fun c => class_key (ch_section c)) enr
            `sublist_of` map Some (first_occurrences (omap class_key new)))
    as Hsub.
  { rewrite <- by_number_keys. unfold PyDict.keys.
    rewrite <- (list_fmap_compose fst Some).
    apply omap_sublist. intros [k s] c Hin Hc. simpl.
    apply enrollment_change_Some in Hc as (_ & _ & -> & _).
    by apply by_number_elem, latest_Some in Hin as [_ ->]. }
  split_and!.
  - intros c. unfold enr. simpl. rewrite list_elem_of_omap. split.
    + intros ([k s] & Hin & Hc).
      apply enrollment_change_Some in Hc as (so & Hget & Hs & Hrest).
      exists k, so. rewrite <- by_number_get, Hs.
      by apply by_number_elem in Hin.
    + intros (k & so & Hold & Hnew & Hrest).
      exists (k, ch_section c). split; [by apply by_number_elem|].
      apply enrollment_change_Some. exists so.
      by rewrite by_number_get.
  - eapply sublist_NoDup; [|exact Hsub].
    apply (NoDup_fmap_2 Some). rewrite <- by_number_keys.
    apply by_number_NoDup.
  - exact Hsub.
  - intros sorted Hsorted. split.
    + by apply sorted_changes_perm.
    + by eapply sorted_changes_sorted.
  - intros Hnew. apply sorted_changes_total, Forall_forall.
    intros c Hc. unfold enr in Hc. simpl in Hc.
    apply list_elem_of_omap in Hc as ([k s] & Hin & Hc).
    apply enrollment_change_Some in Hc as (_ & _ & -> & _).
    apply by_number_elem, latest_Some in Hin as [Hin _].
    by apply (proj1 (Forall_forall _ _) Hnew).
Qed.

(** The statement of [diff_courses_enrollment] on the sample data: the
    sort of the composer puts S11 first. *)
Lemma diff_courses_enrollment_witness :
  enrollment (diff_courses labels_old labels_new)
  ≡ₚ [Change (mk_section "CSOPESY" "S11" 2222 12 30) (VInt 10) (VInt 12);
      Change (mk_section "CSOPESY" "S12" 1111 25 30) (VInt 20) (VInt 25)]
  ∧ Sorted labels_le
      [Change (mk_section "CSOPESY" "S11" 2222 12 30) (VInt 10) (VInt 12);
       Change (mk_section "CSOPESY" "S12" 1111 25 30) (VInt 20) (VInt 25)].
Proof.
  apply (proj1 (proj2 (proj2 (proj2
           (diff_courses_enrollment labels_old labels_new))))).
  vm_compute. reflexivity.
Defined.

(** ** The float of an age *)

Lemma pow2_pos e : 0 < pow2 e.
Proof. unfold pow2. apply Z.pow_pos_nonneg; lia. Qed.

Lemma pow2_nonneg e : 0 ≤ e → pow2 e = 2 ^ e.
Proof. intros. unfold pow2. by rewrite Z.max_r. Qed.

Lemma pow2_nonpos e : e ≤ 0 → pow2 e = 1.
Proof. intros. unfold pow2. by rewrite Z.max_l. Qed.

Lemma pow2_succ e : 0 ≤ e → pow2 (e + 1) = 2 * pow2 e.
Proof.
  intros. rewrite !pow2_nonneg by lia. rewrite Z.pow_add_r by lia. lia.
Qed.

Lemma pow2_add a b : 0 ≤ a → 0 ≤ b → pow2 (a + b) = pow2 a * pow2 b.
Proof.
  intros. rewrite !pow2_nonneg by lia. by rewrite Z.pow_add_r.
Qed.

(** [2 ** (a + b) = 2 ** a * 2 ** b], on the fractions. *)
Lemma pow2_shift a b :
  pow2 (a + b) * pow2 (- a) * pow2 (- b)
  = pow2 a * pow2 b * pow2 (- (a + b)).
Proof.
  destruct (Z.le_gt_cases 0 a) as [Ha|Ha], (Z.le_gt_cases 0 b) as [Hb|Hb].
  - rewrite (pow2_nonpos (- a)), (pow2_nonpos (- b)),
      (pow2_nonpos (- (a + b))), pow2_add by lia. lia.
  - rewrite (pow2_nonpos (- a)), (pow2_nonpos b) by lia.
    destruct (Z.le_gt_cases 0 (a + b)) as [Hab|Hab].
    + rewrite (pow2_nonpos (- (a + b))) by lia.
      replace a with ((a + b) + - b) at 2 by lia.
      rewrite (pow2_add (a + b) (- b)) by lia. lia.
    + rewrite (pow2_nonpos (a + b)) by lia.
      replace (- b) with (a + - (a + b)) by lia.
      rewrite (pow2_add a (- (a + b))) by lia. lia.
  - rewrite (pow2_nonpos (- b)), (pow2_nonpos a) by lia.
    destruct (Z.le_gt_cases 0 (a + b)) as [Hab|Hab].
    + rewrite (pow2_nonpos (- (a + b))) by lia.
      replace b with ((a + b) + - a) at 2 by lia.
      rewrite (pow2_add (a + b) (- a)) by lia. lia.
    + rewrite (pow2_nonpos (a + b)) by lia.
      replace (- a) with (b + - (a + b)) by lia.
      rewrite (pow2_add b (- (a + b))) by lia. lia.
  - rewrite (pow2_nonpos a), (pow2_nonpos b), (pow2_nonpos (a + b)) by lia.
    replace (- (a + b)) with (- a + - b) by lia.
    rewrite (pow2_add (- a) (- b)) by lia. lia.
Qed.

(** [2 ** binade p q <= p / q]. *)
Lemma binade_le p q :
  0 < p → 0 < q → q * pow2 (binade p q) ≤ p * pow2 (- binade p q).
Proof.
  intros Hp Hq. unfold binade.
  set (k := Z.log2 p - Z.log2 q).
  destruct (Z.leb_spec (q * pow2 k) (p * pow2 (- k))) as [Hle|Hgt]; [done|].
  pose proof (Z.log2_spec p Hp) as [Hp1 Hp2].
  pose proof (Z.log2_spec q Hq) as [Hq1 Hq2].
  pose proof (Z.log2_nonneg p). pose proof (Z.log2_nonneg q).
  assert (pow2 (Z.log2 p) ≤ p) as Hp3 by (by rewrite pow2_nonneg).
  assert (q < 2 * pow2 (Z.log2 q)) as Hq3.
  { rewrite <- pow2_succ, pow2_nonneg by lia. by rewrite Z.add_1_r. }
  clear Hp1 Hp2 Hq1 Hq2.
  (* q < 2 * 2^lq, 2^lp <= p, and 2^lp = 2^(k-1) * 2 * 2^lq *)
  pose proof (pow2_shift (k - 1) (Z.log2 q + 1)) as Hs.
  replace (k - 1 + (Z.log2 q + 1)) with (Z.log2 p) in Hs by (unfold k; lia).
  rewrite (pow2_nonpos (- (Z.log2 q + 1))), (pow2_nonpos (- Z.log2 p)) in Hs
    by lia.
  rewrite pow2_succ in Hs by lia.
  pose proof (pow2_pos (k - 1)). pose proof (pow2_pos (- (k - 1))).
  pose proof (pow2_pos (Z.log2 q)). pose proof (pow2_pos (Z.log2 p)).
  nia.
Qed.

(** The mantissa of a quotient has at least 53 bits. *)
Lemma true_divide_pos_mantissa p q :
  0 < p → 0 < q → 2 ^ 52 ≤ mantissa (true_divide_pos p q).
Proof.
  intros Hp Hq. unfold true_divide_pos. cbn [mantissa].
  set (s := binade p q - 52).
  pose proof (binade_le p q Hp Hq) as Hb.
  pose proof (pow2_shift s 52) as Hs.
  replace (s + 52) with (binade p q) in Hs by (unfold s; lia).
  rewrite (pow2_nonpos (- (52))), (pow2_nonneg 52) in Hs by lia.
  pose proof (pow2_pos s). pose proof (pow2_pos (- s)).
  pose proof (pow2_pos (binade p q)). pose proof (pow2_pos (- binade p q)).
  assert (2 ^ 52 * (q * pow2 s) ≤ p * pow2 (- s)) as Hn.
  { apply (Z.mul_le_mono_pos_r _ _ (pow2 (- binade p q))); [done|].
    replace (2 ^ 52 * (q * pow2 s) * pow2 (- binade p q))
      with (q * (pow2 s * 2 ^ 52 * pow2 (- binade p q))) by ring.
    rewrite <- Hs.
    replace (q * (pow2 (binade p q) * pow2 (- s) * 1))
      with (q * pow2 (binade p q) * pow2 (- s)) by ring.
    replace (p * pow2 (- s) * pow2 (- binade p q))
      with (p * pow2 (- binade p q) * pow2 (- s)) by ring.
    by apply Z.mul_le_mono_nonneg_r; [lia|]. }
  assert (2 ^ 52 ≤ p * pow2 (- s) / (q * pow2 s)) as Hm.
  { apply Z.div_le_lower_bound; [nia|]. lia. }
  unfold round_half_even.
  destruct (_ <? _); [done|]. destruct (_ <? _); [lia|].
  destruct (Z.even _); lia.
Qed.

Lemma round_half_even_ge n d : n / d ≤ round_half_even n d.
Proof.
  unfold round_half_even. destruct (_ <? _); [done|].
  destruct (_ <? _); [lia|]. destruct (Z.even _); lia.
Qed.

Lemma round_half_even_le n d :
  0 < d → round_half_even n d ≤ n / d + 1
  ∧ (2 * (n mod d) < d → round_half_even n d = n / d).
Proof.
  intros Hd. unfold round_half_even.
  destruct (Z.ltb_spec (2 * (n mod d)) d); [lia|].
  destruct (_ <? _); [lia|]. destruct (Z.even _); lia.
Qed.

(** For a TTL of at most [2 ** 34] seconds the float of the age decides
    as the age in microseconds does. *)
Lemma total_seconds_lt us ttl :
  exact_ttl ttl →
  float_lt_int (total_seconds us) ttl = bool_decide (us < ttl * 1000000).
Proof.
  unfold exact_ttl. intros Httl. unfold total_seconds, true_divide.
  destruct (Z.eqb_spec us 0) as [->|Hne].
  { unfold float_lt_int. cbn [mantissa exponent].
    rewrite !pow2_nonpos by lia.
    destruct (Z.ltb_spec (0 * 1) (ttl * 1)).
    - by rewrite bool_decide_eq_true_2 by lia.
    - by rewrite bool_decide_eq_false_2 by lia. }
  destruct (Z.ltb_spec 0 us) as [Hpos|Hneg].
  2:{ assert (0 < - us) as Hp by lia.
      pose proof (true_divide_pos_mantissa (- us) 1000000 Hp eq_refl) as Hm.
      unfold float_lt_int. cbn [mantissa exponent].
      set (f := true_divide_pos (- us) 1000000) in *.
      pose proof (pow2_pos (exponent f)). pose proof (pow2_pos (- exponent f)).
      assert (0 < 2 ^ 52) by lia.
      rewrite bool_decide_eq_true_2 by lia.
      apply Z.ltb_lt. nia. }
  pose proof (true_divide_pos_mantissa us 1000000 Hpos eq_refl) as Hm.
  pose proof (binade_le us 1000000 Hpos eq_refl) as Hb.
  unfold float_lt_int, true_divide_pos in *. cbn [mantissa exponent] in *.
  set (b := binade us 1000000) in *. set (s := b - 52) in *.
  pose proof (pow2_pos s). pose proof (pow2_pos (- s)).
  destruct (decide (us < ttl * 1000000)) as [Hlt|Hge].
  - rewrite bool_decide_eq_true_2 by done. apply Z.ltb_lt.
    assert (b ≤ 33) as Hb33.
    { destruct (Z.le_gt_cases b 33) as [|Hbig]; [done|]. exfalso.
      rewrite (pow2_nonpos (- b)), (pow2_nonneg b) in Hb by lia.
      assert (2 ^ 34 ≤ 2 ^ b) by (apply Z.pow_le_mono_r; lia).
      nia. }
    rewrite (pow2_nonpos s) in * by lia.
    assert (2 ^ 19 ≤ pow2 (- s)) as HS.
    { rewrite pow2_nonneg by lia. apply Z.pow_le_mono_r; lia. }
    set (S := pow2 (- s)) in *.
    replace (1000000 * 1) with 1000000 in * by lia.
    pose proof (round_half_even_le (us * S) 1000000 eq_refl) as [Hup Hdown].
    pose proof (Z.div_mod (us * S) 1000000 ltac:(lia)) as Hdm.
    pose proof (Z.mod_pos_bound (us * S) 1000000 eq_refl) as Hr.
    set (m' := round_half_even (us * S) 1000000) in *.
    set (m := us * S / 1000000) in *. set (r := us * S mod 1000000) in *.
    change (2 ^ 19) with 524288 in HS.
    assert (us * S ≤ 1000000 * (ttl * S) - S) as Hn by nia.
    set (X := us * S) in *. set (Y := ttl * S) in *.
    destruct (Z.lt_ge_cases (2 * r) 1000000) as [Hsmall|Hbig].
    + rewrite (Hdown Hsmall). lia.
    + lia.
  - rewrite bool_decide_eq_false_2 by done. apply Z.ltb_ge.
    destruct (Z.le_gt_cases s 0) as [Hs|Hs].
    + rewrite (pow2_nonpos s) in * by lia.
      set (S := pow2 (- s)) in *.
      replace (1000000 * 1) with 1000000 in * by lia.
      pose proof (round_half_even_ge (us * S) 1000000) as Hlow.
      assert (ttl * S ≤ us * S / 1000000) as Hdiv.
      { apply Z.div_le_lower_bound; [lia | nia]. }
      set (Y := ttl * S) in *. lia.
    + set (m' := round_half_even _ _) in *.
      rewrite (pow2_nonpos (- s)) by lia.
      assert (m' * 1 ≤ m' * pow2 s) by (apply Z.mul_le_mono_nonneg_l; lia).
      lia.
Qed.

Lemma is_valid_exact e ttl now :
  exact_ttl ttl → is_valid e ttl now = bool_decide (under_ttl e ttl now).
Proof. intros Httl. unfold is_valid, under_ttl. by apply total_seconds_lt. Qed.

Lemma is_valid_under_ttl e ttl now :
  exact_ttl ttl → is_valid e ttl now = true ↔ under_ttl e ttl now.
Proof.
  intros Httl. rewrite (is_valid_exact e ttl now Httl).
  apply bool_decide_eq_true.
Qed.

(** ** The cache *)

Lemma cache_get_cache c now course sid :
  cache (cache_get c now course sid).2 = cache c.
Proof.
  unfold cache_get. destruct (cache c !! _) as [e|]; [|done].
  by destruct (is_valid _ _ _).
Qed.

Lemma run_ops_dom ops : ∀ c,
  dom (cache (run_ops c ops)) = dom (cache c) ∪ list_to_set (keys_put ops).
Proof.
  induction ops as [|op ops IH]; intros c; simpl.
  - set_solver.
  - unfold run_ops in *. simpl. rewrite IH. destruct op; simpl.
    + by rewrite cache_get_cache.
    + rewrite dom_insert_L. set_solver.
Qed.

(** C6, as the claim states it, fails.  In a cache with a TTL of
    [10**11] seconds, an entry whose age is one microsecond under the
    TTL is not returned: the float of the age is [1e11], which is not
    below the TTL, and [get] counts a miss. *)
Lemma cache_get_rounds_age :
  under_ttl (mkCacheEntry (py "CSOPESY") (py "12345678") labels_new 0)
    (10 ^ 11) (10 ^ 17 - 1)
  ∧ cache long_lived_cache !! get_cache_key (py "CSOPESY") (py "12345678")
    = Some (mkCacheEntry (py "CSOPESY") (py "12345678") labels_new 0)
  ∧ (cache_get long_lived_cache (10 ^ 17 - 1) (py "CSOPESY") (py "12345678")).1
    = None
  ∧ misses (cache_get long_lived_cache (10 ^ 17 - 1) (py "CSOPESY")
              (py "12345678")).2 = 1%nat
  ∧ hits (cache_get long_lived_cache (10 ^ 17 - 1) (py "CSOPESY")
            (py "12345678")).2 = 0%nat.
Proof. split_and!; vm_compute; reflexivity. Qed.

(** C6, as the code has it.  For every cache state and every [get]:
    when the key is present and [is_valid] accepts its entry, [get]
    returns the stored data and adds one to [hits]; when the key is
    absent, or present with an entry that [is_valid] rejects, [get]
    returns nothing and adds one to [misses].  [is_valid] compares the
    float of the age in seconds with the TTL; for a TTL of at most
    [2 ** 34] seconds it accepts an entry exactly when its age is under
    the TTL.  In every case the store keeps all its entries, so that
    after any history of [get] and [set] calls on a new cache the number
    of entries is the number of distinct keys that were set. *)
Theorem cache_get_counts (c : CacheService) (now : Z) (course student_id : str) :
  let key := get_cache_key course student_id in
  let r := (cache_get c now course student_id).1 in
  let c' := (cache_get c now course student_id).2 in
  (∀ e, cache c !! key = Some e →
        is_valid e (max_age_seconds c) now = true →
        r = Some (ce_data e) ∧ hits c' = S (hits c) ∧ misses c' = misses c)
  ∧ (cache c !! key = None
     ∨ (∃ e, cache c !! key = Some e
             ∧ is_valid e (max_age_seconds c) now = false) →
     r = None ∧ misses c' = S (misses c) ∧ hits c' = hits c)
  ∧ (∀ e, exact_ttl (max_age_seconds c) →
          (is_valid e (max_age_seconds c) now = true
           ↔ now - ce_timestamp e < max_age_seconds c * 1000000))
  ∧ cache c' = cache c
  ∧ (∀ max_age ops,
       total_entries (run_ops (new_cache max_age) ops)
       = size (list_to_set (keys_put ops) : gset str)).
Proof.
  intros key r c'. split_and!.
  - intros e He Hage. unfold r, c', cache_get. fold key. by rewrite He, Hage.
  - intros [Hnone|(e & He & Hage)]; unfold r, c', cache_get; fold key.
    + by rewrite Hnone.
    + by rewrite He, Hage.
  - intros e Httl. by apply is_valid_under_ttl.
  - apply cache_get_cache.
  - intros max_age ops. unfold total_entries.
    rewrite <- size_dom, run_ops_dom. simpl. rewrite dom_empty_L.
    f_equal. set_solver.
Qed.

(** The statement of [cache_get_counts] on the sample cache, one
    microsecond before and at the end of the life of its entry. *)
Lemma cache_get_counts_witness :
  ((cache_get sample_cache 59999999 (py "CSOPESY") (py "12345678")).1
   = Some labels_new
   ∧ hits (cache_get sample_cache 59999999 (py "CSOPESY") (py "12345678")).2 = 1%nat
   ∧ misses (cache_get sample_cache 59999999 (py "CSOPESY") (py "12345678")).2 = 0%nat)
  ∧ ((cache_get sample_cache 60000000 (py "CSOPESY") (py "12345678")).1 = None
     ∧ misses (cache_get sample_cache 60000000 (py "CSOPESY") (py "12345678")).2 = 1%nat
     ∧ hits (cache_get sample_cache 60000000 (py "CSOPESY") (py "12345678")).2 = 0%nat)
  ∧ (is_valid (mkCacheEntry (py "CSOPESY") (py "12345678") labels_new 0) 60
       59999999 = true
     ↔ 59999999 - 0 < 60 * 1000000).
Proof.
  split; [|split].
  - apply (proj1 (cache_get_counts sample_cache 59999999 (py "CSOPESY")
                    (py "12345678"))
             (mkCacheEntry (py "CSOPESY") (py "12345678") labels_new 0)).
    + vm_compute. reflexivity.
    + vm_compute. reflexivity.
  - apply (proj1 (proj2 (cache_get_counts sample_cache 60000000 (py "CSOPESY")
                           (py "12345678")))).
    right. exists (mkCacheEntry (py "CSOPESY") (py "12345678") labels_new 0).
    split; vm_compute; reflexivity.
  - apply (proj1 (proj2 (proj2 (cache_get_counts sample_cache 59999999
                                  (py "CSOPESY") (py "12345678"))))
             (mkCacheEntry (py "CSOPESY") (py "12345678") labels_new 0)).
    unfold exact_ttl. vm_compute. split; discriminate.
Defined.

(** ** The fetcher *)

Lemma cache_get_valid c now course sid :
  cache_get c now course sid
  = match valid_entry c now course sid with
    | Some e =>
        (Some (ce_data e),
         mkCacheService (cache c) (max_age_seconds c) (S (hits c)) (misses c))
    | None =>
        (None,
         mkCacheService (cache c) (max_age_seconds c) (hits c) (S (misses c)))
    end.
Proof.
  unfold cache_get, valid_entry.
  destruct (cache c !! _) as [e|]; [|done].
  by destruct (is_valid _ _ _).
Qed.

Lemma in_class_numbers_spec cn s :
  in_class_numbers cn s = true ↔ class_number_in cn s.
Proof.
  unfold in_class_numbers, class_number_in.
  rewrite existsb_exists, Exists_exists. split.
  - intros (n & Hin & Heq). exists n. split; [by apply list_elem_of_In|].
    unfold py_eq in Heq. simpl in Heq.
    destruct (int_of _) as [x|]; [|done].
    by apply bool_decide_eq_true in Heq as ->.
  - intros (n & Hin & Heq). exists n. split; [by apply list_elem_of_In|].
    unfold py_eq. rewrite Heq. simpl. by apply bool_decide_eq_true.
Qed.

Lemma filter_bool_decidable {A} (f : A → bool) (P : A → Prop)
    `{!∀ x, Decision (P x)} (l : list A) :
  (∀ x, f x = true ↔ P x) → List.filter f l = filter P l.
Proof.
  intros HfP. induction l as [|x l IH]; [done|]. simpl.
  destruct (f x) eqn:Hfx.
  - rewrite filter_cons_True by (by apply HfP). by rewrite IH.
  - rewrite filter_cons_False; [done|].
    intros HP. apply HfP in HP. congruence.
Qed.

(** The cache lookup of the fetcher: it returns the data of the valid
    entry, if any, and touches nothing but the counters and the clock. *)
Lemma cache_get_m_spec E course id_no w :
  let out := cache_get_m E course id_no w in
  out.1 = Ret (ce_data <$> valid_entry (w_cache w) (clock E (w_clock_reads w))
                             course id_no)
  ∧ cache (w_cache out.2) = cache (w_cache w)
  ∧ w_requests out.2 = w_requests w
  ∧ w_sends out.2 = w_sends w
  ∧ w_subscriptions out.2 = w_subscriptions w
  ∧ w_saves out.2 = w_saves w.
Proof.
  unfold cache_get_m. unfold_M. simpl.
  destruct (cache (w_cache w) !! get_cache_key course id_no) as [e|] eqn:He;
    simpl; rewrite cache_get_valid.
  - by destruct (valid_entry _ _ _ _).
  - unfold valid_entry. by rewrite He.
Qed.

(** The fetch from the scraper: one request, and on a 200 answer with
    a JSON body the data comes back, stored in the cache when caching
    is enabled. *)
Lemma fetch_from_scraper_once E course id_no w :
  let out := fetch_from_scraper E course id_no w in
  w_requests out.2 = w_requests w ++ [(course, id_no)]
  ∧ ∀ data,
      scraper_api E (length (w_requests w)) course id_no
      = HttpResponse 200 (Some data) →
      out.1 = Ret data
      ∧ (CACHE_ENABLED E = true →
         ce_data <$> (cache (w_cache out.2) !! get_cache_key course id_no)
         = Some data)
      ∧ (CACHE_ENABLED E = false → cache (w_cache out.2) = cache (w_cache w)).
Proof.
  unfold fetch_from_scraper, cache_set_m. unfold_M. simpl. split.
  - destruct (scraper_api E _ course id_no) as [status [data|]| | |]; simpl;
      try done; destruct (status =? 503); simpl; try done;
      destruct (status =? 200); simpl; try done;
      by destruct (CACHE_ENABLED E).
  - intros data ->. simpl. destruct (CACHE_ENABLED E); simpl.
    + split_and!; [done| |done]. intros _. unfold cache_set. simpl.
      by rewrite lookup_insert_eq.
    + done.
Qed.

(** The entry of a key is valid, for a TTL of at most [2 ** 34]
    seconds, exactly when the cache holds it and its age is under the
    TTL. *)
Lemma valid_entry_exact c now course sid e :
  exact_ttl (max_age_seconds c) →
  valid_entry c now course sid = Some e ↔
  cache c !! get_cache_key course sid = Some e
  ∧ now - ce_timestamp e < max_age_seconds c * 1000000.
Proof.
  intros Httl. unfold valid_entry.
  destruct (cache c !! get_cache_key course sid) as [e'|]; [|naive_solver].
  pose proof (is_valid_under_ttl e' _ now Httl) as Hvalid.
  unfold under_ttl in Hvalid.
  destruct (is_valid e' (max_age_seconds c) now); split.
  - intros [= <-]. split; [done|]. by apply Hvalid.
  - by intros [[= <-] _].
  - done.
  - intros [[= <-] Hage]. apply Hvalid in Hage. done.
Qed.

(** C5, as the claim states it, fails.  A filter that is given but
    empty, as [/course CSOPESY:0] builds one, selects no section, and
    the fetch returns every section.  In a cache with a TTL of [10**11]
    seconds, a request made when the entry of its key is one microsecond
    under the TTL still asks the scraper, the float of the age being
    [1e11]. *)
Lemma fetch_departs_from_claim :
  ((fetch_and_filter_data env_up (py "CSOPESY") (py "12345678") (Some []) true
      (world_of (new_cache 60) [])).1
   = Ret (Some labels_new)
   ∧ filter (class_number_in []) labels_new = [])
  ∧ (cache long_lived_cache !! get_cache_key (py "CSOPESY") (py "12345678")
     = Some (mkCacheEntry (py "CSOPESY") (py "12345678") labels_new 0)
     ∧ 10 ^ 17 - 1 - 0 < max_age_seconds long_lived_cache * 1000000
     ∧ w_requests
         (fetch_and_filter_data (env_at (10 ^ 17 - 1))
            (py "CSOPESY") (py "12345678") None true
            (world_of long_lived_cache [])).2
       = [(py "CSOPESY", py "12345678")]).
Proof. split_and!; vm_compute; reflexivity. Qed.

(** Requests that go around the cache.  With [use_cache] unset, a
    request whose key has a valid entry in the cache asks the scraper;
    with [CACHE_ENABLED] unset, a request that finds no entry asks the
    scraper once, gets the snapshot, and leaves the cache empty. *)
Lemma fetch_without_caching :
  (is_Some (valid_entry sample_cache 0 (py "CSOPESY") (py "12345678"))
   ∧ w_requests
       (fetch_and_filter_data
          (sample_env true (scraper_up labels_new) bot_up)
          (py "CSOPESY") (py "12345678") None false
          (world_of sample_cache [])).2
     = [(py "CSOPESY", py "12345678")])
  ∧ (fetch_and_filter_data
       (sample_env false (scraper_up labels_new) bot_up)
       (py "CSOPESY") (py "12345678") None true
       (world_of (new_cache 60) [])).1
    = Ret (Some labels_new)
  ∧ w_requests
      (fetch_and_filter_data
         (sample_env false (scraper_up labels_new) bot_up)
         (py "CSOPESY") (py "12345678") None true
         (world_of (new_cache 60) [])).2
    = [(py "CSOPESY", py "12345678")]
  ∧ cache (w_cache
             (fetch_and_filter_data
                (sample_env false (scraper_up labels_new) bot_up)
                (py "CSOPESY") (py "12345678") None true
                (world_of (new_cache 60) [])).2)
    = ∅.
Proof.
  split_and!; try (vm_compute; reflexivity).
  vm_compute. by eexists.
Qed.

(** C5, as the code has it.  For every fetch request, [caching] being
    [use_cache and CACHE_ENABLED]: when caching is on and the cache
    holds a valid entry for the key, one that [is_valid] accepts, which
    for a TTL of at most [2 ** 34] seconds is one whose age is under the
    TTL, the scraper is not asked and the cache stays as it is;
    otherwise the scraper is asked exactly once,
    and when it answers 200 with a snapshot, that snapshot, unfiltered,
    is what the cache holds for the key if [CACHE_ENABLED] is set (the
    cache is left alone if it is not); the returned snapshot, under a
    filter that is not empty, consists of exactly the sections whose
    class number is in the filter, in the order of the unfiltered
    snapshot, and is the unfiltered snapshot when the filter is absent
    or empty. *)
Theorem fetch_and_filter_data_cache (E : env) (w : world)
    (course id_no : str) (class_numbers : option (list Z)) (use_cache : bool) :
  let now := clock E (w_clock_reads w) in
  let caching := use_cache && CACHE_ENABLED E in
  let out := fetch_and_filter_data E course id_no class_numbers use_cache w in
  (∀ e, caching = true →
        valid_entry (w_cache w) now course id_no = Some e →
        w_requests out.2 = w_requests w
        ∧ cache (w_cache out.2) = cache (w_cache w)
        ∧ out.1 = Ret (Some (filter_sections class_numbers (ce_data e))))
  ∧ (caching = false ∨ valid_entry (w_cache w) now course id_no = None →
     w_requests out.2 = w_requests w ++ [(course, id_no)]
     ∧ ∀ data,
         scraper_api E (length (w_requests w)) course id_no
         = HttpResponse 200 (Some data) →
         out.1 = Ret (Some (filter_sections class_numbers data))
         ∧ (CACHE_ENABLED E = true →
            ce_data <$> (cache (w_cache out.2) !! get_cache_key course id_no)
            = Some data)
         ∧ (CACHE_ENABLED E = false →
            cache (w_cache out.2) = cache (w_cache w)))
  ∧ (∀ n ns data,
       filter_sections (Some (n :: ns)) data
       = filter (class_number_in (n :: ns)) data)
  ∧ (∀ data,
       filter_sections None data = data ∧ filter_sections (Some []) data = data)
  ∧ (∀ e, exact_ttl (max_age_seconds (w_cache w)) →
          (valid_entry (w_cache w) now course id_no = Some e
           ↔ cache (w_cache w) !! get_cache_key course id_no = Some e
             ∧ now - ce_timestamp e < max_age_seconds (w_cache w) * 1000000)).
Proof.
  intros now caching out. split_and!.
  - intros e Hcaching Hvalid. unfold out, fetch_and_filter_data,
      fetch_course_data. fold caching. rewrite Hcaching.
    destruct (cache_get_m_spec E course id_no w)
      as (Hret & Hcache & Hreq & _). fold now in Hret. rewrite Hvalid in Hret.
    unfold_M. destruct (cache_get_m E course id_no w) as [r w1].
    simpl in *. by subst r.
  - intros Hmiss.
    assert (fetch_course_data E course id_no use_cache w
            = fetch_from_scraper E course id_no w
              ∨ ∃ w1, fetch_course_data E course id_no use_cache w
                      = fetch_from_scraper E course id_no w1
                      ∧ w_requests w1 = w_requests w
                      ∧ cache (w_cache w1) = cache (w_cache w))
      as Hfetch.
    { unfold fetch_course_data. fold caching.
      destruct caching eqn:Hcaching; [|by left]. right.
      destruct Hmiss as [|Hnone]; [done|].
      destruct (cache_get_m_spec E course id_no w)
        as (Hret & Hcache & Hreq & _). fold now in Hret.
      rewrite Hnone in Hret.
      unfold_M. destruct (cache_get_m E course id_no w) as [r w1].
      simpl in *. subst r. by exists w1. }
    destruct (fetch_from_scraper_once E course id_no w) as [Hreq Hdata].
    unfold out, fetch_and_filter_data. unfold_M.
    destruct Hfetch as [->|(w1 & -> & Hreq1 & Hcache1)].
    + destruct (fetch_from_scraper E course id_no w) as [[data|e] w'] eqn:Hf;
        simpl in *.
      * split; [done|]. intros data' Hreply.
        destruct (Hdata data' Hreply) as ([= ->] & Hon & Hoff). done.
      * split; [by destruct e|]. intros data' Hreply.
        by destruct (Hdata data' Hreply) as ([=] & _).
    + destruct (fetch_from_scraper_once E course id_no w1) as [Hreq' Hdata'].
      rewrite Hreq1, Hcache1 in *.
      destruct (fetch_from_scraper E course id_no w1) as [[data|e] w'] eqn:Hf;
        simpl in *.
      * split; [done|]. intros data' Hreply.
        destruct (Hdata' data' Hreply) as ([= ->] & Hon & Hoff). done.
      * split; [by destruct e|]. intros data' Hreply.
        by destruct (Hdata' data' Hreply) as ([=] & _).
  - intros n ns data. unfold filter_sections.
    apply filter_bool_decidable. intros s. apply in_class_numbers_spec.
  - done.
  - intros e Httl. by apply valid_entry_exact.
Qed.

(** The statement of [fetch_and_filter_data_cache] on the sample data:
    a request for section 2222 served from the valid entry of the
    sample cache, and the same request on an empty cache. *)
Lemma fetch_and_filter_data_cache_witness :
  (w_requests
     (fetch_and_filter_data
        (sample_env true (scraper_up labels_new) bot_up)
        (py "CSOPESY") (py "12345678") (Some [2222]) true
        (world_of sample_cache [])).2
   = []
   ∧ (fetch_and_filter_data
        (sample_env true (scraper_up labels_new) bot_up)
        (py "CSOPESY") (py "12345678") (Some [2222]) true
        (world_of sample_cache [])).1
     = Ret (Some [mk_section "CSOPESY" "S11" 2222 12 30]))
  ∧ (w_requests
       (fetch_and_filter_data
          (sample_env true (scraper_up labels_new) bot_up)
          (py "CSOPESY") (py "12345678") (Some [2222]) true
          (world_of (new_cache 60) [])).2
     = [(py "CSOPESY", py "12345678")]
     ∧ ce_data <$>
         (cache (w_cache
                   (fetch_and_filter_data
                      (sample_env true (scraper_up labels_new) bot_up)
                      (py "CSOPESY") (py "12345678") (Some [2222]) true
                      (world_of (new_cache 60) [])).2)
          !! get_cache_key (py "CSOPESY") (py "12345678"))
       = Some labels_new)
  ∧ (valid_entry sample_cache 0 (py "CSOPESY") (py "12345678")
     = Some (mkCacheEntry (py "CSOPESY") (py "12345678") labels_new 0)
     ↔ cache sample_cache !! get_cache_key (py "CSOPESY") (py "12345678")
       = Some (mkCacheEntry (py "CSOPESY") (py "12345678") labels_new 0)
       ∧ 0 - 0 < 60 * 1000000).
Proof.
  split; [|split].
  - destruct (fetch_and_filter_data_cache
                (sample_env true (scraper_up labels_new) bot_up)
                (world_of sample_cache [])
                (py "CSOPESY") (py "12345678") (Some [2222]) true)
      as (Hhit & _).
    destruct (Hhit (mkCacheEntry (py "CSOPESY") (py "12345678") labels_new 0))
      as (Hreq & _ & Hret).
    + reflexivity.
    + vm_compute. reflexivity.
    + split; [exact Hreq|]. rewrite Hret. vm_compute. reflexivity.
  - destruct (fetch_and_filter_data_cache
                (sample_env true (scraper_up labels_new) bot_up)
                (world_of (new_cache 60) [])
                (py "CSOPESY") (py "12345678") (Some [2222]) true)
      as (_ & Hmiss & _).
    destruct Hmiss as [Hreq Hdata].
    + right. vm_compute. reflexivity.
    + split; [exact Hreq|].
      destruct (Hdata labels_new) as (_ & Hon & _); [reflexivity|].
      apply Hon. reflexivity.
  - destruct (fetch_and_filter_data_cache
                (sample_env true (scraper_up labels_new) bot_up)
                (world_of sample_cache [])
                (py "CSOPESY") (py "12345678") (Some [2222]) true)
      as (_ & _ & _ & _ & Hexact).
    apply (Hexact (mkCacheEntry (py "CSOPESY") (py "12345678") labels_new 0)).
    unfold exact_ttl. vm_compute. split; discriminate.
Defined.

(** ** Chunks *)

Lemma lstrip_length s : (length (lstrip s) ≤ length s)%nat.
Proof.
  induction s as [|c s IH]; simpl; [done|].
  destruct (is_space c); simpl; lia.
Qed.

Lemma strip_length s : (length (strip s) ≤ length s)%nat.
Proof.
  unfold strip, rstrip. rewrite length_rev.
  etrans; [apply lstrip_length|]. rewrite length_rev. apply lstrip_length.
Qed.

Lemma join_blocks_snoc run block :
  join_blocks (run ++ [block]) = glue (join_blocks run) block.
Proof. unfold join_blocks. by rewrite fold_left_app. Qed.

Lemma join_blocks_singleton block : join_blocks [block] = block.
Proof. done. Qed.

(** With no empty block in the run, gluing is [blank_line.join]. *)
Lemma join_blocks_join run :
  Forall (fun b => b ≠ []) run → join_blocks run = join blank_line run.
Proof.
  induction run as [|b run IH] using rev_ind; [done|].
  intros Hall. apply Forall_app in Hall as [Hrun Hb].
  apply Forall_inv in Hb.
  rewrite join_blocks_snoc, IH by done. unfold glue.
  destruct run as [|b0 run]; [done|].
  assert (join blank_line (b0 :: run) ≠ []) as Hne.
  { apply Forall_cons in Hrun as [Hb0 _].
    destruct run; simpl; [done|]. by destruct b0. }
  destruct (join blank_line (b0 :: run)) as [|c j] eqn:Hj; [done|].
  simpl is_empty. cbv iota. rewrite <- Hj. clear Hj Hne IH Hrun.
  revert b0. induction run as [|b1 run IH]; intros b0; [done|].
  change (join blank_line (b0 :: b1 :: run))
    with (b0 ++ blank_line ++ join blank_line (b1 :: run)).
  change (join blank_line ((b0 :: b1 :: run) ++ [b]))
    with (b0 ++ blank_line ++ join blank_line ((b1 :: run) ++ [b])).
  rewrite <- IH. by rewrite <- !app_assoc.
Qed.

(** The state of the loop of [send_long_message] after the blocks
    [text_lines]: the chunks closed so far are the chunks of runs of
    whole blocks, the text in progress is the glue of the run that
    follows them, the runs are the blocks in order, and each closed run
    was closed because the next block did not fit. *)
Lemma chunk_step_runs msg_limit text_lines :
  ∃ runs open_run,
    concat runs ++ open_run = text_lines
    ∧ (fold_left (chunk_step msg_limit) text_lines ([], [])).1
      = map chunk_of runs
    ∧ (fold_left (chunk_step msg_limit) text_lines ([], [])).2
      = join_blocks open_run
    ∧ (runs = [] ∨ open_run ≠ [])
    ∧ greedy msg_limit (runs ++ [open_run]).
Proof.
  induction text_lines as [|line text_lines IH] using rev_ind.
  { exists [], []. split_and!; try done.
    by left. }
  destruct IH as (runs & open_run & Hcat & Hchunks & Hcur & Hne & Hgreedy).
  rewrite fold_left_app. simpl.
  destruct (fold_left _ text_lines _) as [chunks current]. simpl in *.
  subst chunks current. unfold chunk_step.
  destruct (msg_limit <? _)%nat eqn:Hfull.
  - exists (runs ++ [open_run]), [line]. simpl. split_and!.
    + rewrite concat_app. simpl. rewrite app_nil_r, <- Hcat.
      by rewrite <- app_assoc.
    + by rewrite map_app.
    + done.
    + by right.
    + intros i run next block Hrun Hnext Hhead.
      destruct (decide (S i < length (runs ++ [open_run]))%nat) as [Hlt|Hge].
      * rewrite lookup_app_l in Hrun by lia.
        rewrite lookup_app_l in Hnext by lia. by eapply Hgreedy.
      * assert (S i = length (runs ++ [open_run])) as Hi.
        { apply lookup_lt_Some in Hnext. rewrite length_app in Hnext.
          simpl in Hnext. lia. }
        rewrite lookup_app_r in Hnext by lia.
        replace (S i - length (runs ++ [open_run]))%nat with 0%nat in Hnext by lia.
        injection Hnext as <-. injection Hhead as <-.
        rewrite lookup_app_l in Hrun by lia.
        rewrite length_app in Hi. simpl in Hi.
        rewrite lookup_app_r in Hrun by lia.
        replace (i - length runs)%nat with 0%nat in Hrun by lia.
        injection Hrun as <-.
        rewrite join_blocks_snoc. unfold glue.
        apply Nat.ltb_lt in Hfull. by rewrite !length_app in *.
  - exists runs, (open_run ++ [line]). split_and!.
    + by rewrite app_assoc, Hcat.
    + done.
    + by rewrite join_blocks_snoc.
    + right. by destruct open_run.
    + intros i run next block Hrun Hnext Hhead.
      destruct (decide (S i < length runs)%nat) as [Hlt|Hge].
      * rewrite lookup_app_l in Hrun by lia.
        rewrite lookup_app_l in Hnext by lia.
        eapply (Hgreedy i); [| |done].
        -- by rewrite lookup_app_l by lia.
        -- by rewrite lookup_app_l by lia.
      * assert (S i = length runs) as Hi.
        { apply lookup_lt_Some in Hnext. rewrite length_app in Hnext.
          simpl in Hnext. lia. }
        destruct Hne as [->|Hlast]; [done|].
        rewrite lookup_app_r in Hnext by lia.
        replace (S i - length runs)%nat with 0%nat in Hnext by lia.
        injection Hnext as <-.
        eapply (Hgreedy i run open_run); [| |by destruct open_run].
        -- rewrite lookup_app_l in Hrun by lia. by rewrite lookup_app_l by lia.
        -- rewrite lookup_app_r by lia.
           by replace (S i - length runs)%nat with 0%nat by lia.
Qed.

Lemma chunk_step_bound msg_limit text_lines :
  Forall (fun b => (length b ≤ msg_limit)%nat) text_lines →
  Forall (fun c => (length c ≤ msg_limit)%nat)
         (fold_left (chunk_step msg_limit) text_lines ([], [])).1
  ∧ (length (fold_left (chunk_step msg_limit) text_lines ([], [])).2
     ≤ msg_limit)%nat.
Proof.
  induction text_lines as [|line text_lines IH] using rev_ind.
  { intros _. simpl. split; [constructor | lia]. }
  intros Hall. apply Forall_app in Hall as [Hall Hline].
  apply Forall_inv in Hline. destruct (IH Hall) as [Hchunks Hcur].
  rewrite fold_left_app. simpl.
  destruct (fold_left _ text_lines _) as [chunks current]. simpl in *.
  unfold chunk_step. destruct (msg_limit <? _)%nat eqn:Hfull; simpl.
  - split; [|done]. apply Forall_app. split; [done|].
    apply Forall_singleton. etrans; [apply strip_length | done].
  - split; [done|]. apply Nat.ltb_ge in Hfull. by rewrite length_app.
Qed.

Lemma send_chunks_delivered E chat title n chunks : ∀ idx w,
  (∀ k c t, telegram E k c t = true) →
  (send_chunks E chat title n idx chunks w).1 = Ret tt
  ∧ w_sends (send_chunks E chat title n idx chunks w).2
    = w_sends w
      ++ imap (fun i chunk => (chat, full_message title n (idx + i) chunk, true))
              chunks.
Proof.
  induction chunks as [|chunk chunks IH]; intros idx w Hup; simpl.
  { by rewrite app_nil_r. }
  unfold_M. simpl. rewrite Hup. simpl.
  split; [by apply IH|]. rewrite (proj2 (IH (S idx) _ Hup)). simpl.
  rewrite <- app_assoc. simpl. rewrite Nat.add_0_r. do 2 f_equal.
  apply imap_ext. intros i c _. simpl.
  by rewrite Nat.add_succ_r.
Qed.

Lemma rev_replicate {A} n (x : A) : rev (replicate n x) = replicate n x.
Proof.
  induction n as [|n IH]; [done|].
  rewrite replicate_S_end at 2. simpl. by rewrite IH.
Qed.

(** A run of one character that is not white space is its own strip. *)
Lemma strip_replicate n c : is_space c = false → strip (replicate n c) = replicate n c.
Proof.
  intros Hc.
  assert (∀ m, lstrip (replicate m c) = replicate m c) as Hl.
  { intros [|m]; [done|]. simpl. by rewrite Hc. }
  unfold strip, rstrip. by rewrite Hl, rev_replicate, Hl, rev_replicate.
Qed.

(** A single block over the limit: the empty text in progress is
    closed as an empty chunk, and the block is the second chunk. *)
Lemma split_chunks_oversize msg_limit block :
  (msg_limit < length block)%nat →
  split_chunks msg_limit [block] = [[]; strip block].
Proof.
  intros Hlong. unfold split_chunks. simpl.
  rewrite (proj2 (Nat.ltb_lt _ _) Hlong). simpl.
  destruct block; [simpl in Hlong; lia | done].
Qed.

(** The limit is tested on the chunk: the label of a message comes on
    top of it. *)
Lemma full_message_length title n idx chunk :
  length (full_message title n idx chunk)
  = (length (part_header title idx n) + length chunk)%nat.
Proof. unfold full_message. by rewrite length_app. Qed.

(** C4, as the claim states it, fails.  Under the limit of 4096
    characters a single block of 4097 characters makes an empty chunk
    and a chunk of 4097 characters, and the two messages sent are the
    label of part 1 of 2 alone and the label of part 2 of 2 followed by
    the 4097 characters. *)
Lemma chunk_exceeds_limit :
  split_chunks 4096 [block_a 4097] = [[]; block_a 4097]
  ∧ length (block_a 4097) = 4097%nat
  ∧ messages 4096 [block_a 4097] (py "Updates for CSOPESY")
    = [part_label (py "Updates for CSOPESY") 1 2;
       part_label (py "Updates for CSOPESY") 2 2 ++ block_a 4097].
Proof.
  assert (split_chunks 4096 [block_a 4097] = [[]; block_a 4097]) as Hsplit.
  { unfold block_a. rewrite split_chunks_oversize.
    - by rewrite strip_replicate.
    - rewrite length_replicate. apply Nat.lt_succ_diag_r. }
  split_and!; [done | apply length_replicate |].
  unfold messages. rewrite Hsplit. reflexivity.
Qed.

(** C4, as the code has it.  For every list of blocks, limit and title:
    the chunks are, in order, the texts of consecutive runs of whole
    blocks that together are the input, each run glued with blank lines
    and stripped of the white space at its two ends, a last run of empty
    text making no chunk; a run is closed only when the next block would
    take it over the limit; when every block has at most [msg_limit]
    characters, so has every chunk; the message of chunk [i] of [N] is
    the chunk with the label "*title* (part i/N)" and a blank line in
    front when there is more than one chunk and the title is not empty,
    and the chunk alone otherwise; and these messages, in order, are
    what the bot is handed when it delivers each of them. *)
Theorem split_chunks_packs (msg_limit : nat) (text_lines : list str)
    (title : str) :
  let chunks := split_chunks msg_limit text_lines in
  let sent := messages msg_limit text_lines title in
  (∃ runs open_run,
      concat runs ++ open_run = text_lines
      ∧ chunks
        = map chunk_of runs
          ++ (if is_empty (join_blocks open_run) then [] else [chunk_of open_run])
      ∧ greedy msg_limit (runs ++ [open_run]))
  ∧ (Forall (fun b => (length b ≤ msg_limit)%nat) text_lines →
     Forall (fun c => (length c ≤ msg_limit)%nat) chunks)
  ∧ length sent = length chunks
  ∧ (∀ i chunk, chunks !! i = Some chunk →
       sent !! i
       = Some ((if (1 <? length chunks)%nat && negb (is_empty title)
                then part_label title (S i) (length chunks) else [])
               ++ chunk))
  ∧ (length chunks = 1%nat → sent = chunks)
  ∧ (∀ E w chat,
       MAX_TEXT_LENGTH E = msg_limit →
       (∀ k c t, telegram E k c t = true) →
       (send_long_message E chat text_lines title w).1 = Ret tt
       ∧ w_sends (send_long_message E chat text_lines title w).2
         = w_sends w ++ map (fun m => (chat, m, true)) sent).
Proof.
  intros chunks sent. split_and!.
  - destruct (chunk_step_runs msg_limit text_lines)
      as (runs & open_run & Hcat & Hchunks & Hcur & _ & Hgreedy).
    exists runs, open_run. split_and!; [done| |done].
    unfold chunks, split_chunks.
    destruct (fold_left _ text_lines _) as [cs current]. simpl in *.
    subst cs current. destruct (is_empty _); [by rewrite app_nil_r | done].
  - intros Hall. destruct (chunk_step_bound msg_limit text_lines Hall)
      as [Hchunks Hcur].
    unfold chunks, split_chunks.
    destruct (fold_left _ text_lines _) as [cs current]. simpl in *.
    destruct (is_empty current); [done|].
    apply Forall_app. split; [done|]. apply Forall_singleton.
    etrans; [apply strip_length | done].
  - unfold sent, messages. apply length_imap.
  - intros i chunk Hi. unfold sent, messages. fold chunks.
    rewrite list_lookup_imap, Hi. simpl.
    unfold full_message, part_header, part_label. done.
  - intros Hone. unfold sent, messages. fold chunks.
    destruct chunks as [|c [|c' cs]]; try done.
  - intros E w chat Hlimit Hup. unfold send_long_message. rewrite Hlimit.
    fold chunks.
    destruct (send_chunks_delivered E chat title (length chunks) chunks 1 w Hup)
      as [Hret Hsends].
    split; [done|]. rewrite Hsends. f_equal.
    unfold sent, messages. fold chunks. rewrite fmap_imap. done.
Qed.

(** The statement of [split_chunks_packs] on three blocks under a limit
    of 12 characters: the first two share a chunk, each chunk has at
    most 12 characters, and a bot that delivers is handed the two
    labelled messages. *)
Lemma split_chunks_packs_witness :
  Forall (fun c => (length c ≤ 12)%nat)
         (split_chunks 12 [block_a 5; block_b 5; block_a 12])
  ∧ messages 12 [block_a 5; block_b 5; block_a 12] (py "T")
    = [py "*T* (part 1/2)" ++ blank_line ++ block_a 5 ++ blank_line ++ block_b 5;
       py "*T* (part 2/2)" ++ blank_line ++ block_a 12]
  ∧ w_sends (send_long_message
               (mkEnv true 12 (fun n => Z.of_nat n) scraper_blocked bot_up
                      Formatter.format_section)
               7 [block_a 5; block_b 5; block_a 12] (py "T")
               (world_of (new_cache 60) [])).2
    = [(7, py "*T* (part 1/2)" ++ blank_line ++ block_a 5 ++ blank_line
           ++ block_b 5, true);
       (7, py "*T* (part 2/2)" ++ blank_line ++ block_a 12, true)].
Proof.
  split_and!.
  - apply (proj1 (proj2 (split_chunks_packs 12 [block_a 5; block_b 5; block_a 12] [])) ).
    repeat constructor; simpl; lia.
  - vm_compute. reflexivity.
  - destruct (split_chunks_packs 12 [block_a 5; block_b 5; block_a 12] (py "T"))
      as (_ & _ & _ & _ & _ & Hsent).
    exact (proj2 (Hsent (mkEnv true 12 (fun n => Z.of_nat n) scraper_blocked
                           bot_up Formatter.format_section)
                    (world_of (new_cache 60) []) 7 eq_refl
                    (fun _ _ _ => eq_refl))).
Defined.

(** ** The update step and the broadcast loop *)


(** What a fetch leaves alone. *)
Lemma fetch_and_filter_data_frame E course id_no class_numbers use_cache w :
  let out := fetch_and_filter_data E course id_no class_numbers use_cache w in
  w_sends out.2 = w_sends w
  ∧ w_subscriptions out.2 = w_subscriptions w
  ∧ w_saves out.2 = w_saves w.
Proof.
  unfold fetch_and_filter_data, fetch_course_data.
  destruct (use_cache && CACHE_ENABLED E); simpl.
  - destruct (cache_get_m_spec E course id_no w)
      as (_ & _ & _ & Hsends & Hsubs & Hsaves).
    unfold fetch_from_scraper, cache_set_m. unfold_M.
    destruct (cache_get_m E course id_no w) as [[[data|]|e] w1]; simpl in *;
      [done | | by destruct e].
    rewrite <- Hsends, <- Hsubs, <- Hsaves.
    destruct (scraper_api E _ course id_no) as [status [data|]| | |]; simpl;
      try done; destruct (status =? 503); simpl; try done;
      destruct (status =? 200); simpl; try done;
      by destruct (CACHE_ENABLED E).
  - unfold fetch_from_scraper, cache_set_m. unfold_M. simpl.
    destruct (scraper_api E _ course id_no) as [status [data|]| | |]; simpl;
      try done; destruct (status =? 503); simpl; try done;
      destruct (status =? 200); simpl; try done;
      by destruct (CACHE_ENABLED E).
Qed.

(** What the sending loop leaves alone, and what it adds. *)
Lemma send_chunks_frame E chat title n chunks : ∀ idx w,
  let out := send_chunks E chat title n idx chunks w in
  w_subscriptions out.2 = w_subscriptions w
  ∧ w_cache out.2 = w_cache w
  ∧ w_requests out.2 = w_requests w
  ∧ w_saves out.2 = w_saves w
  ∧ ∃ rest, w_sends out.2 = w_sends w ++ rest.
Proof.
  induction chunks as [|chunk chunks IH]; intros idx w; simpl.
  { split_and!; try done. exists []. by rewrite app_nil_r. }
  unfold_M. simpl. destruct (telegram E _ chat _); simpl.
  - destruct (IH (S idx) (mkWorld (w_cache w) (w_clock_reads w) (w_requests w)
                  (w_sends w ++ [(chat, full_message title n idx chunk, true)])
                  (w_subscriptions w) (w_saves w)))
      as (Hsub & Hcache & Hreq & Hsaves & rest & Hsends).
    split_and!; try done. eexists. rewrite Hsends. simpl.
    by rewrite <- app_assoc.
  - destruct (idx =? 1)%nat; simpl.
    + split_and!; try done. eexists. by rewrite <- app_assoc.
    + split_and!; try done. by eexists.
Qed.

(** The first chunk is always handed to the bot. *)
Lemma send_chunks_attempt E chat title n chunk chunks idx w :
  ∃ rest,
    w_sends (send_chunks E chat title n idx (chunk :: chunks) w).2
    = w_sends w
      ++ (chat, full_message title n idx chunk,
          telegram E (length (w_sends w)) chat (full_message title n idx chunk))
      :: rest.
Proof.
  simpl. unfold_M. simpl.
  destruct (telegram E _ chat _) eqn:Hok; simpl.
  - destruct (send_chunks_frame E chat title n chunks (S idx)
                (mkWorld (w_cache w) (w_clock_reads w) (w_requests w)
                   (w_sends w ++ [(chat, full_message title n idx chunk, true)])
                   (w_subscriptions w) (w_saves w)))
      as (_ & _ & _ & _ & rest & ->).
    simpl. exists rest. by rewrite <- app_assoc.
  - destruct (idx =? 1)%nat; simpl.
    + eexists. by rewrite <- app_assoc.
    + by eexists.
Qed.

Lemma chunk_step_nonempty msg_limit text_lines st :
  st.1 ≠ [] ∨ st.2 ≠ [] →
  (fold_left (chunk_step msg_limit) text_lines st).1 ≠ []
  ∨ (fold_left (chunk_step msg_limit) text_lines st).2 ≠ [].
Proof.
  revert st. induction text_lines as [|line text_lines IH]; intros st Hst;
    simpl; [done|].
  apply IH. destruct st as [chunks current]. unfold chunk_step.
  destruct (msg_limit <? _)%nat; simpl in *.
  - left. by destruct chunks.
  - destruct Hst as [Hchunks|Hcur]; [by left|]. right. by destruct current.
Qed.

(** A text that starts with a block that is not empty makes at least one
    chunk. *)
Lemma split_chunks_nonempty msg_limit line text_lines :
  line ≠ [] → split_chunks msg_limit (line :: text_lines) ≠ [].
Proof.
  intros Hline. unfold split_chunks. simpl.
  destruct (chunk_step_nonempty msg_limit text_lines
              (chunk_step msg_limit ([], []) line)) as [H|H].
  - unfold chunk_step. simpl. destruct (msg_limit <? _)%nat; simpl; [by left|].
    by right.
  - destruct (fold_left _ _ _) as [chunks current]. simpl in *.
    destruct (is_empty current); [done | by destruct chunks].
  - destruct (fold_left _ _ _) as [chunks current]. simpl in *.
    destruct current; [done | by destruct chunks].
Qed.

Lemma by_number_nil snap :
  Forall (fun s => ¬ has_class_number s) snap → by_number snap = [].
Proof.
  intros Hnone. rewrite by_number_filter.
  replace (filter has_class_number snap) with (@nil section); [done|].
  symmetry. induction Hnone as [|s l Hs _ IH]; [done|].
  by rewrite filter_cons_False.
Qed.

Lemma by_number_not_nil snap :
  Exists has_class_number snap → by_number snap ≠ [].
Proof.
  intros Hsome Hnil. apply Exists_exists in Hsome as (s & Hin & [n Hn]).
  assert (is_Some (latest snap (dict_key n))) as [s' Hs'].
  { unfold latest. apply last_is_Some. intros Hfilter.
    assert (s ∈ filter (fun s0 => class_key s0 = Some (dict_key n)) snap) as Hs.
    { apply list_elem_of_filter. split; [|done].
      unfold class_key. by rewrite Hn. }
    rewrite Hfilter in Hs. by apply elem_of_nil in Hs. }
  apply by_number_elem in Hs'. rewrite Hnil in Hs'. by apply elem_of_nil in Hs'.
Qed.

(** The diff against no previous snapshot. *)
Lemma diff_courses_first current : diff_courses [] current = all_added current.
Proof.
  unfold diff_courses, all_added.
  change (by_number []) with (@nil (value * section)).
  rewrite not_in_nil_r. f_equal. by apply omap_none; intros [k s] _.
Qed.

Lemma any_changes_first current :
  any_changes (all_added current) = negb (is_empty (by_number current)).
Proof.
  unfold any_changes, all_added, PyDict.values. simpl.
  by destruct (by_number current).
Qed.

(** *** Rendering a list of records *)

Lemma renders_dec f s : renders f s ∨ ¬ renders f s.
Proof.
  unfold renders. destruct (f s) as [text|e].
  - left. by exists text.
  - right. by intros [text ?].
Qed.

Lemma format_all_Ret f l :
  Forall (renders f) l → ∃ texts, format_all f l = Ret texts.
Proof.
  induction 1 as [|s l [text Hs] _ [texts IH]]; cbn [format_all].
  - by eexists.
  - rewrite Hs, IH. by eexists.
Qed.

Lemma format_all_Raise f l e :
  format_all f l = Raise e → ∃ s, s ∈ l ∧ f s = Raise e.
Proof.
  induction l as [|s l IH]; cbn [format_all]; [done|].
  destruct (f s) as [text|e'] eqn:Hs.
  - destruct (format_all f l) as [texts|e'']; [done|].
    intros [= ->]. destruct (IH eq_refl) as (s' & Hin & Hs').
    exists s'. split; [by right | done].
  - intros [= ->]. exists s. split; [left | done].
Qed.

Lemma format_all_fails f l :
  Exists (fun s => ¬ renders f s) l → ∃ e, format_all f l = Raise e.
Proof.
  induction 1 as [s l Hs|s l _ [e IH]]; cbn [format_all].
  - destruct (f s) as [text|e] eqn:Hfs.
    + destruct Hs. by exists text.
    + by exists e.
  - destruct (f s) as [text|e']; [|by eexists]. rewrite IH. by eexists.
Qed.

(** What the composer raises. *)
Lemma compose_update_lines_raises fmt course c suffix e :
  compose_update_lines fmt course c suffix = Raise e →
  e = TypeError ∨ ∃ s, fmt s = Raise e.
Proof.
  unfold compose_update_lines.
  destruct (is_empty (added c)).
  - destruct (is_empty (removed c)).
    + destruct (is_empty (enrollment c)); [done|].
      destruct (sorted_changes _); [done|]. intros [= <-]. by left.
    + destruct (format_all fmt (removed c)) as [texts|e'] eqn:Hr.
      * destruct (is_empty (enrollment c)); [done|].
        destruct (sorted_changes _); [done|]. intros [= <-]. by left.
      * intros [= ->]. right.
        destruct (format_all_Raise _ _ _ Hr) as (s & _ & Hs). by exists s.
  - destruct (format_all fmt (added c)) as [texts|e'] eqn:Ha.
    2:{ intros [= ->]. right.
        destruct (format_all_Raise _ _ _ Ha) as (s & _ & Hs). by exists s. }
    destruct (is_empty (removed c)).
    + destruct (is_empty (enrollment c)); [done|].
      destruct (sorted_changes _); [done|]. intros [= <-]. by left.
    + destruct (format_all fmt (removed c)) as [texts'|e'] eqn:Hr.
      * destruct (is_empty (enrollment c)); [done|].
        destruct (sorted_changes _); [done|]. intros [= <-]. by left.
      * intros [= ->]. right.
        destruct (format_all_Raise _ _ _ Hr) as (s & _ & Hs). by exists s.
Qed.

(** The update text of a diff that only adds sections: the title line,
    the heading of the added sections and their texts, or the exception
    of the first of them that cannot be rendered. *)
Lemma compose_update_lines_added fmt course c suffix :
  added c ≠ [] → removed c = [] → enrollment c = [] →
  compose_update_lines fmt course c suffix
  = match format_all fmt (added c) with
    | Ret texts =>
        Ret ((py "*Updates for " ++ course ++ suffix ++ py "* " ++ [128226%N])
             :: ([10%N] ++ py "*" ++ [127381%N] ++ py " New sections added*")
             :: texts)
    | Raise e => Raise e
    end.
Proof.
  intros Hadded Hremoved Henr. unfold compose_update_lines.
  rewrite Hremoved, Henr. cbn [is_empty].
  destruct (added c) as [|s l]; [done|]. cbn [is_empty].
  by destruct (format_all fmt (s :: l)).
Qed.

(** The update step of an item that has no previous snapshot, after a
    fetch that returned [current]. *)
Lemma process_course_updates_first E info previous w w1 current :
  previous !! get_data_key info = None →
  fetch_and_filter_data E (ti_course info) (student_id info)
    (item_filter info) true w = (Ret (Some current), w1) →
  process_course_updates E info previous w
  = if is_empty (by_number current) then (Ret (Some current), w1)
    else
      match compose_update_lines (format_section E) (ti_course info)
              (all_added current) (title_suffix info) with
      | Ret lines =>
          match send_long_message E (chat_id info) lines (update_title info) w1
          with
          | (Ret _, w2) => (Ret (Some current), w2)
          | (Raise e, w2) => (Raise e, w2)
          end
      | Raise e => (Raise e, w1)
      end.
Proof.
  intros Hprev Hfetch. unfold process_course_updates, item_filter in *.
  rewrite Hprev. simpl. unfold_M. rewrite Hfetch. simpl.
  rewrite diff_courses_first, any_changes_first.
  destruct (is_empty (by_number current)); simpl; [done|].
  unfold update_title.
  destruct (compose_update_lines _ _ _ _) as [lines|e]; [|done].
  by destruct (send_long_message E _ _ _ w1) as [[[]|e] w2].
Qed.

(** The loop body after the update step of an item returned. *)
Lemma process_item_unfold E info w prefs :
  PyDict.get (chat_id info) (w_subscriptions w) = Some prefs →
  process_item E info w
  = match process_course_updates E info (previous_data prefs) w with
    | (Ret (Some data), w') =>
        (Ret tt,
         mkWorld (w_cache w') (w_clock_reads w') (w_requests w') (w_sends w')
           (PyDict.set (chat_id info)
              (store_previous prefs (get_data_key info) data)
              (w_subscriptions w'))
           (w_saves w'))
    | (Ret None, w') => (Ret tt, w')
    | (Raise e, w') => (Raise e, w')
    end.
Proof.
  intros Hprefs. unfold process_item. unfold_M. rewrite Hprefs.
  by destruct (process_course_updates E info (previous_data prefs) w)
    as [[[data|]|e] w'].
Qed.

(** C1, as the claim states it, fails: a subscriber without previous
    snapshot tracks CSOPESY, the first fetch of a cycle returns two
    sections, and the cycle sends the subscriber a message (and stores
    the snapshot). *)
Lemma first_fetch_notifies :
  (∃ text,
      w_sends (broadcast_updates env_up (world_of (new_cache 60) new_subscriber)).2
      = [(7, text, true)])
  ∧ (previous_data <$>
       PyDict.get 7
         (w_subscriptions
            (broadcast_updates env_up (world_of (new_cache 60) new_subscriber)).2))
    = Some {[ py "CSOPESY" := labels_new ]}.
Proof.
  split; [eexists|]; vm_compute; reflexivity.
Qed.

(** C1, as the code has it.  For every subscriber and tracked item with
    no previous snapshot under the item's data key, the loop body of a
    broadcast cycle diffs the first successful fetch against the empty
    snapshot.  When no fetched record carries a class number nothing is
    sent and the snapshot is stored as the baseline.  Otherwise, when
    [format_section] renders every indexed section, the update text
    that lists them all as added is composed and its first message is
    handed to the bot for the subscriber; the snapshot is stored as the
    baseline whenever the loop body returns, which it does when the bot
    delivers, all messages then being sent.  When [format_section]
    raises on an indexed section, the loop body raises what it raised on
    one of them, and nothing is sent and nothing is stored. *)
Theorem first_fetch_is_reported (E : env) (w w1 : world) (info : TrackingInfo)
    (prefs : UserPreferences) (current : snapshot)
    (Hprefs : PyDict.get (chat_id info) (w_subscriptions w) = Some prefs)
    (Hnew : previous_data prefs !! get_data_key info = None)
    (Hfetch : fetch_and_filter_data E (ti_course info) (student_id info)
                (item_filter info) true w = (Ret (Some current), w1)) :
  let out := process_item E info w in
  let stored :=
    PyDict.get (chat_id info) (w_subscriptions out.2)
    = Some (store_previous prefs (get_data_key info) current) in
  let indexed := PyDict.values (by_number current) in
  (Forall (fun s => ¬ has_class_number s) current →
   out.1 = Ret tt ∧ w_sends out.2 = w_sends w ∧ stored)
  ∧ (Exists has_class_number current →
     Forall (renders (format_section E)) indexed →
     ∃ lines,
       compose_update_lines (format_section E) (ti_course info)
         (all_added current) (title_suffix info) = Ret lines
       ∧ (∃ first ok rest,
             head (messages (MAX_TEXT_LENGTH E) lines (update_title info))
             = Some first
             ∧ w_sends out.2 = w_sends w ++ (chat_id info, first, ok) :: rest)
       ∧ (out.1 = Ret tt → stored)
       ∧ ((∀ k c t, telegram E k c t = true) →
          out.1 = Ret tt ∧ stored
          ∧ w_sends out.2
            = w_sends w
              ++ map (fun m => (chat_id info, m, true))
                     (messages (MAX_TEXT_LENGTH E) lines (update_title info))))
  ∧ (Exists (fun s => ¬ renders (format_section E) s) indexed →
     ∃ e s,
       out.1 = Raise e
       ∧ s ∈ indexed
       ∧ format_section E s = Raise e
       ∧ w_sends out.2 = w_sends w
       ∧ w_subscriptions out.2 = w_subscriptions w).
Proof.
  intros out stored indexed. unfold stored, out, indexed.
  clear stored out indexed.
  rewrite (process_item_unfold E info w prefs Hprefs).
  rewrite (process_course_updates_first E info _ w w1 current Hnew Hfetch).
  pose proof (fetch_and_filter_data_frame E (ti_course info) (student_id info)
                (item_filter info) true w) as Hframe.
  rewrite Hfetch in Hframe. simpl in Hframe.
  destruct Hframe as (Hsends1 & Hsubs1 & _).
  split_and!.
  - intros Hnone. rewrite (by_number_nil current Hnone). simpl.
    split_and!; [done..|]. apply PyDictFacts.get_set_eq.
  - intros Hsome Hrenders. apply by_number_not_nil in Hsome.
    destruct (format_all_Ret _ _ Hrenders) as [texts Htexts].
    assert (added (all_added current) ≠ []) as Hadded.
    { unfold all_added, PyDict.values. cbn [added].
      by destruct (by_number current). }
    rewrite (compose_update_lines_added (format_section E) (ti_course info)
               (all_added current) (title_suffix info) Hadded eq_refl eq_refl).
    cbn [added all_added]. rewrite Htexts.
    destruct (by_number current) as [|p idx] eqn:Hidx; [done|].
    simpl is_empty. cbv iota.
    eexists. split; [done|].
    unfold send_long_message, messages.
    set (title_line := py "*Updates for " ++ _) in *.
    set (more := _ :: texts).
    assert (title_line ≠ []) as Htitle.
    { unfold title_line. done. }
    pose proof (split_chunks_nonempty (MAX_TEXT_LENGTH E) title_line more Htitle)
      as Hchunks.
    destruct (split_chunks (MAX_TEXT_LENGTH E) (title_line :: more))
      as [|chunk chunks] eqn:Hsplit; [done|].
    set (n := length (chunk :: chunks)).
    destruct (send_chunks_attempt E (chat_id info) (update_title info) n chunk
                chunks 1 w1) as [rest Hattempt].
    destruct (send_chunks_frame E (chat_id info) (update_title info) n
                (chunk :: chunks) 1 w1) as (Hsubs2 & _ & _ & _ & _).
    pose proof (send_chunks_delivered E (chat_id info) (update_title info) n
                  (chunk :: chunks) 1 w1) as Hdelivered.
    destruct (send_chunks E (chat_id info) (update_title info) n 1
                (chunk :: chunks) w1) as [[[]|e] w2] eqn:Hsend;
      simpl in Hattempt, Hsubs2, Hdelivered |- *.
    + split_and!.
      * eexists _, _, rest. split; [done|]. by rewrite <- Hsends1.
      * intros _. apply PyDictFacts.get_set_eq.
      * intros Hup. destruct (Hdelivered Hup) as [_ Hall].
        split_and!; [done | apply PyDictFacts.get_set_eq|].
        rewrite Hall, Hsends1. f_equal. rewrite fmap_imap. done.
    + split_and!.
      * eexists _, _, rest. split; [done|]. by rewrite <- Hsends1.
      * done.
      * intros Hup. by destruct (Hdelivered Hup) as [? _].
  - intros Hfails.
    destruct (format_all_fails _ _ Hfails) as [e He].
    destruct (format_all_Raise _ _ _ He) as (s & Hin & Hs).
    assert (added (all_added current) ≠ []) as Hadded.
    { unfold all_added. cbn [added]. intros Hnil. rewrite Hnil in Hin.
      by apply elem_of_nil in Hin. }
    rewrite (compose_update_lines_added (format_section E) (ti_course info)
               (all_added current) (title_suffix info) Hadded eq_refl eq_refl).
    cbn [added all_added]. rewrite He.
    exists e, s.
    destruct (by_number current) as [|p idx] eqn:Hidx.
    { by apply elem_of_nil in Hin. }
    cbn [is_empty fst snd]. done.
Qed.

(** The statement of [first_fetch_is_reported] on the subscriber of
    [new_subscriber]: with the two sections of [labels_new] the update
    is sent and the snapshot stored; with a record whose [meetings] is
    [null] the loop body raises [TypeError], sends nothing and stores
    nothing. *)
Lemma first_fetch_is_reported_witness :
  ((process_item env_up csopesy_item (world_of (new_cache 60) new_subscriber)).1
   = Ret tt
   ∧ PyDict.get 7
       (w_subscriptions
          (process_item env_up csopesy_item
             (world_of (new_cache 60) new_subscriber)).2)
     = Some (store_previous (mkPrefs (py "12345678") [py "CSOPESY"] [] ∅)
               (py "CSOPESY") labels_new)
   ∧ ∃ lines,
       compose_update_lines Formatter.format_section (py "CSOPESY")
         (all_added labels_new) []
       = Ret lines
       ∧ w_sends
           (process_item env_up csopesy_item
              (world_of (new_cache 60) new_subscriber)).2
         = map (fun m => (7, m, true))
               (messages 4096 lines (py "Updates for CSOPESY")))
  ∧ ((process_item env_unrenderable csopesy_item
        (world_of (new_cache 60) new_subscriber)).1
     = Raise TypeError
     ∧ w_sends
         (process_item env_unrenderable csopesy_item
            (world_of (new_cache 60) new_subscriber)).2
       = []
     ∧ w_subscriptions
         (process_item env_unrenderable csopesy_item
            (world_of (new_cache 60) new_subscriber)).2
       = new_subscriber).
Proof.
  split.
  - destruct (first_fetch_is_reported env_up
                (world_of (new_cache 60) new_subscriber)
                (fetch_and_filter_data env_up (py "CSOPESY") (py "12345678")
                   None true (world_of (new_cache 60) new_subscriber)).2
                csopesy_item (mkPrefs (py "12345678") [py "CSOPESY"] [] ∅)
                labels_new)
      as (_ & Hsome & _).
    + vm_compute. reflexivity.
    + vm_compute. reflexivity.
    + vm_compute. reflexivity.
    + destruct Hsome as (lines & Hlines & _ & _ & Hup).
      { apply Exists_cons_hd. vm_compute. by eexists. }
      { repeat constructor; eexists; vm_compute; reflexivity. }
      destruct (Hup (fun _ _ _ => eq_refl)) as (Hret & Hstored & Hsends).
      split_and!; [exact Hret | exact Hstored |].
      exists lines. split; [exact Hlines | exact Hsends].
  - destruct (first_fetch_is_reported env_unrenderable
                (world_of (new_cache 60) new_subscriber)
                (fetch_and_filter_data env_unrenderable (py "CSOPESY")
                   (py "12345678") None true
                   (world_of (new_cache 60) new_subscriber)).2
                csopesy_item (mkPrefs (py "12345678") [py "CSOPESY"] [] ∅)
                unrenderable)
      as (_ & _ & Hfails).
    + vm_compute. reflexivity.
    + vm_compute. reflexivity.
    + vm_compute. reflexivity.
    + destruct Hfails as (e & s & Hret & Hin & Hs & Hsends & Hsubs).
      { apply Exists_cons_hd. intros [text Htext]. vm_compute in Htext.
        discriminate Htext. }
      split_and!; [|exact Hsends | exact Hsubs].
      rewrite Hret. f_equal.
      apply list_elem_of_singleton in Hin. subst s.
      vm_compute in Hs. by injection Hs as <-.
Defined.

(** *** Where a failure goes *)

(** A block met by the update step of an item comes back as "no data",
    as every other failure of the fetch does: the loop over the items
    is told nothing about it. *)
Lemma process_course_updates_block E info previous w w1 :
  fetch_and_filter_data E (ti_course info) (student_id info)
    (item_filter info) true w = (Raise CloudflareBlockedError, w1) →
  process_course_updates E info previous w = (Ret None, w1).
Proof.
  intros Hfetch. unfold process_course_updates, item_filter in *.
  unfold_M. by rewrite Hfetch.
Qed.

(** From the second chunk on, a failed send ends the loop and nothing
    more. *)
Lemma send_chunks_later E chat title n chunks : ∀ idx w,
  (2 ≤ idx)%nat → (send_chunks E chat title n idx chunks w).1 = Ret tt.
Proof.
  induction chunks as [|chunk chunks IH]; intros idx w Hidx; simpl; [done|].
  unfold_M. simpl. destruct (telegram E _ chat _); simpl.
  - apply IH. lia.
  - by rewrite (proj2 (Nat.eqb_neq idx 1)) by lia.
Qed.

(** The sending wrapper raises exactly when the send of the first chunk
    fails and the send of the error text that follows it fails too. *)
Lemma send_long_message_raises E chat text_lines title w e :
  (send_long_message E chat text_lines title w).1 = Raise e ↔
  e = TelegramError
  ∧ ∃ chunk rest,
      split_chunks (MAX_TEXT_LENGTH E) text_lines = chunk :: rest
      ∧ telegram E (length (w_sends w)) chat
          (full_message title (length (chunk :: rest)) 1 chunk) = false
      ∧ telegram E (S (length (w_sends w))) chat (error_text title) = false.
Proof.
  unfold send_long_message.
  destruct (split_chunks (MAX_TEXT_LENGTH E) text_lines) as [|chunk rest].
  { simpl. split; [done|]. by intros (_ & ? & ? & ? & _). }
  set (n := length (chunk :: rest)). simpl. unfold_M. simpl.
  destruct (telegram E (length (w_sends w)) chat _) eqn:Hfirst; simpl.
  - rewrite send_chunks_later by lia. split; [done|].
    intros (_ & c & r & [= <- <-] & Hfail & _). unfold n in Hfirst.
    simpl in Hfirst. congruence.
  - rewrite length_app. simpl. rewrite Nat.add_1_r.
    destruct (telegram E (S (length (w_sends w))) chat _) eqn:Hsecond; simpl.
    + split; [done|]. intros (_ & c & r & _ & _ & ?). congruence.
    + split.
      * intros [= <-]. split; [done|]. by exists chunk, rest.
      * by intros [-> _].
Qed.

(** C2 on a failing input.  Subscriber 7 tracks three courses and the
    scraper answers the second request of the cycle with the status of a
    block: the cycle still asks the scraper for the third course of
    subscriber 7 before it goes on to subscriber 8. *)
Theorem blocked_subscriber_keeps_fetching :
  (broadcast_updates env_blocked_once
     (world_of (new_cache 60) two_subscribers)).1 = Ret tt
  ∧ w_requests
      (broadcast_updates env_blocked_once
         (world_of (new_cache 60) two_subscribers)).2
    = [(py "CCPROG1", py "12345678"); (py "CSOPESY", py "12345678");
       (py "STALGCM", py "12345678"); (py "CSARCH2", py "87654321")].
Proof. split; vm_compute; reflexivity. Qed.

(** C9 on a failing input.  The subscriber has [labels_old] as previous
    snapshot, the fetch returns [labels_new], and the bot fails every
    send: the send of the first chunk is caught, the send of the error
    text that answers it is not, the cycle ends with that exception, the
    previous snapshot is still [labels_old] and the store is not saved. *)
Theorem delivery_failure_aborts_cycle :
  (broadcast_updates env_bot_down (world_of (new_cache 60) old_subscriber)).1
  = Raise TelegramError
  ∧ map (fun a => (a.1.1, a.2))
        (w_sends
           (broadcast_updates env_bot_down
              (world_of (new_cache 60) old_subscriber)).2)
    = [(7, false); (7, false)]
  ∧ (previous_data <$>
       PyDict.get 7
         (w_subscriptions
            (broadcast_updates env_bot_down
               (world_of (new_cache 60) old_subscriber)).2))
    = Some {[ py "CSOPESY" := labels_old ]}
  ∧ w_saves
      (broadcast_updates env_bot_down
         (world_of (new_cache 60) old_subscriber)).2 = 0%nat.
Proof. split_and!; vm_compute; reflexivity. Qed.

(** * Further properties of the code *)

(** ** The cache, as its clients use it *)

(** [set] then [get], whatever the cache held before, for a TTL of at
    most [2 ** 34] seconds: within the TTL the data just stored comes
    back and a hit is counted; from the TTL on nothing comes back and a
    miss is counted. *)
Theorem cache_set_get (c : CacheService) (stored now : Z)
    (course student_id : str) (data : snapshot)
    (Httl : exact_ttl (max_age_seconds c)) :
  let c1 := cache_set c stored course student_id data in
  (now - stored < max_age_seconds c * 1000000 →
   (cache_get c1 now course student_id).1 = Some data
   ∧ hits (cache_get c1 now course student_id).2 = S (hits c)
   ∧ misses (cache_get c1 now course student_id).2 = misses c)
  ∧ (max_age_seconds c * 1000000 ≤ now - stored →
     (cache_get c1 now course student_id).1 = None
     ∧ hits (cache_get c1 now course student_id).2 = hits c
     ∧ misses (cache_get c1 now course student_id).2 = S (misses c)).
Proof.
  intros c1. unfold c1, cache_get, cache_set.
  cbn [cache max_age_seconds hits misses].
  rewrite lookup_insert_eq, (is_valid_exact _ _ now Httl).
  unfold under_ttl. cbn [ce_timestamp ce_data]. split; intros Hage.
  - by rewrite bool_decide_eq_true_2.
  - by rewrite bool_decide_eq_false_2 by lia.
Qed.

Lemma cache_set_get_witness :
  (cache_get (cache_set (new_cache 60) 5 (py "CSOPESY") (py "12345678")
                labels_new) 1000 (py "CSOPESY") (py "12345678")).1
  = Some labels_new
  ∧ (cache_get (cache_set (new_cache 60) 5 (py "CSOPESY") (py "12345678")
                  labels_new) 60000005 (py "CSOPESY") (py "12345678")).1
    = None.
Proof.
  assert (exact_ttl (max_age_seconds (new_cache 60))) as Httl
    by (unfold exact_ttl; vm_compute; split; discriminate).
  split.
  - apply (proj1 (cache_set_get (new_cache 60) 5 1000 (py "CSOPESY")
                    (py "12345678") labels_new Httl)). simpl. lia.
  - apply (proj2 (cache_set_get (new_cache 60) 5 60000005 (py "CSOPESY")
                    (py "12345678") labels_new Httl)). simpl. lia.
Defined.

Lemma split_at_colon (a b a' b' : str) :
  58%N ∉ a → 58%N ∉ a' →
  a ++ 58%N :: b = a' ++ 58%N :: b' → a = a' ∧ b = b'.
Proof.
  revert a'. induction a as [|x a IH]; intros [|x' a'] Ha Ha' Heq; simpl in *.
  - by injection Heq as ->.
  - injection Heq as <- _. exfalso. apply Ha'. left.
  - injection Heq as -> _. exfalso. apply Ha. left.
  - injection Heq as -> Heq.
    apply not_elem_of_cons in Ha as [_ Ha].
    apply not_elem_of_cons in Ha' as [_ Ha'].
    by destruct (IH a' Ha Ha' Heq) as [-> ->].
Qed.

(** Two requests share a cache key only when they are the same request,
    as long as the course codes hold no colon; a [set] for one request
    then leaves what [get] returns for any other request as it was. *)
Theorem cache_keys_apart (c : CacheService) (stored now : Z)
    (course student_id course' student_id' : str) (data : snapshot) :
  58%N ∉ course → 58%N ∉ course' →
  (course, student_id) ≠ (course', student_id') →
  get_cache_key course student_id ≠ get_cache_key course' student_id'
  ∧ (cache_get (cache_set c stored course student_id data) now
       course' student_id').1
    = (cache_get c now course' student_id').1.
Proof.
  intros Hc Hc' Hne.
  assert (get_cache_key course student_id ≠ get_cache_key course' student_id')
    as Hkeys.
  { unfold get_cache_key. intros Heq. apply Hne.
    change (py ":") with [58%N] in Heq. simpl in Heq.
    by destruct (split_at_colon _ _ _ _ Hc Hc' Heq) as [-> ->]. }
  split; [done|]. unfold cache_get, cache_set. simpl.
  rewrite lookup_insert_ne by done.
  destruct (cache c !! _) as [e|]; [|done]. by destruct (is_valid _ _ _).
Qed.

Lemma cache_keys_apart_witness :
  get_cache_key (py "CSARCH2") (py "12345678")
  ≠ get_cache_key (py "CSOPESY") (py "12345678")
  ∧ (cache_get (cache_set sample_cache 7 (py "CSARCH2") (py "12345678") [])
       9 (py "CSOPESY") (py "12345678")).1
    = (cache_get sample_cache 9 (py "CSOPESY") (py "12345678")).1.
Proof.
  apply (cache_keys_apart sample_cache 7 9 (py "CSARCH2") (py "12345678")
           (py "CSOPESY") (py "12345678") []).
  - vm_compute. set_solver.
  - vm_compute. set_solver.
  - intros Heq. vm_compute in Heq. discriminate Heq.
Defined.

(** The number of [get] calls of a history. *)
Lemma run_op_counters c op :
  (hits (run_op c op) + misses (run_op c op)
   = hits c + misses c + match op with OpGet _ _ _ => 1 | _ => 0 end)%nat
  ∧ max_age_seconds (run_op c op) = max_age_seconds c.
Proof.
  destruct op as [now course sid|now course sid data]; simpl.
  - unfold cache_get. destruct (cache c !! _) as [e|]; simpl; [|lia].
    destruct (is_valid _ _ _); simpl; lia.
  - lia.
Qed.

(** Over any history of [get] and [set] calls, every [get] is counted
    once, as a hit or as a miss, a [set] is counted as neither, and the
    TTL stays the one the cache was made with. *)
Theorem cache_counters (c : CacheService) (ops : list cache_op) :
  (hits (run_ops c ops) + misses (run_ops c ops)
   = hits c + misses c
     + length (List.filter (fun op => match op with
                                      | OpGet _ _ _ => true
                                      | OpSet _ _ _ _ => false
                                      end) ops))%nat
  ∧ max_age_seconds (run_ops c ops) = max_age_seconds c.
Proof.
  revert c. induction ops as [|op ops IH]; intros c.
  { simpl. split; [lia | done]. }
  change (run_ops c (op :: ops)) with (run_ops (run_op c op) ops).
  destruct (IH (run_op c op)) as [IHc IHa].
  destruct (run_op_counters c op) as [Hc Ha].
  rewrite IHc, IHa, Ha. split; [|done]. destruct op; simpl in *; lia.
Qed.

(** ** The fetcher: failures and repeated requests *)

Lemma cache_get_m_max_age E course id_no w :
  max_age_seconds (w_cache (cache_get_m E course id_no w).2)
  = max_age_seconds (w_cache w).
Proof.
  unfold cache_get_m. unfold_M. simpl.
  destruct (cache (w_cache w) !! get_cache_key course id_no) as [e|] eqn:Hkey;
    simpl; unfold cache_get; rewrite Hkey; [|done].
  by destruct (is_valid _ _ _).
Qed.

(** What the fetch from the scraper does with each reply. *)
Lemma fetch_from_scraper_reply E course id_no w :
  let reply := scraper_api E (length (w_requests w)) course id_no in
  let out := fetch_from_scraper E course id_no w in
  ((∃ body, reply = HttpResponse 503 body) →
   out.1 = Raise CloudflareBlockedError)
  ∧ ((∀ body, reply ≠ HttpResponse 503 body) →
     (∀ data, reply ≠ HttpResponse 200 (Some data)) →
     ∃ e, out.1 = Raise e ∧ e ≠ CloudflareBlockedError)
  ∧ ((∀ data, reply ≠ HttpResponse 200 (Some data)) →
     cache (w_cache out.2) = cache (w_cache w))
  ∧ (∀ data, reply = HttpResponse 200 (Some data) →
     CACHE_ENABLED E = true →
     out
     = (Ret data,
        mkWorld (cache_set (w_cache w) (clock E (w_clock_reads w)) course
                   id_no data)
          (S (w_clock_reads w)) (w_requests w ++ [(course, id_no)])
          (w_sends w) (w_subscriptions w) (w_saves w))).
Proof.
  unfold fetch_from_scraper, cache_set_m. unfold_M. simpl.
  destruct (scraper_api E _ course id_no) as [status [data|]| | |] eqn:Hreply;
    simpl;
    repeat match goal with
           | |- context [Z.eqb ?a ?b] => destruct (Z.eqb_spec a b); simpl
           end;
    try subst status;
    (split_and!;
     [ intros [body Hbody]; by simplify_eq
     | intros Hno503 Hno200;
       first [ by (exfalso; eapply Hno503) | by (exfalso; eapply Hno200)
             | by eexists ]
     | intros Hno200; first [ done | by (exfalso; eapply Hno200) ]
     | intros data' Hdata Hon; simplify_eq; by rewrite ?Hon ]).
Qed.

(** A request that the cache does not serve goes to the scraper, from a
    world that differs only in the counters and the clock. *)
Lemma fetch_course_data_miss E course id_no use_cache w :
  use_cache && CACHE_ENABLED E = false
  ∨ valid_entry (w_cache w) (clock E (w_clock_reads w)) course id_no = None →
  ∃ w1,
    fetch_course_data E course id_no use_cache w
    = fetch_from_scraper E course id_no w1
    ∧ w_requests w1 = w_requests w
    ∧ cache (w_cache w1) = cache (w_cache w)
    ∧ max_age_seconds (w_cache w1) = max_age_seconds (w_cache w)
    ∧ w_sends w1 = w_sends w
    ∧ w_subscriptions w1 = w_subscriptions w
    ∧ w_saves w1 = w_saves w.
Proof.
  intros Hmiss. unfold fetch_course_data.
  destruct (use_cache && CACHE_ENABLED E) eqn:Hcaching; [|by exists w].
  destruct Hmiss as [|Hnone]; [done|].
  destruct (cache_get_m_spec E course id_no w)
    as (Hret & Hcache & Hreq & Hsends & Hsubs & Hsaves).
  pose proof (cache_get_m_max_age E course id_no w) as Hage.
  rewrite Hnone in Hret. unfold_M.
  destruct (cache_get_m E course id_no w) as [r w1]. simpl in *. subst r.
  by exists w1.
Qed.

(** A request that the cache serves. *)
Lemma fetch_and_filter_data_hit E course id_no class_numbers use_cache w e :
  use_cache && CACHE_ENABLED E = true →
  valid_entry (w_cache w) (clock E (w_clock_reads w)) course id_no = Some e →
  (fetch_and_filter_data E course id_no class_numbers use_cache w).1
  = Ret (Some (filter_sections class_numbers (ce_data e)))
  ∧ w_requests (fetch_and_filter_data E course id_no class_numbers use_cache w).2
    = w_requests w.
Proof.
  intros Hcaching Hvalid. unfold fetch_and_filter_data, fetch_course_data.
  rewrite Hcaching.
  destruct (cache_get_m_spec E course id_no w) as (Hret & _ & Hreq & _).
  rewrite Hvalid in Hret.
  unfold_M. destruct (cache_get_m E course id_no w) as [r w1].
  simpl in *. by subst r.
Qed.

(** The failures of a fetch.  The only exception that leaves
    [fetch_and_filter_data] is the block.  When the cache does not serve
    the request: an answer with status 503 raises the block, every
    other answer that is not a 200 with a JSON body (another status, a
    body that does not parse, a timeout, a connection or client error)
    gives "no data", and in both cases the cache keeps exactly the
    entries it had. *)
Theorem fetch_and_filter_data_failures (E : env) (w : world)
    (course id_no : str) (class_numbers : option (list Z)) (use_cache : bool) :
  let reply := scraper_api E (length (w_requests w)) course id_no in
  let out := fetch_and_filter_data E course id_no class_numbers use_cache w in
  (∀ e, out.1 = Raise e → e = CloudflareBlockedError)
  ∧ (use_cache && CACHE_ENABLED E = false
     ∨ valid_entry (w_cache w) (clock E (w_clock_reads w)) course id_no = None →
     ((∃ body, reply = HttpResponse 503 body) →
      out.1 = Raise CloudflareBlockedError)
     ∧ ((∀ body, reply ≠ HttpResponse 503 body) →
        (∀ data, reply ≠ HttpResponse 200 (Some data)) →
        out.1 = Ret None)
     ∧ ((∀ data, reply ≠ HttpResponse 200 (Some data)) →
        cache (w_cache out.2) = cache (w_cache w))).
Proof.
  intros reply out. split.
  - intros e. unfold out, fetch_and_filter_data. unfold_M.
    destruct (fetch_course_data E course id_no use_cache w) as [[data|e'] w'];
      simpl; [done|]. destruct e'; simpl; intros [= <-] || done; done.
  - intros Hmiss.
    destruct (fetch_course_data_miss E course id_no use_cache w Hmiss)
      as (w1 & Hfetch & Hreq & Hcache & _).
    destruct (fetch_from_scraper_reply E course id_no w1)
      as (H503 & Hother & Hkeep & _).
    rewrite Hreq in H503, Hother, Hkeep. fold reply in H503, Hother, Hkeep.
    unfold out, fetch_and_filter_data. unfold_M. rewrite Hfetch.
    destruct (fetch_from_scraper E course id_no w1) as [r w'] eqn:Hf.
    simpl in *. split_and!.
    + intros Hblock. by rewrite (H503 Hblock).
    + intros Hno503 Hno200.
      destruct (Hother Hno503 Hno200) as (e & -> & He). by destruct e.
    + intros Hno200. rewrite <- Hcache, <- (Hkeep Hno200).
      destruct r as [data|e]; [done | by destruct e].
Qed.

Lemma fetch_and_filter_data_failures_witness :
  (fetch_and_filter_data
     (sample_env true scraper_blocked bot_up)
     (py "CSOPESY") (py "12345678") None true
     (world_of (new_cache 60) [])).1
  = Raise CloudflareBlockedError
  ∧ (fetch_and_filter_data
       (sample_env true (fun _ _ _ => HttpTimeout) bot_up)
       (py "CSOPESY") (py "12345678") None true
       (world_of (new_cache 60) [])).1
    = Ret None.
Proof.
  split.
  - apply (proj2 (fetch_and_filter_data_failures
                    (sample_env true scraper_blocked bot_up)
                    (world_of (new_cache 60) [])
                    (py "CSOPESY") (py "12345678") None true)).
    + right. reflexivity.
    + by exists None.
  - apply (proj2 (fetch_and_filter_data_failures
                    (sample_env true (fun _ _ _ => HttpTimeout) bot_up)
                    (world_of (new_cache 60) [])
                    (py "CSOPESY") (py "12345678") None true)).
    + right. reflexivity.
    + intros body Hreply. discriminate Hreply.
    + intros data Hreply. discriminate Hreply.
Defined.

(** Two requests in a row for one course and identity, caching on, the
    TTL being at most [2 ** 34] seconds.  When the first is not served
    by the cache and the scraper answers it with a snapshot, and the
    clock at the second lookup is less than the TTL after the clock at
    which the entry was written, the second request asks the scraper
    nothing and returns that snapshot under its own filter, whichever
    filters the two requests carry. *)
Theorem fetch_twice (E : env) (w : world) (course id_no : str)
    (first second : option (list Z)) (data : snapshot)
    (Httl : exact_ttl (max_age_seconds (w_cache w)))
    (Henabled : CACHE_ENABLED E = true)
    (Hmiss : valid_entry (w_cache w) (clock E (w_clock_reads w)) course id_no
             = None)
    (Hreply : scraper_api E (length (w_requests w)) course id_no
              = HttpResponse 200 (Some data)) :
  let w1 := (fetch_and_filter_data E course id_no first true w).2 in
  clock E (w_clock_reads w1) - clock E (pred (w_clock_reads w1))
  < max_age_seconds (w_cache w) * 1000000 →
  (fetch_and_filter_data E course id_no second true w1).1
  = Ret (Some (filter_sections second data))
  ∧ w_requests (fetch_and_filter_data E course id_no second true w1).2
    = w_requests w ++ [(course, id_no)].
Proof.
  intros w1 Hfresh.
  destruct (fetch_course_data_miss E course id_no true w (or_intror Hmiss))
    as (w0 & Hfetch & Hreq & Hcache & Hage & _).
  destruct (fetch_from_scraper_reply E course id_no w0) as (_ & _ & _ & Hstore).
  rewrite Hreq in Hstore. specialize (Hstore data Hreply Henabled).
  assert (w1 = mkWorld (cache_set (w_cache w0) (clock E (w_clock_reads w0))
                          course id_no data)
                 (S (w_clock_reads w0)) (w_requests w ++ [(course, id_no)])
                 (w_sends w0) (w_subscriptions w0) (w_saves w0)) as Hw1.
  { unfold w1, fetch_and_filter_data. unfold_M. rewrite Hfetch, Hstore.
    done. }
  clearbody w1. subst w1. simpl in *.
  destruct (fetch_and_filter_data_hit E course id_no second true
              (mkWorld (cache_set (w_cache w0) (clock E (w_clock_reads w0))
                          course id_no data)
                 (S (w_clock_reads w0)) (w_requests w ++ [(course, id_no)])
                 (w_sends w0) (w_subscriptions w0) (w_saves w0))
              (mkCacheEntry course id_no data (clock E (w_clock_reads w0))))
    as [Hret Hreqs].
  - by rewrite Henabled.
  - simpl. unfold valid_entry, cache_set. simpl.
    rewrite lookup_insert_eq. simpl. rewrite Hage.
    rewrite (is_valid_exact _ _ _ Httl).
    by rewrite bool_decide_eq_true_2.
  - done.
Qed.

Lemma fetch_twice_witness :
  (fetch_and_filter_data env_up (py "CSOPESY") (py "12345678") None true
     (fetch_and_filter_data env_up (py "CSOPESY") (py "12345678")
        (Some [2222]) true (world_of (new_cache 60) [])).2).1
  = Ret (Some labels_new)
  ∧ w_requests
      (fetch_and_filter_data env_up (py "CSOPESY") (py "12345678") None true
         (fetch_and_filter_data env_up (py "CSOPESY") (py "12345678")
            (Some [2222]) true (world_of (new_cache 60) [])).2).2
    = [(py "CSOPESY", py "12345678")].
Proof.
  apply (fetch_twice env_up (world_of (new_cache 60) []) (py "CSOPESY")
           (py "12345678") (Some [2222]) None labels_new).
  - unfold exact_ttl. vm_compute. split; discriminate.
  - reflexivity.
  - reflexivity.
  - reflexivity.
  - vm_compute. reflexivity.
Defined.

(** ** The diff engine: which sections it reports *)

Lemma latest_None snap k :
  latest snap k = None ↔ ∀ s, s ∈ snap → class_key s ≠ Some k.
Proof.
  unfold latest. rewrite last_None. split.
  - intros Hnil s Hs Hk. by apply (filter_nil_not_elem_of _ _ s Hnil).
  - intros Hno. apply elem_of_nil_inv. intros s Hs.
    apply list_elem_of_filter in Hs as [Hk Hs]. by apply (Hno s).
Qed.

Lemma not_in_elem a b s :
  s ∈ not_in a b ↔ ∃ k, (k, s) ∈ a ∧ PyDict.get k b = None.
Proof.
  unfold not_in. rewrite list_elem_of_fmap. split.
  - intros ([k s'] & -> & Hin).
    apply list_elem_of_In, List.filter_In in Hin as [Hin Hmem].
    apply list_elem_of_In in Hin. exists k. split; [done|].
    simpl in Hmem. unfold PyDict.mem in Hmem.
    by destruct (PyDict.get k b).
  - intros (k & Hin & Hget). exists (k, s). split; [done|].
    apply list_elem_of_In, List.filter_In. split.
    + by apply list_elem_of_In.
    + simpl. unfold PyDict.mem. by rewrite Hget.
Qed.

Lemma not_in_latest a b s :
  s ∈ not_in (by_number a) (by_number b) ↔
  ∃ k, latest a k = Some s ∧ ∀ s', s' ∈ b → class_key s' ≠ Some k.
Proof.
  rewrite not_in_elem. apply exist_proper. intros k.
  by rewrite by_number_elem, by_number_get, latest_None.
Qed.

Lemma enrollment_elem old new c :
  c ∈ enrollment (diff_courses old new) ↔
  ∃ k old_section,
    latest old k = Some old_section
    ∧ latest new k = Some (ch_section c)
    ∧ old_enrolled c = get_field old_section k_enrolled
    ∧ new_enrolled c = get_field (ch_section c) k_enrolled
    ∧ isinstance_int (old_enrolled c) = true
    ∧ isinstance_int (new_enrolled c) = true
    ∧ py_eq (old_enrolled c) (new_enrolled c) = false.
Proof.
  unfold diff_courses. cbn [enrollment]. rewrite list_elem_of_omap. split.
  - intros ([k s] & Hin & Hc).
    apply enrollment_change_Some in Hc as (so & Hget & <- & Hrest).
    exists k, so. rewrite <- by_number_get.
    by apply by_number_elem in Hin.
  - intros (k & so & Hold & Hnew & Hrest).
    exists (k, ch_section c). split; [by apply by_number_elem|].
    apply enrollment_change_Some. exists so.
    by rewrite by_number_get.
Qed.

(** A section is reported as added exactly when it is the last record
    of the new snapshot with its class number and no record of the old
    snapshot carries that class number; as removed, exactly when it is
    the last record of the old snapshot with its class number and no
    record of the new snapshot carries it. *)
Theorem diff_courses_added_removed (old new : snapshot) (s : section) :
  (s ∈ added (diff_courses old new) ↔
   ∃ k, latest new k = Some s ∧ ∀ s', s' ∈ old → class_key s' ≠ Some k)
  ∧ (s ∈ removed (diff_courses old new) ↔
     ∃ k, latest old k = Some s ∧ ∀ s', s' ∈ new → class_key s' ≠ Some k).
Proof. split; apply not_in_latest. Qed.

(** The diff taken in the other direction: what was added is removed,
    what was removed is added, and every enrollment change appears for
    the same class number with its two counts exchanged. *)
Theorem diff_courses_swap (old new : snapshot) :
  added (diff_courses new old) = removed (diff_courses old new)
  ∧ removed (diff_courses new old) = added (diff_courses old new)
  ∧ ∀ c, c ∈ enrollment (diff_courses old new) →
         ∃ c', c' ∈ enrollment (diff_courses new old)
               ∧ class_key (ch_section c') = class_key (ch_section c)
               ∧ old_enrolled c' = new_enrolled c
               ∧ new_enrolled c' = old_enrolled c.
Proof.
  split_and!; [done..|]. intros c Hc.
  apply enrollment_elem in Hc
    as (k & so & Hold & Hnew & Ho & Hn & Hio & Hin & Hne).
  exists (Change so (new_enrolled c) (old_enrolled c)). split_and!; [|  |done..].
  - apply enrollment_elem. exists k, (ch_section c). simpl.
    by rewrite py_eq_sym.
  - simpl. apply latest_Some in Hold as [_ ->].
    by apply latest_Some in Hnew as [_ ->].
Qed.

Lemma diff_courses_swap_witness :
  ∃ c',
    c' ∈ enrollment (diff_courses labels_new labels_old)
    ∧ class_key (ch_section c')
      = class_key (mk_section "CSOPESY" "S12" 1111 25 30)
    ∧ old_enrolled c' = VInt 25
    ∧ new_enrolled c' = VInt 20.
Proof.
  apply (proj2 (proj2 (diff_courses_swap labels_old labels_new))
           (Change (mk_section "CSOPESY" "S12" 1111 25 30) (VInt 20)
              (VInt 25))).
  vm_compute. left.
Defined.

(** When the diff is silent.  The diff of two snapshots reports nothing
    exactly when they carry the same class numbers and, for each of
    them, the last record of the old snapshot and the last record of the
    new one do not both have an integer [enrolled] with the two
    different.  A change of any other field is never reported, nor is a
    change of an [enrolled] that is not an integer on either side. *)
Theorem diff_courses_silent (old new : snapshot) :
  diff_courses old new = no_changes ↔
  ∀ k, match latest old k, latest new k with
       | None, None => True
       | Some o, Some n =>
           isinstance_int (get_field o k_enrolled)
           && isinstance_int (get_field n k_enrolled)
           && negb (py_eq (get_field o k_enrolled) (get_field n k_enrolled))
           = false
       | _, _ => False
       end.
Proof.
  split.
  - intros Hdiff k.
    destruct (latest old k) as [o|] eqn:Hold,
             (latest new k) as [n|] eqn:Hnew; [| | |done].
    + apply not_true_is_false. intros Hcond.
      apply andb_true_iff in Hcond as [Hcond Hne].
      apply andb_true_iff in Hcond as [Hio Hin].
      apply negb_true_iff in Hne.
      assert (Change n (get_field o k_enrolled) (get_field n k_enrolled)
              ∈ enrollment (diff_courses old new)) as Hc.
      { apply enrollment_elem. by exists k, o. }
      rewrite Hdiff in Hc. by apply elem_of_nil in Hc.
    + assert (o ∈ removed (diff_courses old new)) as Ho.
      { apply not_in_latest. exists k. by rewrite <- latest_None. }
      rewrite Hdiff in Ho. by apply elem_of_nil in Ho.
    + assert (n ∈ added (diff_courses old new)) as Hn.
      { apply not_in_latest. exists k. by rewrite <- latest_None. }
      rewrite Hdiff in Hn. by apply elem_of_nil in Hn.
  - intros Hsame.
    assert (added (diff_courses old new) = []) as Hadded.
    { apply elem_of_nil_inv. intros s Hs.
      apply not_in_latest in Hs as (k & Hnew & Hold).
      apply latest_None in Hold. specialize (Hsame k).
      by rewrite Hold, Hnew in Hsame. }
    assert (removed (diff_courses old new) = []) as Hremoved.
    { apply elem_of_nil_inv. intros s Hs.
      apply not_in_latest in Hs as (k & Hold & Hnew).
      apply latest_None in Hnew. specialize (Hsame k).
      by rewrite Hold, Hnew in Hsame. }
    assert (enrollment (diff_courses old new) = []) as Henr.
    { apply elem_of_nil_inv. intros c Hc.
      apply enrollment_elem in Hc
        as (k & so & Hold & Hnew & Ho & Hn & Hio & Hin & Hne).
      specialize (Hsame k). rewrite Hold, Hnew, <- Ho, <- Hn in Hsame.
      by rewrite Hio, Hin, Hne in Hsame. }
    destruct (diff_courses old new). simpl in *. by subst.
Qed.

(** ** The composer: the direction of an enrollment change *)

Lemma isinstance_int_of v : isinstance_int v = true → ∃ z, int_of v = Some z.
Proof. destruct v; simpl; try done; by eexists. Qed.

(** Every enrollment change the diff reports carries two integer counts
    that differ, and its line starts with the rising chart when the new
    count is above the old one and with the falling chart when it is
    below: the falling chart never marks an unchanged count. *)
Theorem change_line_direction (old new : snapshot) (c : change) :
  c ∈ enrollment (diff_courses old new) →
  ∃ o n,
    int_of (old_enrolled c) = Some o
    ∧ int_of (new_enrolled c) = Some n
    ∧ o ≠ n
    ∧ head (change_line c) = Some (if o <? n then 128200%N else 128201%N).
Proof.
  intros Hc.
  apply enrollment_elem in Hc as (k & so & _ & _ & _ & _ & Hio & Hin & Hne).
  destruct (isinstance_int_of _ Hio) as [o Ho].
  destruct (isinstance_int_of _ Hin) as [n Hn].
  exists o, n. split_and!; [done..| |].
  - unfold py_eq in Hne. rewrite Ho, Hn in Hne.
    by apply bool_decide_eq_false in Hne.
  - unfold change_line. rewrite Ho, Hn. cbn [default from_option id].
    replace (0 <? n - o) with (o <? n)
      by (destruct (Z.ltb_spec o n), (Z.ltb_spec 0 (n - o)); lia || done).
    by destruct (o <? n).
Qed.

Lemma change_line_direction_witness :
  ∃ o n,
    int_of (VInt 20) = Some o
    ∧ int_of (VInt 25) = Some n
    ∧ o ≠ n
    ∧ head (change_line
              (Change (mk_section "CSOPESY" "S12" 1111 25 30) (VInt 20)
                 (VInt 25)))
      = Some (if o <? n then 128200%N else 128201%N).
Proof.
  apply (change_line_direction labels_old labels_new
           (Change (mk_section "CSOPESY" "S12" 1111 25 30) (VInt 20)
              (VInt 25))).
  vm_compute. left.
Defined.

(** ** The sender: what is attempted, and where it stops *)

Lemma chunk_step_empty msg_limit text_lines :
  Forall (fun line => line = []) text_lines →
  fold_left (chunk_step msg_limit) text_lines ([], []) = ([], []).
Proof.
  induction 1 as [|line text_lines -> _ IH]; [done|]. simpl.
  by destruct (msg_limit <? 0)%nat.
Qed.

Lemma chunk_step_line msg_limit st line :
  line ≠ [] →
  (chunk_step msg_limit st line).1 ≠ [] ∨ (chunk_step msg_limit st line).2 ≠ [].
Proof.
  intros Hline. destruct st as [chunks current]. unfold chunk_step.
  destruct (_ <? _)%nat; simpl.
  - by right.
  - right. intros Heq. apply app_eq_nil in Heq as [_ Heq].
    by apply app_eq_nil in Heq as [_ Heq].
Qed.

Lemma split_chunks_some_text msg_limit text_lines :
  Exists (fun line => line ≠ []) text_lines →
  split_chunks msg_limit text_lines ≠ [].
Proof.
  intros Hex. apply Exists_exists in Hex as (line & Hin & Hline).
  apply list_elem_of_split in Hin as (l1 & l2 & ->).
  unfold split_chunks. rewrite fold_left_app. simpl.
  pose proof (chunk_step_nonempty msg_limit l2
                (chunk_step msg_limit
                   (fold_left (chunk_step msg_limit) l1 ([], [])) line)
                (chunk_step_line msg_limit _ line Hline)) as Hne.
  destruct (fold_left _ l2 _) as [chunks current]. simpl in Hne.
  destruct current; simpl.
  - by destruct Hne.
  - intros Heq. by apply app_eq_nil in Heq as [_ Heq].
Qed.

Lemma send_chunks_stop E chat title n chunks : ∀ idx w j chunk,
  chunks !! j = Some chunk →
  (∀ i c, (i < j)%nat → chunks !! i = Some c →
          telegram E (length (w_sends w) + i) chat
            (full_message title n (idx + i) c) = true) →
  telegram E (length (w_sends w) + j) chat
    (full_message title n (idx + j) chunk) = false →
  let out := send_chunks E chat title n idx chunks w in
  let told := telegram E (S (length (w_sends w) + j)) chat (error_text title) in
  w_sends out.2
  = w_sends w
    ++ imap (fun i c => (chat, full_message title n (idx + i) c, true))
            (take j chunks)
    ++ (chat, full_message title n (idx + j) chunk, false)
       :: (if (idx + j =? 1)%nat then [(chat, error_text title, told)] else [])
  ∧ out.1 = if (idx + j =? 1)%nat && negb told then Raise TelegramError
            else Ret tt.
Proof.
  induction chunks as [|c0 chunks IH]; intros idx w j chunk Hj Hok Hfail;
    [done|].
  destruct j as [|j].
  - injection Hj as ->. clear IH Hok. rewrite !Nat.add_0_r in Hfail |- *.
    cbn [send_chunks take imap app]. unfold_M. rewrite Hfail.
    destruct (idx =? 1)%nat; cbn [fst snd w_sends andb length].
    + rewrite length_app, Nat.add_1_r. cbn [length].
      rewrite <- app_assoc. split; [done|].
      by destruct (telegram E _ chat (error_text title)).
    + done.
  - cbn in Hj. pose proof (Hok 0%nat c0 (Nat.lt_0_succ _) eq_refl) as H0.
    rewrite !Nat.add_0_r in H0.
    cbn [send_chunks]. unfold_M. rewrite H0.
    specialize (IH (S idx)
                  (mkWorld (w_cache w) (w_clock_reads w) (w_requests w)
                     (w_sends w
                      ++ [(chat, full_message title n idx c0, true)])
                     (w_subscriptions w) (w_saves w))
                  j chunk Hj).
    cbn [w_sends] in IH. rewrite length_app, Nat.add_1_r in IH.
    replace (S idx + j)%nat with (idx + S j)%nat in IH by lia.
    replace (S (length (w_sends w)) + j)%nat
      with (length (w_sends w) + S j)%nat in IH by lia.
    destruct IH as [IHlog IHret].
    + intros i c Hi Hc.
      replace (S (length (w_sends w)) + i)%nat
        with (length (w_sends w) + S i)%nat by lia.
      replace (S idx + i)%nat with (idx + S i)%nat by lia.
      apply Hok; [lia | done].
    + done.
    + split; [|exact IHret].
      rewrite IHlog. cbn [take imap]. rewrite <- app_assoc. cbn [app].
      rewrite Nat.add_0_r. do 3 f_equal.
      apply imap_ext. intros i c _. cbn. do 3 f_equal. lia.
Qed.

Lemma send_long_message_first E w chat text_lines title :
  Exists (fun line => line ≠ []) text_lines →
  ∃ first ok rest,
    head (messages (MAX_TEXT_LENGTH E) text_lines title) = Some first
    ∧ w_sends (send_long_message E chat text_lines title w).2
      = w_sends w ++ (chat, first, ok) :: rest.
Proof.
  intros Htext.
  pose proof (split_chunks_some_text (MAX_TEXT_LENGTH E) text_lines Htext)
    as Hne.
  unfold send_long_message, messages.
  destruct (split_chunks (MAX_TEXT_LENGTH E) text_lines)
    as [|chunk chunks] eqn:Hsplit; [done|].
  destruct (send_chunks_attempt E chat title (length (chunk :: chunks))
              chunk chunks 1 w) as [rest Hrest].
  by eexists _, _, rest.
Qed.

(** A text whose lines are all empty makes no chunk: nothing is handed
    to the bot and the world stays as it was.  A text with a line that
    is not empty makes at least one chunk, and its first message is
    attempted for the chat, whatever the bot then does. *)
Theorem send_long_message_attempts (E : env) (w : world) (chat : Z)
    (text_lines : list str) (title : str) :
  let out := send_long_message E chat text_lines title w in
  (Forall (fun line => line = []) text_lines → out = (Ret tt, w))
  ∧ (Exists (fun line => line ≠ []) text_lines →
     ∃ first ok rest,
       head (messages (MAX_TEXT_LENGTH E) text_lines title) = Some first
       ∧ w_sends out.2 = w_sends w ++ (chat, first, ok) :: rest).
Proof.
  split.
  - intros Hempty. unfold send_long_message, split_chunks.
    by rewrite chunk_step_empty.
  - apply send_long_message_first.
Qed.

Lemma send_long_message_attempts_witness :
  send_long_message env_up 7 [[]; []] (py "CSOPESY")
    (world_of (new_cache 60) [])
  = (Ret tt, world_of (new_cache 60) [])
  ∧ ∃ first ok rest,
      head (messages (MAX_TEXT_LENGTH env_up) [[]; block_a 3] (py "CSOPESY"))
      = Some first
      ∧ w_sends (send_long_message env_up 7 [[]; block_a 3] (py "CSOPESY")
                   (world_of (new_cache 60) [])).2
        = w_sends (world_of (new_cache 60) []) ++ (7, first, ok) :: rest.
Proof.
  split.
  - apply (proj1 (send_long_message_attempts env_up
                    (world_of (new_cache 60) []) 7 [[]; []] (py "CSOPESY"))).
    repeat constructor.
  - apply (proj2 (send_long_message_attempts env_up
                    (world_of (new_cache 60) []) 7 [[]; block_a 3]
                    (py "CSOPESY"))).
    right. left. discriminate.
Defined.

Lemma map_take_imap {A B C} (g : B → C) (l : list A) :
  ∀ (f : nat → A → B) j,
    map g (take j (imap f l)) = imap (fun i x => g (f i x)) (take j l).
Proof.
  induction l as [|x l IH]; intros f j; [by destruct j|].
  destruct j as [|j]; [done|]. cbn. f_equal. apply IH.
Qed.

(** Where the sender stops.  When the bot delivers the first [j]
    messages of a text and fails the next one, the attempts are those
    [j] deliveries and the failed message, and no later part of the
    text is attempted.  Only when it was the very first message that
    failed is the error text attempted as well, and only when that
    attempt fails too does the sender raise; in every other case it
    returns. *)
Theorem send_long_message_stops (E : env) (w : world) (chat : Z)
    (text_lines : list str) (title : str) (j : nat) (failed : str) :
  let sent := messages (MAX_TEXT_LENGTH E) text_lines title in
  let base := length (w_sends w) in
  let told := telegram E (S base) chat (error_text title) in
  let out := send_long_message E chat text_lines title w in
  sent !! j = Some failed →
  (∀ i m, (i < j)%nat → sent !! i = Some m →
          telegram E (base + i) chat m = true) →
  telegram E (base + j) chat failed = false →
  w_sends out.2
  = w_sends w ++ map (fun m => (chat, m, true)) (take j sent)
    ++ (chat, failed, false)
       :: (if j is 0%nat then [(chat, error_text title, told)] else [])
  ∧ out.1 = match j with
            | 0%nat => if told then Ret tt else Raise TelegramError
            | S _ => Ret tt
            end.
Proof.
  intros sent base told out Hj Hok Hfail.
  unfold sent, messages in Hj, Hok.
  set (chunks := split_chunks (MAX_TEXT_LENGTH E) text_lines) in *.
  rewrite list_lookup_imap in Hj.
  destruct (chunks !! j) as [chunk|] eqn:Hchunk; [|done].
  injection Hj as <-.
  destruct (send_chunks_stop E chat title (length chunks) chunks 1 w j chunk)
    as [Hlog Hret].
  - done.
  - intros i c Hi Hc. apply Hok; [done|].
    by rewrite list_lookup_imap, Hc.
  - done.
  - unfold out, send_long_message. fold chunks. split.
    + rewrite Hlog. f_equal. f_equal.
      * unfold sent, messages. fold chunks. by rewrite map_take_imap.
      * destruct j; [|done]. cbn [Nat.add Nat.eqb]. unfold told, base.
        by rewrite Nat.add_0_r.
    + rewrite Hret. destruct j; cbn [Nat.add Nat.eqb andb]; [|done].
      unfold told, base. rewrite Nat.add_0_r.
      by destruct (telegram E _ chat (error_text title)).
Qed.

Lemma send_long_message_stops_witness :
  w_sends (send_long_message env_bot_down 7 [block_a 3] (py "CSOPESY")
             (world_of (new_cache 60) [])).2
  = [(7, block_a 3, false); (7, error_text (py "CSOPESY"), false)]
  ∧ (send_long_message env_bot_down 7 [block_a 3] (py "CSOPESY")
       (world_of (new_cache 60) [])).1
    = Raise TelegramError.
Proof.
  apply (send_long_message_stops env_bot_down (world_of (new_cache 60) []) 7
           [block_a 3] (py "CSOPESY") 0 (block_a 3)).
  - reflexivity.
  - intros i m Hi. lia.
  - reflexivity.
Defined.

(** ** The broadcast cycle: what it keeps and how it ends *)

Lemma send_long_message_frame E chat text_lines title w :
  let out := send_long_message E chat text_lines title w in
  w_subscriptions out.2 = w_subscriptions w
  ∧ w_cache out.2 = w_cache w
  ∧ w_requests out.2 = w_requests w
  ∧ w_saves out.2 = w_saves w
  ∧ (∃ rest, w_sends out.2 = w_sends w ++ rest)
  ∧ ∀ e, out.1 = Raise e → e = TelegramError.
Proof.
  intros out.
  destruct (send_chunks_frame E chat title
              (length (split_chunks (MAX_TEXT_LENGTH E) text_lines))
              (split_chunks (MAX_TEXT_LENGTH E) text_lines) 1 w)
    as (? & ? & ? & ? & ?).
  split_and!; try done.
  intros e He. by apply send_long_message_raises in He as [-> _].
Qed.

(** The update step of an item leaves the store and the save count
    alone, and raises nothing but a failure of the bot, of the sort or of
    the rendering of a record. *)
Lemma process_course_updates_frame E info previous w :
  let out := process_course_updates E info previous w in
  w_subscriptions out.2 = w_subscriptions w
  ∧ w_saves out.2 = w_saves w
  ∧ ∀ e, out.1 = Raise e → update_failure E e.
Proof.
  unfold process_course_updates. unfold_M.
  pose proof (fetch_and_filter_data_frame E (ti_course info) (student_id info)
                (item_filter info) true w) as (_ & Hsubs & Hsaves).
  destruct (fetch_and_filter_data E _ _ _ true w) as [[[current|]|e] w1];
    cbn [fst snd] in *; [|done..].
  destruct (any_changes _); [|done].
  destruct (compose_update_lines _ _ _ _) as [lines|e] eqn:Hlines;
    cbn [fst snd].
  - pose proof (send_long_message_frame E (chat_id info) lines
                  (update_title info) w1) as (Hs & _ & _ & Hv & _ & He).
    destruct (send_long_message E _ lines _ w1) as [[[]|e] w2];
      cbn [fst snd] in *.
    + split_and!; [congruence.. | done].
    + split_and!; [congruence..|]. intros e' [= <-]. left. by apply He.
  - split_and!; [done..|]. intros e' [= <-].
    apply compose_update_lines_raises in Hlines as [->|Hs];
      [right; by left | right; by right].
Qed.

Lemma map_settings_set chat prefs prefs' subs :
  PyDict.get chat subs = Some prefs →
  settings (chat, prefs') = settings (chat, prefs) →
  map settings (PyDict.set chat prefs' subs) = map settings subs.
Proof.
  intros Hget Hsame. induction subs as [|[k v] subs IH]; [done|].
  cbn in *. destruct (decide (k = chat)) as [->|Hne]; cbn.
  - injection Hget as ->. by rewrite Hsame.
  - f_equal. by apply IH.
Qed.

Lemma keys_settings subs :
  PyDict.keys subs = map (fun s => s.1.1.1) (map settings subs).
Proof. unfold PyDict.keys. rewrite map_map. by apply map_ext. Qed.

Lemma process_item_frame E info w :
  chat_id info ∈ PyDict.keys (w_subscriptions w) →
  let out := process_item E info w in
  map settings (w_subscriptions out.2) = map settings (w_subscriptions w)
  ∧ w_saves out.2 = w_saves w
  ∧ ∀ e, out.1 = Raise e → update_failure E e.
Proof.
  intros Hkey.
  destruct (PyDict.get (chat_id info) (w_subscriptions w)) as [prefs|] eqn:Hget.
  2:{ by apply PyDictFacts.get_None in Hget. }
  cbn zeta. rewrite (process_item_unfold E info w prefs Hget).
  pose proof (process_course_updates_frame E info (previous_data prefs) w)
    as (Hsubs & Hsaves & He).
  destruct (process_course_updates E info (previous_data prefs) w)
    as [[[data|]|e] w1]; cbn [fst snd w_subscriptions w_saves] in *.
  - split_and!; [|done..]. rewrite Hsubs.
    by apply (map_settings_set _ prefs).
  - split_and!; [by rewrite Hsubs | done..].
  - split_and!; [by rewrite Hsubs | done |]. intros e' [= <-]. by apply He.
Qed.

Lemma process_items_frame E infos : ∀ w,
  Forall (fun info => chat_id info ∈ PyDict.keys (w_subscriptions w)) infos →
  let out := process_items E infos w in
  map settings (w_subscriptions out.2) = map settings (w_subscriptions w)
  ∧ w_saves out.2 = w_saves w
  ∧ ∀ e, out.1 = Raise e → update_failure E e.
Proof.
  induction infos as [|info infos IH]; intros w Hall; [done|].
  apply Forall_cons in Hall as [Hinfo Hall].
  pose proof (process_item_frame E info w Hinfo) as (Hsubs & Hsaves & He).
  cbn [process_items]. unfold_M.
  destruct (process_item E info w) as [[[]|e] w1]; cbn [fst snd] in *;
    [|done].
  destruct (IH w1) as (IHsubs & IHsaves & IHe).
  - rewrite keys_settings, Hsubs, <- keys_settings. exact Hall.
  - split_and!; [congruence.. | exact IHe].
Qed.

(** Which items a cycle checks. *)
Lemma all_tracking_infos_elem subs info :
  info ∈ all_tracking_infos subs ↔
  ∃ chat prefs,
    (chat, prefs) ∈ subs
    ∧ id_no prefs ≠ []
    ∧ chat_id info = chat
    ∧ student_id info = id_no prefs
    ∧ ((track_all info = true ∧ class_numbers info = []
        ∧ ti_course info ∈ courses prefs)
       ∨ (track_all info = false ∧ class_numbers info ≠ []
          ∧ (ti_course info, class_numbers info) ∈ sections prefs)).
Proof.
  unfold all_tracking_infos. rewrite list_elem_of_In, in_flat_map. split.
  - intros ([chat prefs] & Hin & Hinfo). exists chat, prefs.
    apply list_elem_of_In in Hin, Hinfo. split; [done|].
    unfold tracking_infos_of in Hinfo. cbn [fst snd] in Hinfo.
    assert (id_no prefs ≠ []) as Hid.
    { intros Hid. rewrite Hid in Hinfo. by apply elem_of_nil in Hinfo. }
    replace (is_empty (id_no prefs)) with false in Hinfo
      by (by destruct (id_no prefs)).
    split; [done|]. apply elem_of_app in Hinfo as [Hinfo|Hinfo].
    + apply list_elem_of_fmap in Hinfo as (course & -> & Hcourse).
      cbn. split_and!; [done..|]. by left.
    + apply list_elem_of_omap in Hinfo as ([course numbers] & Hsec & Hsome).
      cbn in Hsome. destruct numbers as [|n numbers]; [done|].
      injection Hsome as <-. cbn. split_and!; [done..|]. by right.
  - intros (chat & prefs & Hin & Hid & Hchat & Hsid & Hcases).
    exists (chat, prefs). split; [by apply list_elem_of_In|].
    apply list_elem_of_In. unfold tracking_infos_of. cbn [fst snd].
    replace (is_empty (id_no prefs)) with false by (by destruct (id_no prefs)).
    apply elem_of_app. destruct info as [ch st co ta cn]. cbn in *. subst.
    destruct Hcases as [(-> & -> & Hcourse)|(-> & Hne & Hsec)].
    + left. apply list_elem_of_fmap. by exists co.
    + right. apply list_elem_of_omap. exists (co, cn). split; [done|].
      cbn. by destruct cn.
Qed.

Lemma all_tracking_infos_keys subs :
  Forall (fun info => chat_id info ∈ PyDict.keys subs) (all_tracking_infos subs).
Proof.
  apply Forall_forall. intros info Hinfo.
  apply all_tracking_infos_elem in Hinfo as (chat & prefs & Hin & _ & -> & _).
  apply list_elem_of_fmap. by exists (chat, prefs).
Qed.

(** The items of a broadcast cycle.  An item is checked exactly when it
    belongs to a subscriber whose student id is set and it is either one
    of the subscriber's whole courses or one of the subscriber's courses
    with a list of sections that is not empty; it carries the
    subscriber's chat and student id.  A subscriber without a student id
    and a course with an empty list of sections yield no item. *)
Theorem all_tracking_infos_spec (subs : list (Z * UserPreferences))
    (info : TrackingInfo) :
  info ∈ all_tracking_infos subs ↔
  ∃ chat prefs,
    (chat, prefs) ∈ subs
    ∧ id_no prefs ≠ []
    ∧ chat_id info = chat
    ∧ student_id info = id_no prefs
    ∧ ((track_all info = true ∧ class_numbers info = []
        ∧ ti_course info ∈ courses prefs)
       ∨ (track_all info = false ∧ class_numbers info ≠ []
          ∧ (ti_course info, class_numbers info) ∈ sections prefs)).
Proof. apply all_tracking_infos_elem. Qed.

(** A broadcast cycle changes nothing a subscriber has chosen: after it,
    however it ends, the store lists the same chats in the same order,
    each with the student id, the tracked courses and the tracked
    sections it had; only previous snapshots are written. *)
Theorem broadcast_updates_keeps_settings (E : env) (w : world) :
  map settings (w_subscriptions (broadcast_updates E w).2)
  = map settings (w_subscriptions w).
Proof.
  unfold broadcast_updates. unfold_M. cbn.
  destruct (is_empty (w_subscriptions w)); [done|].
  destruct (is_empty (all_tracking_infos (w_subscriptions w))); [done|].
  pose proof (process_items_frame E (all_tracking_infos (w_subscriptions w)) w
                (all_tracking_infos_keys _)) as (Hsubs & _).
  by destruct (process_items E _ w) as [[[]|e] w1].
Qed.

(** How a broadcast cycle ends, when no other handler changes the store
    while it runs.  It returns, or it raises the failure of a send that
    was not caught, the [TypeError] of a sort, or an exception that
    [format_section] raised on a record; the lookup of the subscriber of
    an item raises nothing.  The store is saved exactly once when the
    cycle returns after checking at least one item, and not at all when
    there is no item to check or when the cycle raises. *)
Theorem broadcast_updates_outcome (E : env) (w : world) :
  let out := broadcast_updates E w in
  (out.1 = Ret tt ∨ out.1 = Raise TelegramError ∨ out.1 = Raise TypeError
   ∨ ∃ s e, format_section E s = Raise e ∧ out.1 = Raise e)
  ∧ w_saves out.2
    = match out.1 with
      | Ret _ =>
          if is_empty (all_tracking_infos (w_subscriptions w)) then w_saves w
          else S (w_saves w)
      | Raise _ => w_saves w
      end.
Proof.
  unfold broadcast_updates. unfold_M. cbn.
  destruct (w_subscriptions w) as [|p subs] eqn:Hsubs; [by split; [left|]|].
  cbn [is_empty].
  destruct (is_empty (all_tracking_infos (p :: subs))) eqn:Hinfos;
    [by split; [left|]|].
  pose proof (process_items_frame E (all_tracking_infos (w_subscriptions w)) w
                (all_tracking_infos_keys _)) as (_ & Hsaves & He).
  rewrite Hsubs in Hsaves, He.
  destruct (process_items E _ w) as [[[]|e] w1]; cbn [fst snd w_saves] in *.
  - split; [by left | by rewrite Hsaves].
  - split; [|done]. destruct (He e eq_refl) as [->|[->|[s Hs]]]; auto.
    do 3 right. by exists s, e.
Qed.

(** A cycle that fetches a record whose [meetings] is [null]: it
    raises [TypeError], sends nothing and saves nothing. *)
Lemma broadcast_updates_unrenderable :
  (broadcast_updates env_unrenderable
     (world_of (new_cache 60) new_subscriber)).1
  = Raise TypeError
  ∧ w_sends
      (broadcast_updates env_unrenderable
         (world_of (new_cache 60) new_subscriber)).2
    = []
  ∧ w_saves
      (broadcast_updates env_unrenderable
         (world_of (new_cache 60) new_subscriber)).2
    = 0%nat.
Proof. split_and!; vm_compute; reflexivity. Qed.

(** ** The update step: when a subscriber hears of a check *)

Lemma any_changes_no_changes c : any_changes c = false ↔ c = no_changes.
Proof.
  destruct c as [[|a la] [|r lr] [|e le]]; cbn; split; try done.
Qed.

Lemma compose_update_lines_header fs course c suffix lines :
  compose_update_lines fs course c suffix = Ret lines →
  Exists (fun line => line ≠ []) lines.
Proof.
  unfold compose_update_lines. intros Hlines.
  assert (∃ rest,
            lines = (py "*Updates for " ++ course ++ suffix ++ py "* "
                     ++ [128226%N]) :: rest) as [rest ->].
  { destruct (is_empty (added c)), (is_empty (removed c)),
      (is_empty (enrollment c));
      try destruct (format_all fs (added c));
      try destruct (format_all fs (removed c));
      try destruct (sorted_changes (enrollment c));
      try discriminate Hlines; injection Hlines as <-;
      rewrite <- ?app_assoc; by eexists. }
  apply Exists_cons_hd. discriminate.
Qed.

Lemma set_same {K V} `{EqDecision K} (k : K) (v : V) d :
  PyDict.get k d = Some v → PyDict.set k v d = d.
Proof.
  induction d as [|[k' v'] d IH]; [done|]. cbn.
  destruct (decide (k' = k)) as [->|Hne].
  - by intros [= ->].
  - intros Hget. by rewrite IH.
Qed.

Lemma store_previous_same prefs key data :
  previous_data prefs !! key = Some data → store_previous prefs key data = prefs.
Proof.
  intros Hprev. destruct prefs as [i c s p]. unfold store_previous. cbn in *.
  by rewrite insert_id.
Qed.

(** A subscriber hears of a check exactly when the diff reports
    something.  For an item whose fetch returns a snapshot: when the
    diff of the previous snapshot against it is silent, nothing is sent,
    and the loop body returns with the fetched snapshot stored as the
    new baseline, records and fields the diff does not look at
    included; when the diff reports something and the update text
    composes, the first message of that text is attempted for the
    subscriber.  When the fetched snapshot is the stored one, the store
    stays exactly as it was. *)
Theorem update_sent_iff_changes (E : env) (w w1 : world) (info : TrackingInfo)
    (prefs : UserPreferences) (current : snapshot)
    (Hprefs : PyDict.get (chat_id info) (w_subscriptions w) = Some prefs)
    (Hfetch : fetch_and_filter_data E (ti_course info) (student_id info)
                (item_filter info) true w = (Ret (Some current), w1)) :
  let previous := default [] (previous_data prefs !! get_data_key info) in
  let changes := diff_courses previous current in
  let out := process_item E info w in
  (changes = no_changes →
   out.1 = Ret tt
   ∧ w_sends out.2 = w_sends w
   ∧ PyDict.get (chat_id info) (w_subscriptions out.2)
     = Some (store_previous prefs (get_data_key info) current))
  ∧ (changes ≠ no_changes →
     ∀ lines,
       compose_update_lines (format_section E) (ti_course info) changes
         (title_suffix info) = Ret lines →
       ∃ first ok rest,
         head (messages (MAX_TEXT_LENGTH E) lines (update_title info))
         = Some first
         ∧ w_sends out.2 = w_sends w ++ (chat_id info, first, ok) :: rest)
  ∧ (previous_data prefs !! get_data_key info = Some current →
     w_subscriptions out.2 = w_subscriptions w).
Proof.
  intros previous changes out.
  pose proof (fetch_and_filter_data_frame E (ti_course info) (student_id info)
                (item_filter info) true w) as (Hsends & Hsubs & _).
  rewrite Hfetch in Hsends, Hsubs. cbn [fst snd] in Hsends, Hsubs.
  assert (changes = no_changes →
          out = (Ret tt,
                 mkWorld (w_cache w1) (w_clock_reads w1) (w_requests w1)
                   (w_sends w1)
                   (PyDict.set (chat_id info)
                      (store_previous prefs (get_data_key info) current)
                      (w_subscriptions w1))
                   (w_saves w1))) as Hquiet.
  { intros Hsame. unfold out.
    rewrite (process_item_unfold E info w prefs Hprefs).
    unfold process_course_updates. unfold_M. rewrite Hfetch.
    fold previous. fold changes.
    by rewrite (proj2 (any_changes_no_changes changes) Hsame). }
  split_and!.
  - intros Hsame. rewrite (Hquiet Hsame). cbn [fst snd w_sends w_subscriptions].
    split_and!; [done | done |]. apply PyDictFacts.get_set_eq.
  - intros Hdiff lines Hlines. unfold out.
    rewrite (process_item_unfold E info w prefs Hprefs).
    unfold process_course_updates. unfold_M. rewrite Hfetch.
    fold previous. fold changes.
    destruct (any_changes changes) eqn:Hany.
    2:{ by apply any_changes_no_changes in Hany. }
    rewrite Hlines.
    destruct (send_long_message_first E w1 (chat_id info) lines
                (update_title info))
      as (first & ok & rest & Hfirst & Hlog).
    { by eapply compose_update_lines_header. }
    exists first, ok, rest. split; [done|]. rewrite <- Hsends, <- Hlog.
    by destruct (send_long_message E _ lines _ w1) as [[[]|e] w2].
  - intros Hprev.
    assert (changes = no_changes) as Hsame.
    { unfold changes, previous. rewrite Hprev.
      change (default [] (Some current)) with current.
      unfold diff_courses, no_changes. rewrite not_in_self. f_equal.
      apply omap_none. intros p Hp.
      apply enrollment_change_self; [done | apply by_number_NoDup]. }
    rewrite (Hquiet Hsame). cbn [snd w_subscriptions].
    rewrite (store_previous_same _ _ _ Hprev), Hsubs.
    by apply set_same.
Qed.

Lemma update_sent_iff_changes_witness :
  (process_item env_up csopesy_item (world_of (new_cache 60) settled_subscriber)).1
  = Ret tt
  ∧ w_sends
      (process_item env_up csopesy_item
         (world_of (new_cache 60) settled_subscriber)).2
    = []
  ∧ w_subscriptions
      (process_item env_up csopesy_item
         (world_of (new_cache 60) settled_subscriber)).2
    = settled_subscriber.
Proof.
  destruct (update_sent_iff_changes env_up
              (world_of (new_cache 60) settled_subscriber)
              (fetch_and_filter_data env_up (py "CSOPESY") (py "12345678")
                 None true (world_of (new_cache 60) settled_subscriber)).2
              csopesy_item
              (mkPrefs (py "12345678") [py "CSOPESY"] []
                 {[ py "CSOPESY" := labels_new ]})
              labels_new)
    as (Hquiet & _ & Hstore).
  - vm_compute. reflexivity.
  - vm_compute. reflexivity.
  - destruct Hquiet as (Hret & Hsends & _).
    { vm_compute. reflexivity. }
    split_and!; [exact Hret | exact Hsends |].
    apply Hstore. vm_compute. reflexivity.
Defined.

(** ** Subscribing and unsubscribing *)

Lemma dict_del_set_fresh {K V} `{EqDecision K} (k : K) (v : V) d :
  k ∉ PyDict.keys d → dict_del k (PyDict.set k v d) = d.
Proof.
  induction d as [|[k' v'] d IH]; cbn.
  - intros _. by rewrite decide_True.
  - intros Hk. apply not_elem_of_cons in Hk as [Hne Hk].
    rewrite decide_False by done. cbn. rewrite decide_False by done.
    by rewrite IH.
Qed.

Lemma get_dict_del_eq {K V} `{EqDecision K} (k : K) (d : list (K * V)) :
  NoDup (PyDict.keys d) → PyDict.get k (dict_del k d) = None.
Proof.
  induction d as [|[k' v'] d IH]; cbn; [done|].
  intros Hnd. apply NoDup_cons in Hnd as [Hk' Hnd].
  destruct (decide (k' = k)) as [->|Hne]; cbn.
  - by apply PyDictFacts.get_None.
  - rewrite decide_False by done. by apply IH.
Qed.

Lemma get_dict_del_ne {K V} `{EqDecision K} (k k' : K) (d : list (K * V)) :
  k ≠ k' → PyDict.get k' (dict_del k d) = PyDict.get k' d.
Proof.
  intros Hne. induction d as [|[k0 v0] d IH]; cbn; [done|].
  destruct (decide (k0 = k)) as [->|Hk0]; cbn.
  - by rewrite decide_False.
  - by rewrite IH.
Qed.

Lemma mem_false {K V} `{EqDecision K} (k : K) (d : list (K * V)) :
  PyDict.mem k d = false ↔ k ∉ PyDict.keys d.
Proof.
  rewrite <- PyDictFacts.mem_keys. by destruct (PyDict.mem k d).
Qed.

Lemma all_tracking_infos_snoc subs chat prefs :
  all_tracking_infos (subs ++ [(chat, prefs)])
  = all_tracking_infos subs ++ tracking_infos_of chat prefs.
Proof.
  unfold all_tracking_infos. rewrite flat_map_app. cbn.
  by rewrite app_nil_r.
Qed.

(** What [/start] does to the store.  A chat that is subscribed keeps
    its preferences as they are.  A chat that is not is entered last,
    with the default preferences, which give the broadcast no item to
    check.  In neither case is the store saved: a new subscription is
    held in memory until something else saves. *)
Theorem start_subscribes (E : env) (w : world) (chat : Z) :
  let out := start E chat w in
  (chat ∈ PyDict.keys (w_subscriptions w) →
   w_subscriptions out.2 = w_subscriptions w)
  ∧ (chat ∉ PyDict.keys (w_subscriptions w) →
     w_subscriptions out.2 = w_subscriptions w ++ [(chat, default_prefs)]
     ∧ all_tracking_infos (w_subscriptions out.2)
       = all_tracking_infos (w_subscriptions w))
  ∧ w_saves out.2 = w_saves w.
Proof.
  unfold start, storage_get, reply_text. unfold_M. cbn [effective_chat].
  destruct (PyDict.mem chat (w_subscriptions w)) eqn:Hmem; cbn [negb].
  - split_and!; [done | | done].
    intros Hk. apply mem_false in Hk. congruence.
  - pose proof Hmem as Hk. apply mem_false in Hk.
    pose proof Hk as Hget. apply PyDictFacts.get_None in Hget.
    rewrite Hget. cbn [fst snd w_subscriptions w_saves].
    rewrite (PyDictFacts.set_fresh _ _ _ Hk).
    split_and!; [done | | done].
    intros _. split; [done|].
    rewrite all_tracking_infos_snoc. apply app_nil_r.
Qed.

Lemma start_subscribes_witness :
  w_subscriptions (start env_up 7 (world_of (new_cache 60) new_subscriber)).2
  = new_subscriber
  ∧ w_subscriptions (start env_up 8 (world_of (new_cache 60) new_subscriber)).2
    = new_subscriber ++ [(8, default_prefs)].
Proof.
  split.
  - apply (proj1 (start_subscribes env_up
                    (world_of (new_cache 60) new_subscriber) 7)).
    vm_compute. left.
  - apply (proj1 (proj2 (start_subscribes env_up
                           (world_of (new_cache 60) new_subscriber) 8))).
    vm_compute. intros Hin. apply list_elem_of_singleton in Hin.
    discriminate Hin.
Defined.

(** [/start] followed by [/stop], for a chat that was not subscribed:
    the store is back to what it was, whatever the bot did with the two
    replies, and it has been saved once, by [/stop]. *)
Theorem start_then_stop (E : env) (w : world) (chat : Z) :
  chat ∉ PyDict.keys (w_subscriptions w) →
  let w1 := (start E chat w).2 in
  let w2 := (stop E chat w1).2 in
  w_subscriptions w2 = w_subscriptions w ∧ w_saves w2 = S (w_saves w).
Proof.
  intros Hk.
  pose proof (start_subscribes E w chat) as (_ & Hnew & Hsaves).
  destruct (Hnew Hk) as [Hsubs _]. clear Hnew.
  cbn zeta in *.
  destruct (start E chat w) as [r w1]. cbn [snd] in *.
  assert (PyDict.mem chat (w_subscriptions w1) = true) as Hmem.
  { apply PyDictFacts.mem_keys. rewrite Hsubs. unfold PyDict.keys.
    rewrite map_app. apply elem_of_app. right. left. }
  unfold stop, storage_delete, reply_text. unfold_M. rewrite Hmem.
  cbn [fst snd w_subscriptions w_saves effective_chat].
  rewrite Hsubs, Hsaves.
  rewrite <- (PyDictFacts.set_fresh _ _ default_prefs Hk).
  by rewrite dict_del_set_fresh.
Qed.

Lemma start_then_stop_witness :
  w_subscriptions
    (stop env_up 8 (start env_up 8 (world_of (new_cache 60) new_subscriber)).2).2
  = new_subscriber
  ∧ w_saves
      (stop env_up 8
         (start env_up 8 (world_of (new_cache 60) new_subscriber)).2).2
    = 1%nat.
Proof.
  apply (start_then_stop env_up (world_of (new_cache 60) new_subscriber) 8).
  vm_compute. intros Hin. apply list_elem_of_singleton in Hin.
  discriminate Hin.
Defined.

(** What [/stop] does to the store, each chat being listed once (as the
    keys of a dictionary are).  Afterwards the chat is not subscribed,
    every other chat has the preferences it had, and a broadcast cycle
    has no item for the chat.  The store is saved when the chat was
    subscribed, and left alone when it was not. *)
Theorem stop_unsubscribes (E : env) (w : world) (chat : Z) :
  NoDup (PyDict.keys (w_subscriptions w)) →
  let out := stop E chat w in
  PyDict.get chat (w_subscriptions out.2) = None
  ∧ (∀ other, other ≠ chat →
       PyDict.get other (w_subscriptions out.2)
       = PyDict.get other (w_subscriptions w))
  ∧ (∀ info, info ∈ all_tracking_infos (w_subscriptions out.2) →
       chat_id info ≠ chat)
  ∧ w_saves out.2
    = (if PyDict.mem chat (w_subscriptions w) then S (w_saves w)
       else w_saves w).
Proof.
  intros Hnd out.
  assert (w_subscriptions out.2
          = (if PyDict.mem chat (w_subscriptions w)
             then dict_del chat (w_subscriptions w) else w_subscriptions w)
          ∧ w_saves out.2
            = (if PyDict.mem chat (w_subscriptions w) then S (w_saves w)
               else w_saves w)) as [Hsubs Hsaves].
  { unfold out, stop, storage_delete, reply_text. unfold_M.
    by destruct (PyDict.mem chat (w_subscriptions w)). }
  assert (PyDict.get chat (w_subscriptions out.2) = None) as Hgone.
  { rewrite Hsubs. destruct (PyDict.mem chat (w_subscriptions w)) eqn:Hmem.
    - by apply get_dict_del_eq.
    - by apply PyDictFacts.get_None, mem_false. }
  split_and!; [done | | | done].
  - intros other Hne. rewrite Hsubs.
    destruct (PyDict.mem chat (w_subscriptions w)); [|done].
    by apply get_dict_del_ne.
  - intros info Hinfo Hchat.
    apply all_tracking_infos_elem in Hinfo as (c & prefs & Hin & _ & Hc & _).
    apply PyDictFacts.get_None in Hgone. apply Hgone.
    apply list_elem_of_fmap. exists (c, prefs). split; [|done].
    cbn. congruence.
Qed.

Lemma stop_unsubscribes_witness :
  PyDict.get 7 (w_subscriptions
                  (stop env_up 7 (world_of (new_cache 60) two_subscribers)).2)
  = None
  ∧ PyDict.get 8 (w_subscriptions
                    (stop env_up 7 (world_of (new_cache 60) two_subscribers)).2)
    = PyDict.get 8 two_subscribers.
Proof.
  destruct (stop_unsubscribes env_up (world_of (new_cache 60) two_subscribers) 7)
    as (Hgone & Hothers & _).
  - vm_compute. repeat constructor; set_solver.
  - split; [exact Hgone|]. apply Hothers. discriminate.
Defined.

(** ** The status report *)

Lemma add_number_elem n l x : x ∈ add_number n l ↔ x = n ∨ x ∈ l.
Proof.
  induction l as [|m l IH]; cbn.
  - rewrite list_elem_of_singleton. split; [by left | intros [|H]; [done|]].
    by apply elem_of_nil in H.
  - destruct (Z.ltb_spec n m); [by rewrite elem_of_cons|].
    destruct (Z.eqb_spec n m) as [->|Hne].
    + rewrite elem_of_cons. naive_solver.
    + rewrite !elem_of_cons, IH. naive_solver.
Qed.

Lemma add_number_sorted n l :
  StronglySorted Z.lt l → StronglySorted Z.lt (add_number n l).
Proof.
  induction 1 as [|m l Hl IH Hm]; cbn.
  - repeat constructor.
  - destruct (Z.ltb_spec n m).
    + constructor; [by constructor|]. constructor; [done|].
      eapply Forall_impl; [exact Hm|]. cbn. intros; lia.
    + destruct (Z.eqb_spec n m) as [->|Hne]; [by constructor|].
      constructor; [done|]. apply Forall_forall. intros x Hx.
      apply add_number_elem in Hx as [->|Hx]; [lia|].
      by eapply Forall_forall in Hm.
Qed.

Lemma found_number_false sections n :
  found_number sections n = false ↔
  ∀ s v, s ∈ sections → s !! k_classNbr = Some v → py_eq (VInt n) v = false.
Proof.
  unfold found_number. induction sections as [|s sections IH]; cbn [existsb].
  - split; [|done]. intros _ s v Hs. by apply elem_of_nil in Hs.
  - rewrite orb_false_iff, IH. split.
    + intros [Hs Hrest] s' v Hin Hv.
      apply elem_of_cons in Hin as [->|Hin]; [by rewrite Hv in Hs|].
      by eapply Hrest.
    + intros Hall. split.
      * destruct (s !! k_classNbr) as [v|] eqn:Hv; [|done].
        eapply Hall; [left | done].
      * intros s' v Hin. apply Hall. by right.
Qed.

(** The class numbers the status report calls "not found": they stand
    in ascending order without repetition, and they are exactly the
    tracked class numbers that no fetched record carries. *)
Theorem not_found_spec (class_numbers : list Z) (sections : snapshot) :
  StronglySorted Z.lt (not_found class_numbers sections)
  ∧ ∀ n, n ∈ not_found class_numbers sections ↔
         n ∈ class_numbers
         ∧ ∀ s v, s ∈ sections → s !! k_classNbr = Some v →
                  py_eq (VInt n) v = false.
Proof.
  unfold not_found. split.
  - induction (List.filter _ class_numbers) as [|n l IH]; cbn.
    + constructor.
    + by apply add_number_sorted.
  - intros n. rewrite <- found_number_false.
    transitivity (n ∈ List.filter (fun n => negb (found_number sections n))
                        class_numbers).
    + induction (List.filter _ class_numbers) as [|m l IH]; cbn; [done|].
      rewrite add_number_elem, elem_of_cons, IH. done.
    + rewrite list_elem_of_In, List.filter_In, <- list_elem_of_In.
      by rewrite negb_true_iff.
Qed.

Lemma insert_by_perm {A} (lt : A → A → option bool) x l l' :
  insert_by lt x l = Some l' → x :: l ≡ₚ l'.
Proof.
  revert l'. induction l as [|y l IH]; intros l'; cbn.
  - by intros [= <-].
  - destruct (lt y x) as [[]|]; [| |done].
    + destruct (insert_by lt x l) as [r|]; [|done]. intros [= <-].
      rewrite Permutation_swap. by rewrite (IH r).
    + by intros [= <-].
Qed.

Lemma sorted_by_perm {A} (lt : A → A → option bool) l l' :
  sorted_by lt l = Some l' → l ≡ₚ l'.
Proof.
  revert l'. induction l as [|x l IH]; intros l'; cbn.
  - by intros [= <-].
  - destruct (sorted_by lt l) as [s|]; [|done]. intros Hins.
    apply insert_by_perm in Hins. by rewrite (IH s).
Qed.

Lemma insert_by_total {A} (lt : A → A → option bool) x l :
  Forall (fun y => is_Some (lt y x)) l → is_Some (insert_by lt x l).
Proof.
  induction 1 as [|y l [b Hb] _ IH]; cbn; [by eexists|].
  rewrite Hb. destruct b; [|by eexists].
  destruct IH as [r ->]. by eexists.
Qed.

Lemma sorted_by_total {A} (lt : A → A → option bool) (P : A → Prop) l :
  (∀ x y, P x → P y → is_Some (lt x y)) →
  Forall P l → is_Some (sorted_by lt l).
Proof.
  intros Hlt. induction 1 as [|x l Hx Hl IH]; cbn; [by eexists|].
  destruct IH as [s Hs]. rewrite Hs. apply insert_by_total.
  apply sorted_by_perm in Hs. rewrite <- Hs.
  eapply Forall_impl; [exact Hl|]. intros y Hy. by apply Hlt.
Qed.

Lemma filter_by_spec {A} (p : A → option bool) l r :
  filter_by p l = Some r →
  r = filter (fun x => p x = Some true) l
  ∧ Forall (fun x => is_Some (p x)) l.
Proof.
  revert r. induction l as [|x l IH]; intros r; cbn.
  - by intros [= <-].
  - destruct (p x) as [b|] eqn:Hb; [|done].
    destruct (filter_by p l) as [r'|]; [|done]. intros [= <-].
    destruct (IH r' eq_refl) as [-> Hall]. split.
    + destruct b.
      * by rewrite decide_True.
      * by rewrite decide_False.
    + constructor; [by eexists | done].
Qed.

Lemma filter_by_total {A} (p : A → option bool) l :
  Forall (fun x => is_Some (p x)) l → is_Some (filter_by p l).
Proof.
  induction 1 as [|x l [b Hb] _ [r Hr]]; cbn; [by eexists|].
  rewrite Hb, Hr. by eexists.
Qed.

Lemma filter_split {A} (P Q : A → Prop) `{!∀ x, Decision (P x)}
    `{!∀ x, Decision (Q x)} (l : list A) :
  Forall (fun x => (P x ∧ ¬ Q x) ∨ (Q x ∧ ¬ P x)) l →
  filter P l ++ filter Q l ≡ₚ l.
Proof.
  induction 1 as [|x l Hx _ IH]; [done|].
  destruct Hx as [[HP HQ]|[HQ HP]].
  - rewrite filter_cons_True, (filter_cons_False Q) by done.
    cbn. by rewrite IH.
  - rewrite (filter_cons_False P), (filter_cons_True Q) by done.
    rewrite <- Permutation_middle. by rewrite IH.
Qed.

(** The status text counts every section once.  When the text
    composes, the sections it shows as open and the sections it shows as
    full are together the sections it was given, the open ones being
    those whose enrolled count is below the capacity and the full ones
    the others; the total it states is the sum of the two counts it
    states, and each section is shown by the text [format_section]
    returned for it.  It composes whenever every label is a string,
    every count an integer, a field that is absent being no obstacle,
    and [format_section] renders every section; when the labels and
    counts are so and [format_section] raises on a section, composing
    raises what it raised on one of the sections. *)
Theorem compose_status_lines_counts (format : section → outcome str)
    (course : str) (sections : snapshot) (title_suffix : str) :
  (∀ lines,
     compose_status_lines format course sections title_suffix = Ret lines →
     ∃ open_sections full_sections open_texts full_texts,
       open_sections ++ full_sections ≡ₚ sections
       ∧ Forall (fun s => is_open s = Some true) open_sections
       ∧ Forall (fun s => is_open s = Some false) full_sections
       ∧ length sections
         = (length open_sections + length full_sections)%nat
       ∧ format_all format open_sections = Ret open_texts
       ∧ format_all format full_sections = Ret full_texts
       ∧ lines
         = [py "*" ++ course ++ title_suffix ++ py "*";
            totals_line (length sections) (length open_sections)
              (length full_sections);
            []]
           ++ (if is_empty open_sections then []
               else [py "*Open sections*"] ++ open_texts ++ [[]])
           ++ (if is_empty full_sections then []
               else [py "*Full sections*"] ++ full_texts))
  ∧ (Forall status_fields sections →
     Forall (renders format) sections →
     ∃ lines, compose_status_lines format course sections title_suffix
              = Ret lines)
  ∧ (Forall status_fields sections →
     Exists (fun s => ¬ renders format s) sections →
     ∃ e s,
       compose_status_lines format course sections title_suffix = Raise e
       ∧ s ∈ sections
       ∧ format s = Raise e).
Proof.
  assert (Forall status_fields sections →
          ∃ sorted,
            sorted_by (fun a b => py_lt (section_label a) (section_label b))
              sections = Some sorted
            ∧ sections ≡ₚ sorted
            ∧ filter_by is_open sorted
              = Some (filter (fun s => is_open s = Some true) sorted)
            ∧ filter_by is_full sorted
              = Some (filter (fun s => is_open s = Some false) sorted)
            ∧ filter (fun s => is_open s = Some true) sorted
              ++ filter (fun s => is_open s = Some false) sorted
              ≡ₚ sections) as Hparts.
  { intros Hfields.
    destruct (sorted_by_total
                (fun a b => py_lt (section_label a) (section_label b))
                status_fields sections) as [sorted Hsorted]; [|done|].
    { intros x y (Hx & _) (Hy & _). unfold is_str in *.
      by destruct (section_label x), (section_label y). }
    exists sorted. split; [done|].
    apply sorted_by_perm in Hsorted. split; [done|].
    rewrite Hsorted in Hfields.
    assert (Forall (fun s => is_Some (is_open s)) sorted) as Hdef.
    { eapply Forall_impl; [exact Hfields|]. intros s (_ & He & Hc).
      unfold is_open, py_lt.
      destruct (isinstance_int_of _ He) as [e ->].
      destruct (isinstance_int_of _ Hc) as [c ->]. by eexists. }
    destruct (filter_by_total is_open sorted Hdef) as [o Ho].
    destruct (filter_by_total is_full sorted) as [f Hf].
    { eapply Forall_impl; [exact Hdef|]. intros s [b Hb].
      unfold is_full, py_ge. unfold is_open in Hb. rewrite Hb. by eexists. }
    rewrite Ho, Hf.
    apply filter_by_spec in Ho as [-> _].
    apply filter_by_spec in Hf as [-> _].
    split_and!; [done| |].
    - do 2 f_equal. apply list_filter_iff. intros s.
      unfold is_full, is_open, py_ge.
      destruct (py_lt _ _) as [[]|]; naive_solver.
    - rewrite Hsorted. apply filter_split.
      eapply Forall_impl; [exact Hdef|]. intros s [[] ->]; naive_solver. }
  split_and!.
  - intros lines. unfold compose_status_lines.
    destruct (sorted_by _ sections) as [sorted|] eqn:Hsorted; [|done].
    destruct (filter_by is_open sorted) as [open_sections|] eqn:Hopen;
      [|done].
    destruct (filter_by is_full sorted) as [full_sections|] eqn:Hfull;
      [|done].
    intros Hlines.
    destruct (format_all format open_sections) as [open_texts|eo] eqn:Hot.
    2:{ by destruct open_sections. }
    destruct (format_all format full_sections) as [full_texts|ef] eqn:Hft.
    2:{ by destruct open_sections, full_sections. }
    exists open_sections, full_sections, open_texts, full_texts.
    apply sorted_by_perm in Hsorted.
    assert (lines
            = [py "*" ++ course ++ title_suffix ++ py "*";
               totals_line (length sections) (length open_sections)
                 (length full_sections);
               []]
              ++ (if is_empty open_sections then []
                  else [py "*Open sections*"] ++ open_texts ++ [[]])
              ++ (if is_empty full_sections then []
                  else [py "*Full sections*"] ++ full_texts))
      as Hshape.
    { rewrite (Permutation_length Hsorted).
      destruct open_sections, full_sections; cbn [is_empty] in Hlines |- *;
        injection Hlines as <-; by rewrite <- ?app_assoc. }
    clear Hlines.
    apply filter_by_spec in Hopen as [-> Hdef].
    apply filter_by_spec in Hfull as [-> _].
    assert (filter (fun s => is_full s = Some true) sorted
            = filter (fun s => is_open s = Some false) sorted) as Hfull.
    { apply list_filter_iff. intros s. unfold is_full, is_open, py_ge.
      destruct (py_lt _ _) as [[]|]; naive_solver. }
    rewrite Hfull in Hshape, Hft |- *. clear Hfull.
    assert (filter (fun s => is_open s = Some true) sorted
            ++ filter (fun s => is_open s = Some false) sorted
            ≡ₚ sections) as Hperm.
    { rewrite Hsorted. apply filter_split.
      eapply Forall_impl; [exact Hdef|]. intros s [[] ->]; naive_solver. }
    split_and!.
    + done.
    + apply Forall_forall. intros s Hs.
      by apply list_elem_of_filter in Hs as [? _].
    + apply Forall_forall. intros s Hs.
      by apply list_elem_of_filter in Hs as [? _].
    + by rewrite <- Hperm, length_app.
    + done.
    + done.
    + exact Hshape.
  - intros Hfields Hrenders.
    destruct (Hparts Hfields) as (sorted & Hsorted & _ & Hopen & Hfull & Hperm).
    unfold compose_status_lines. rewrite Hsorted, Hopen, Hfull.
    rewrite <- Hperm in Hrenders. apply Forall_app in Hrenders as [Ho Hf].
    destruct (format_all_Ret _ _ Ho) as [open_texts ->].
    destruct (format_all_Ret _ _ Hf) as [full_texts ->].
    destruct (is_empty (filter _ sorted)), (is_empty (filter _ sorted));
      by eexists.
  - intros Hfields Hfails.
    destruct (Hparts Hfields) as (sorted & Hsorted & _ & Hopen & Hfull & Hperm).
    unfold compose_status_lines. rewrite Hsorted, Hopen, Hfull.
    set (open_sections := filter (fun s => is_open s = Some true) sorted) in *.
    set (full_sections := filter (fun s => is_open s = Some false) sorted) in *.
    destruct (format_all format open_sections) as [open_texts|e] eqn:Hot.
    + assert (Exists (fun s => ¬ renders format s) full_sections) as Hf.
      { rewrite <- Hperm in Hfails. apply Exists_app in Hfails as [Ho|Hf];
          [|done].
        destruct (format_all_fails _ _ Ho) as [e He]. congruence. }
      destruct (format_all_fails _ _ Hf) as [e He]. rewrite He.
      destruct (format_all_Raise _ _ _ He) as (s & Hin & Hs).
      exists e, s. split_and!; [|by rewrite <- Hperm, elem_of_app; right | done].
      destruct full_sections; [by apply elem_of_nil in Hin|].
      by destruct (is_empty open_sections).
    + destruct (format_all_Raise _ _ _ Hot) as (s & Hin & Hs).
      exists e, s. split_and!; [|by rewrite <- Hperm, elem_of_app; left | done].
      destruct open_sections; [by apply elem_of_nil in Hin | done].
Qed.

(** The statement of [compose_status_lines_counts] on the two sections
    of [labels_new], and on a record whose [meetings] is [null]. *)
Lemma compose_status_lines_counts_witness :
  (∃ lines, compose_status_lines Formatter.format_section (py "CSOPESY")
              labels_new [] = Ret lines)
  ∧ compose_status_lines Formatter.format_section (py "CSOPESY")
      unrenderable [] = Raise TypeError.
Proof.
  split.
  - apply (proj1 (proj2 (compose_status_lines_counts Formatter.format_section
                           (py "CSOPESY") labels_new []))).
    + repeat constructor.
    + repeat constructor; eexists; vm_compute; reflexivity.
  - destruct (proj2 (proj2 (compose_status_lines_counts
                              Formatter.format_section (py "CSOPESY")
                              unrenderable [])))
      as (e & s & Hraise & Hin & Hs).
    + repeat constructor.
    + apply Exists_cons_hd. intros [text Htext]. vm_compute in Htext.
      discriminate Htext.
    + rewrite Hraise. f_equal.
      apply list_elem_of_singleton in Hin. subst s.
      vm_compute in Hs. by injection Hs as <-.
Defined.

(** ** A block during a status report or a manual check *)

Lemma block_free_nil E base : block_free E base [].
Proof. intros i c id Hi. done. Qed.

Lemma block_free_app E base new1 new2 :
  block_free E base new1 →
  block_free E (base + length new1) new2 →
  block_free E base (new1 ++ new2).
Proof.
  intros H1 H2 i c id Hi. apply lookup_app_Some in Hi as [Hi|[Hlen Hi]].
  - by apply H1.
  - specialize (H2 _ _ _ Hi).
    by replace (base + length new1 + (i - length new1))%nat with (base + i)%nat
      in H2 by lia.
Qed.

Lemma blocks_only_last_app E base new1 new2 :
  block_free E base new1 →
  blocks_only_last E (base + length new1) new2 →
  blocks_only_last E base (new1 ++ new2).
Proof.
  intros H1 H2 i c id Hi Hlast.
  apply lookup_app_Some in Hi as [Hi|[Hlen Hi]].
  - by apply H1.
  - rewrite length_app in Hlast.
    assert (S (i - length new1) < length new2)%nat as Hlast' by lia.
    specialize (H2 _ _ _ Hi Hlast').
    by replace (base + length new1 + (i - length new1))%nat with (base + i)%nat
      in H2 by lia.
Qed.

Lemma block_free_only_last E base new :
  block_free E base new → blocks_only_last E base new.
Proof. intros H i c id Hi _. by apply H. Qed.

Lemma blocks_only_last_one E base x : blocks_only_last E base [x].
Proof. intros i c id Hi Hlast. cbn in Hlast. destruct i; [lia | done]. Qed.

Lemma block_free_one E base c id :
  is_block (scraper_api E base c id) = false → block_free E base [(c, id)].
Proof.
  intros Hfree i c' id' Hi. destruct i as [|i]; [|done].
  injection Hi as <- <-. by rewrite Nat.add_0_r.
Qed.

Lemma fetch_from_scraper_block E course id_no w :
  (fetch_from_scraper E course id_no w).1 = Raise CloudflareBlockedError ↔
  is_block (scraper_api E (length (w_requests w)) course id_no) = true.
Proof.
  unfold fetch_from_scraper, cache_set_m, is_block. unfold_M.
  cbn [w_requests].
  destruct (scraper_api E _ course id_no) as [status [data|]| | |]; cbn;
    try done;
    destruct (status =? 503); cbn; try done;
    destruct (status =? 200); cbn; try done;
    by destruct (CACHE_ENABLED E).
Qed.

(** The requests of a fetch: none or one; it raises the block exactly
    when it made a request that was answered with a block. *)
Lemma fetch_and_filter_data_block E course id_no class_numbers use_cache w :
  let out := fetch_and_filter_data E course id_no class_numbers use_cache w in
  ∃ new,
    w_requests out.2 = w_requests w ++ new
    ∧ ((out.1 = Raise CloudflareBlockedError
        ∧ new = [(course, id_no)]
        ∧ is_block (scraper_api E (length (w_requests w)) course id_no) = true)
       ∨ (out.1 ≠ Raise CloudflareBlockedError
          ∧ block_free E (length (w_requests w)) new)).
Proof.
  intros out.
  destruct (use_cache && CACHE_ENABLED E) eqn:Hcaching.
  - destruct (valid_entry (w_cache w) (clock E (w_clock_reads w)) course id_no)
      as [e|] eqn:Hvalid.
    + destruct (fetch_and_filter_data_hit E course id_no class_numbers
                  use_cache w e Hcaching Hvalid) as [Hret Hreq].
      exists []. rewrite app_nil_r. split; [done|]. right.
      split; [|apply block_free_nil]. unfold out. by rewrite Hret.
    + destruct (fetch_course_data_miss E course id_no use_cache w
                  (or_intror Hvalid)) as (w1 & Hfetch & Hreq & _).
      pose proof (fetch_from_scraper_once E course id_no w1) as [Honce _].
      pose proof (fetch_from_scraper_block E course id_no w1) as Hblock.
      rewrite Hreq in Honce, Hblock.
      exists [(course, id_no)].
      unfold out, fetch_and_filter_data. unfold_M. rewrite Hfetch.
      destruct (fetch_from_scraper E course id_no w1) as [[data|e] w2];
        cbn [fst snd] in *.
      * split; [done|]. right. split; [done|].
        apply block_free_one. destruct (is_block _); [|done].
        by destruct Hblock as [_ Hb]; specialize (Hb eq_refl).
      * destruct e; cbn [fst snd];
          (split; [done|]);
          first [ left; split_and!; [done | done | by apply Hblock]
                | right; split; [done|]; apply block_free_one;
                  destruct (is_block _); [|done];
                  by destruct Hblock as [_ Hb]; specialize (Hb eq_refl) ].
  - destruct (fetch_course_data_miss E course id_no use_cache w
                (or_introl Hcaching)) as (w1 & Hfetch & Hreq & _).
    pose proof (fetch_from_scraper_once E course id_no w1) as [Honce _].
    pose proof (fetch_from_scraper_block E course id_no w1) as Hblock.
    rewrite Hreq in Honce, Hblock.
    exists [(course, id_no)].
    unfold out, fetch_and_filter_data. unfold_M. rewrite Hfetch.
    destruct (fetch_from_scraper E course id_no w1) as [[data|e] w2];
      cbn [fst snd] in *.
    + split; [done|]. right. split; [done|].
      apply block_free_one. destruct (is_block _); [|done].
      by destruct Hblock as [_ Hb]; specialize (Hb eq_refl).
    + destruct e; cbn [fst snd];
        (split; [done|]);
        first [ left; split_and!; [done | done | by apply Hblock]
              | right; split; [done|]; apply block_free_one;
                destruct (is_block _); [|done];
                by destruct Hblock as [_ Hb]; specialize (Hb eq_refl) ].
Qed.

Lemma fetch_and_filter_data_raises E course id_no class_numbers use_cache w e :
  (fetch_and_filter_data E course id_no class_numbers use_cache w).1 = Raise e →
  e = CloudflareBlockedError.
Proof.
  unfold fetch_and_filter_data. unfold_M.
  destruct (fetch_course_data E course id_no use_cache w) as [[data|e'] w'];
    cbn [fst snd]; [done|]. destruct e'; cbn [fst snd]; intros [= <-] || done;
    done.
Qed.

(** A step that neither asks the scraper nor touches the store. *)
Lemma send_message_frame E chat text w :
  let out := send_message E chat text w in
  w_subscriptions out.2 = w_subscriptions w
  ∧ w_saves out.2 = w_saves w
  ∧ w_requests out.2 = w_requests w
  ∧ w_sends out.2
    = w_sends w ++ [(chat, text, telegram E (length (w_sends w)) chat text)]
  ∧ out.1 ≠ Raise CloudflareBlockedError.
Proof.
  unfold send_message. cbn [fst snd w_subscriptions w_saves w_requests w_sends].
  split_and!; [done..|]. by destruct (telegram E _ chat text).
Qed.

Lemma notify_cloudflare_block_spec E chat update w :
  let out := notify_cloudflare_block E chat update w in
  out.1 = Ret tt
  ∧ w_subscriptions out.2 = w_subscriptions w
  ∧ w_saves out.2 = w_saves w
  ∧ w_requests out.2 = w_requests w
  ∧ w_sends out.2
    = w_sends w
      ++ [(notice_chat chat update, block_text,
           telegram E (length (w_sends w)) (notice_chat chat update)
             block_text)].
Proof.
  unfold notify_cloudflare_block, notice_chat, reply_text.
  destruct update as [[uchat []]|]; cbn [has_message effective_chat];
    unfold_M; cbn [fst snd w_subscriptions w_saves w_requests w_sends];
    by destruct (telegram E _ _ block_text).
Qed.

(** One status report: it leaves the store alone and asks the scraper at
    most once.  When that request is answered with a block it raises the
    block, and the block notice is the one message it attempts. *)
Lemma send_course_status_trace E info update w :
  let out := send_course_status E info update w in
  w_subscriptions out.2 = w_subscriptions w
  ∧ w_saves out.2 = w_saves w
  ∧ (∃ rest, w_sends out.2 = w_sends w ++ rest)
  ∧ ∃ new,
      w_requests out.2 = w_requests w ++ new
      ∧ ((out.1 = Raise CloudflareBlockedError
          ∧ new = [(ti_course info, student_id info)]
          ∧ is_block (scraper_api E (length (w_requests w)) (ti_course info)
                        (student_id info)) = true
          ∧ w_sends out.2
            = w_sends w
              ++ [(notice_chat (chat_id info) update, block_text,
                   telegram E (length (w_sends w))
                     (notice_chat (chat_id info) update) block_text)])
         ∨ block_free E (length (w_requests w)) new).
Proof.
  intros out.
  pose proof (fetch_and_filter_data_frame E (ti_course info) (student_id info)
                (item_filter info) true w) as (Hsends & Hsubs & Hsaves).
  pose proof (fetch_and_filter_data_raises E (ti_course info)
                (student_id info) (item_filter info) true w) as Honly.
  destruct (fetch_and_filter_data_block E (ti_course info) (student_id info)
              (item_filter info) true w) as (new & Hreq & Hcases).
  unfold out, send_course_status. unfold_M.
  destruct (fetch_and_filter_data E (ti_course info) (student_id info)
              (item_filter info) true w) as [[[sections|]|e] w1];
    cbn [fst snd] in *.
  - (* a snapshot *)
    destruct Hcases as [[? _]|[_ Hfree]]; [done|].
    clear Honly.
    set (note := if track_all info then _ else _).
    assert (w_subscriptions (note w1).2 = w_subscriptions w1
            ∧ w_saves (note w1).2 = w_saves w1
            ∧ w_requests (note w1).2 = w_requests w1
            ∧ (∃ rest, w_sends (note w1).2 = w_sends w1 ++ rest)
            ∧ (note w1).1 ≠ Raise CloudflareBlockedError) as Hnote.
    { unfold note. destruct (track_all info).
      { split_and!; [done..| |done]. exists []. by rewrite app_nil_r. }
      destruct (is_empty _).
      { split_and!; [done..| |done]. exists []. by rewrite app_nil_r. }
      cbn [fst snd w_subscriptions w_saves w_requests w_sends].
      split_and!; [done..| by eexists |].
      by destruct (telegram E _ _ _). }
    destruct Hnote as (Hs1 & Hv1 & Hr1 & [rest1 Hl1] & Hb1).
    destruct (note w1) as [[[]|e] w2]; cbn [fst snd] in *.
    2:{ split_and!; [congruence.. | |].
        - exists rest1. congruence.
        - exists new. split; [congruence|]. by right. }
    destruct (is_empty sections).
    + cbn [fst snd w_subscriptions w_saves w_requests w_sends].
      split_and!; [congruence.. | |].
      * eexists. rewrite Hl1, Hsends, <- app_assoc. reflexivity.
      * exists new. split; [congruence|]. by right.
    + destruct (compose_status_lines _ _ _ _) as [text_lines|e].
      * pose proof (send_long_message_frame E (chat_id info) text_lines
                      (ti_course info ++ title_suffix info) w2)
          as (Hs2 & _ & Hr2 & Hv2 & [rest2 Hl2] & He2).
        split_and!; [congruence.. | |].
        -- exists (rest1 ++ rest2).
           rewrite Hl2, Hl1, Hsends, <- app_assoc. reflexivity.
        -- exists new. split; [congruence|]. by right.
      * cbn [fst snd]. split_and!; [congruence.. | |].
        -- exists rest1. congruence.
        -- exists new. split; [congruence|]. by right.
  - (* no data *)
    destruct Hcases as [[? _]|[_ Hfree]]; [done|].
    cbn [fst snd w_subscriptions w_saves w_requests w_sends].
    split_and!; [congruence.. | |].
    + eexists. rewrite Hsends. reflexivity.
    + exists new. split; [congruence|]. by right.
  - (* the block *)
    rewrite (Honly e eq_refl) in *.
    destruct Hcases as [(_ & -> & Hblock)|[? _]]; [|done].
    pose proof (notify_cloudflare_block_spec E (chat_id info) update w1)
      as (Hret & Hs2 & Hv2 & Hr2 & Hlog).
    destruct (notify_cloudflare_block E (chat_id info) update w1) as [r w2].
    cbn [fst snd] in *. subst r. cbn [fst snd].
    split_and!; [congruence.. | |].
    + eexists. rewrite Hlog, Hsends. reflexivity.
    + exists [(ti_course info, student_id info)].
      split; [congruence|]. left. split_and!; [done..|].
      by rewrite Hlog, Hsends.
Qed.

(** A status report that meets a block: the subscriber is sent the
    block notice, as a reply when the report answers a message, and the
    block is raised again for the caller, whether or not the notice
    could be delivered; nothing else is sent, and neither the store nor
    the save count changes. *)
Theorem send_course_status_block (E : env) (w w1 : world)
    (info : TrackingInfo) (update : option Update)
    (Hfetch : fetch_and_filter_data E (ti_course info) (student_id info)
                (item_filter info) true w
              = (Raise CloudflareBlockedError, w1)) :
  let out := send_course_status E info update w in
  let target := notice_chat (chat_id info) update in
  out.1 = Raise CloudflareBlockedError
  ∧ w_sends out.2
    = w_sends w
      ++ [(target, block_text,
           telegram E (length (w_sends w)) target block_text)]
  ∧ w_subscriptions out.2 = w_subscriptions w
  ∧ w_saves out.2 = w_saves w.
Proof.
  intros out target.
  pose proof (fetch_and_filter_data_frame E (ti_course info) (student_id info)
                (item_filter info) true w) as (Hsends & Hsubs & Hsaves).
  rewrite Hfetch in Hsends, Hsubs, Hsaves. cbn [fst snd] in *.
  pose proof (notify_cloudflare_block_spec E (chat_id info) update w1)
    as (Hret & Hs2 & Hv2 & _ & Hlog).
  unfold out, send_course_status. unfold_M. rewrite Hfetch.
  destruct (notify_cloudflare_block E (chat_id info) update w1) as [r w2].
  cbn [fst snd] in *. subst r. cbn [fst snd].
  split_and!; [done | | congruence..].
  by rewrite Hlog, Hsends.
Qed.

Lemma send_course_status_block_witness :
  (send_course_status (sample_env true scraper_blocked bot_down) csopesy_item
     (Some (mkUpdate 7 true)) (world_of (new_cache 60) new_subscriber)).1
  = Raise CloudflareBlockedError
  ∧ w_sends
      (send_course_status (sample_env true scraper_blocked bot_down)
         csopesy_item (Some (mkUpdate 7 true))
         (world_of (new_cache 60) new_subscriber)).2
    = [(7, block_text, false)].
Proof.
  destruct (send_course_status_block
              (sample_env true scraper_blocked bot_down)
              (world_of (new_cache 60) new_subscriber)
              (fetch_and_filter_data (sample_env true scraper_blocked bot_down)
                 (py "CSOPESY") (py "12345678") None true
                 (world_of (new_cache 60) new_subscriber)).2
              csopesy_item (Some (mkUpdate 7 true)))
    as (Hret & Hlog & _).
  - vm_compute. reflexivity.
  - split; [exact Hret | exact Hlog].
Defined.

(** One turn of a loop of [/check], followed by the rest of the loop. *)
Lemma check_step E chat info (k : M bool) w :
  (∀ w1, check_trace E chat w1 (k w1)) →
  check_trace E chat w
    ((r ← catch (send_course_status E info (Some (mkUpdate chat true)));
      match r with
      | Ret _ => k
      | Raise CloudflareBlockedError => mret true
      | Raise e => raise e
      end) w).
Proof.
  intros Hk.
  pose proof (send_course_status_trace E info (Some (mkUpdate chat true)) w)
    as (Hsubs & Hsaves & [rest1 Hlog1] & new1 & Hreq1 & Hcases).
  unfold_M.
  destruct (send_course_status E info (Some (mkUpdate chat true)) w)
    as [[[]|e] w1]; cbn [fst snd] in *.
  - destruct Hcases as [[? _]|Hfree]; [done|].
    destruct (Hk w1) as (Hs2 & Hv2 & [rest2 Hlog2] & new2 & Hreq2 & Hend).
    unfold check_trace. split_and!; [congruence.. | |].
    + exists (rest1 ++ rest2). rewrite Hlog2, Hlog1, <- app_assoc. done.
    + exists (new1 ++ new2). split.
      { rewrite Hreq2, Hreq1, <- app_assoc. done. }
      rewrite Hreq1, length_app in Hend.
      destruct (k w1).1 as [[]|e].
      * destruct Hend as (Hlast & Hlater). split.
        -- by apply blocks_only_last_app.
        -- intros Hno. destruct Hlater as (earlier & ok & Hnotice).
           { intros Hfree2. apply Hno. by apply block_free_app. }
           exists (rest1 ++ earlier), ok.
           rewrite Hnotice, Hlog1, <- !app_assoc. done.
      * by apply block_free_app.
      * destruct Hend as [Hend He]. split; [|done]. by apply block_free_app.
  - assert (e = CloudflareBlockedError ∨ e ≠ CloudflareBlockedError)
      as [->|Hne] by (destruct e; (by left) || by right).
    + unfold check_trace. cbn [fst snd].
      split_and!; [done | done | by exists rest1 |].
      destruct Hcases as [(_ & -> & _ & Hnotice)|Hfree].
      * exists [(ti_course info, student_id info)]. split; [done|]. split.
        -- apply blocks_only_last_one.
        -- intros _.
           exists [], (telegram E (length (w_sends w)) chat block_text).
           exact Hnotice.
      * exists new1. split; [done|]. split.
        -- by apply block_free_only_last.
        -- intros Hno. by destruct Hno.
    + destruct Hcases as [[[= ->] _]|Hfree]; [done|].
      destruct e; try done;
        (unfold check_trace; cbn [fst snd];
         split_and!; [done | done | by exists rest1 |];
         exists new1; by split).
Qed.

Lemma check_trace_done E chat w : check_trace E chat w (Ret false, w).
Proof.
  unfold check_trace. cbn [fst snd]. split_and!; [done | done | |].
  - exists []. by rewrite app_nil_r.
  - exists []. rewrite app_nil_r. split; [done|]. apply block_free_nil.
Qed.

Lemma check_courses_trace E chat sid courses w :
  check_trace E chat w
    (check_courses E chat sid (mkUpdate chat true) courses w).
Proof.
  revert w. induction courses as [|course rest IH]; intros w.
  - apply check_trace_done.
  - cbn [check_courses]. by apply check_step.
Qed.

Lemma check_sections_trace E chat sid items w :
  check_trace E chat w
    (check_sections E chat sid (mkUpdate chat true) items w).
Proof.
  revert w. induction items as [|[course numbers] rest IH]; intros w.
  - apply check_trace_done.
  - cbn [check_sections]. destruct (is_empty numbers); [apply IH|].
    by apply check_step.
Qed.

(** What a run of [/check] has done, whatever the guards decided. *)
Lemma check_run E chat w :
  let out := check E chat w in
  w_subscriptions out.2 = w_subscriptions w
  ∧ w_saves out.2 = w_saves w
  ∧ ∃ new,
      w_requests out.2 = w_requests w ++ new
      ∧ blocks_only_last E (length (w_requests w)) new
      ∧ (¬ block_free E (length (w_requests w)) new →
         out.1 = Ret tt
         ∧ ∃ earlier ok,
             w_sends out.2 = w_sends w ++ earlier ++ [(chat, block_text, ok)]).
Proof.
  cbn zeta. pattern (check E chat w).
  match goal with |- ?P _ => set (Q := P) end.
  assert (∀ r w', w_subscriptions w' = w_subscriptions w →
                  w_saves w' = w_saves w →
                  w_requests w' = w_requests w → Q (r, w')) as Hquiet.
  { intros r w' Hs Hv Hr. unfold Q. cbn [fst snd].
    split_and!; [done..|]. exists []. rewrite app_nil_r.
    split_and!; [done | apply block_free_only_last, block_free_nil |].
    intros Hno. destruct Hno. apply block_free_nil. }
  assert (∀ text, Q (reply_text E (mkUpdate chat true) text w)) as Hguard.
  { intros text. unfold reply_text, send_message. by apply Hquiet. }
  unfold check. unfold_M. cbn [fst snd].
  destruct (PyDict.get chat (w_subscriptions w)) as [prefs|]; [|apply Hguard].
  destruct (is_empty (id_no prefs)); [apply Hguard|].
  destruct (is_empty (courses prefs) && is_empty (sections prefs));
    [apply Hguard|].
  unfold reply_text at 1. unfold_M. cbn [effective_chat].
  destruct (telegram E (length (w_sends w)) chat checking_text);
    cbn [fst snd]; [|by apply Hquiet].
  set (w0 := mkWorld (w_cache w) (w_clock_reads w) (w_requests w)
               (w_sends w ++ [(chat, checking_text, true)])
               (w_subscriptions w) (w_saves w)).
  pose proof (check_courses_trace E chat (id_no prefs) (courses prefs) w0)
    as (Hs1 & Hv1 & [rest1 Hlog1] & new1 & Hreq1 & Hend1).
  destruct (check_courses E chat (id_no prefs) (mkUpdate chat true)
              (courses prefs) w0) as [[[]|e] w1]; cbn [fst snd] in *;
    unfold w0 in *; clear w0;
    cbn [w_subscriptions w_saves w_requests w_sends] in *.
  - (* the flag set among the courses *)
    destruct Hend1 as (Hlast & Hlater).
    unfold Q. cbn [fst snd].
    split_and!; [done..|]. exists new1. split_and!; [done..|].
    intros Hno. split; [done|].
    destruct (Hlater Hno) as (earlier & ok & Hnotice).
    exists ((chat, checking_text, true) :: earlier), ok.
    rewrite Hnotice. by rewrite <- app_assoc.
  - (* the courses went through *)
    pose proof (check_sections_trace E chat (id_no prefs) (sections prefs) w1)
      as (Hs2 & Hv2 & [rest2 Hlog2] & new2 & Hreq2 & Hend2).
    rewrite Hreq1, length_app in Hend2.
    destruct (check_sections E chat (id_no prefs) (mkUpdate chat true)
                (sections prefs) w1) as [[[]|e] w2]; cbn [fst snd] in *.
    + destruct Hend2 as (Hlast & Hlater).
      unfold Q. cbn [fst snd].
      split_and!; [congruence..|]. exists (new1 ++ new2).
      split_and!.
      * rewrite Hreq2, Hreq1. by rewrite <- app_assoc.
      * by apply blocks_only_last_app.
      * intros Hno. split; [done|].
        destruct Hlater as (earlier & ok & Hnotice).
        { intros Hfree2. apply Hno. by apply block_free_app. }
        exists ((chat, checking_text, true) :: rest1 ++ earlier), ok.
        rewrite Hnotice, Hlog1. cbn [app].
        by rewrite <- !app_assoc.
    + unfold reply_text, send_message. unfold Q.
      cbn [fst snd w_subscriptions w_saves w_requests effective_chat].
      split_and!; [congruence..|]. exists (new1 ++ new2).
      assert (block_free E (length (w_requests w)) (new1 ++ new2)) as Hfree
        by (by apply block_free_app).
      split_and!.
      * rewrite Hreq2, Hreq1. by rewrite <- app_assoc.
      * by apply block_free_only_last.
      * intros Hno. by destruct Hno.
    + destruct Hend2 as [Hfree2 He]. unfold Q. cbn [fst snd].
      split_and!; [congruence..|]. exists (new1 ++ new2).
      assert (block_free E (length (w_requests w)) (new1 ++ new2)) as Hfree
        by (by apply block_free_app).
      split_and!.
      * rewrite Hreq2, Hreq1. by rewrite <- app_assoc.
      * by apply block_free_only_last.
      * intros Hno. by destruct Hno.
  - destruct Hend1 as [Hfree He]. unfold Q. cbn [fst snd].
    split_and!; [done..|]. exists new1.
    split_and!; [done | by apply block_free_only_last |].
    intros Hno. by destruct Hno.
Qed.

(** [/check] stops at the first block.  Of the requests a manual check
    makes, none but the last is answered with a block: once the scraper
    has answered with one, the check asks it nothing more.  When that
    happens the check returns, and the last message it attempted is the
    block notice for the chat; the closing "Finished" message is not
    sent. *)
Theorem check_stops_at_block (E : env) (w : world) (chat : Z) :
  let out := check E chat w in
  ∃ new,
    w_requests out.2 = w_requests w ++ new
    ∧ blocks_only_last E (length (w_requests w)) new
    ∧ (¬ block_free E (length (w_requests w)) new →
       out.1 = Ret tt
       ∧ ∃ earlier ok,
           w_sends out.2 = w_sends w ++ earlier ++ [(chat, block_text, ok)]).
Proof. by destruct (check_run E chat w) as (_ & _ & Hrun). Qed.

Lemma check_stops_at_block_witness :
  w_requests
    (check (sample_env true scraper_blocked bot_up) 7
       (world_of (new_cache 60) three_courses)).2
  = [(py "CCPROG1", py "12345678")]
  ∧ (check (sample_env true scraper_blocked bot_up) 7
       (world_of (new_cache 60) three_courses)).1
    = Ret tt.
Proof.
  destruct (check_stops_at_block (sample_env true scraper_blocked bot_up)
              (world_of (new_cache 60) three_courses) 7)
    as (new & Hreq & _ & Hblock).
  split.
  - vm_compute. reflexivity.
  - apply Hblock. intros Hfree.
    assert (new = [(py "CCPROG1", py "12345678")]) as ->.
    { vm_compute in Hreq. subst new. reflexivity. }
    specialize (Hfree 0%nat _ _ eq_refl). vm_compute in Hfree.
    discriminate Hfree.
Defined.

(** [/check] only reads the store: it leaves every subscriber's
    preferences and previous snapshots as they are and saves nothing,
    so what it shows is still reported by the next broadcast cycle. *)
Theorem check_reads_only (E : env) (w : world) (chat : Z) :
  w_subscriptions (check E chat w).2 = w_subscriptions w
  ∧ w_saves (check E chat w).2 = w_saves w.
Proof.
  destruct (check_run E chat w) as (Hsubs & Hsaves & _). by split.
Qed.
